(** * yali storage: device tree and operation scheduler

    A shallow embedding of [yali/storage/devicetree.py] (class [DeviceTree]):
    the device list with its add/remove invariants, the registration and
    cancellation of operations, the pruning passes over the operation log,
    the comparator used to sort the pruned log, and the loop that executes
    the sorted operations.

    Python objects live in a store: a device is addressed by its [id]
    (the unique number every device carries, [device.id] in the source),
    so a reference to a device is that number and the store maps it to the
    current attributes of the object.  Methods that raise keep every
    mutation made before the [raise]: a computation is a function from the
    state to an outcome and the state reached. *)

From Stdlib Require Import ZArith Lia.
From stdpp Require Import base option list strings gmap.

Local Open Scope Z_scope.
Local Open Scope nat_scope.

(** ** Exceptions and the state-and-exception monad *)

Inductive exn : Type :=
  | ValueError (msg : string)
  | DeviceTreeError (msg : string)
  | NameError (name : string)
  | IndexError (msg : string)
  | DiskLabelCommitError
  | OtherError (msg : string).

#[global] Instance exn_eq_dec : EqDecision exn.
Proof. solve_decision. Defined.

Inductive result (A : Type) : Type :=
  | Ok (a : A)
  | Raise (e : exn).
Arguments Ok {A} a.
Arguments Raise {A} e.

Definition M (S A : Type) : Type := S → result A * S.

Definition ret {S A} (a : A) : M S A := λ s, (Ok a, s).
Definition bind {S A B} (m : M S A) (f : A → M S B) : M S B :=
  λ s, match m s with
       | (Ok a, s') => f a s'
       | (Raise e, s') => (Raise e, s')
       end.
Definition raise {S A} (e : exn) : M S A := λ s, (Raise e, s).
Definition get {S} : M S S := λ s, (Ok s, s).
Definition gets {S A} (f : S → A) : M S A := λ s, (Ok (f s), s).
Definition modify {S} (f : S → S) : M S unit := λ s, (Ok tt, f s).

#[global] Instance M_ret S : MRet (M S) := λ A, ret.
#[global] Instance M_bind S : MBind (M S) := λ A B f m, bind m f.

(** [for x in l: body x], for a list that the body does not mutate. *)
Fixpoint for_each {S A} (l : list A) (body : A → M S unit) : M S unit :=
  match l with
  | [] => ret tt
  | x :: l' => bind (body x) (λ _, for_each l' body)
  end.

(** ** Data model *)

Inductive DeviceClass : Type := ClsDisk | ClsPartition | ClsNoDevice | ClsDevice.
Inductive FormatClass : Type := ClsFilesystem | ClsDiskLabel | ClsDeviceFormat.

#[global] Instance DeviceClass_eq_dec : EqDecision DeviceClass.
Proof. solve_decision. Defined.
#[global] Instance FormatClass_eq_dec : EqDecision FormatClass.
Proof. solve_decision. Defined.

(** A format descriptor; [fmt_mountpoint] is [getattr(format, 'mountpoint', None)]. *)
Record Format : Type := mkFormat {
  fmt_class : FormatClass;
  fmt_type : string;
  fmt_mountpoint : option string;
  fmt_device : string;
  fmt_exists : bool
}.

#[global] Instance Format_eq_dec : EqDecision Format.
Proof. solve_decision. Defined.

(** What the comparator and the removal read of [partition.partedPartition]. *)
Record PartedPartition : Type := mkParted {
  pp_number : Z;
  pp_extended : bool
}.

#[global] Instance PartedPartition_eq_dec : EqDecision PartedPartition.
Proof. solve_decision. Defined.

(** The attributes of a device object.  [dev_parents] and [dev_disk] hold
    references (device ids); [dev_kids] is the child count that
    [removeChild] decrements and [isleaf] tests. *)
Record Device : Type := mkDevice {
  dev_class : DeviceClass;
  dev_name : string;
  dev_path : string;
  dev_parents : list nat;
  dev_kids : Z;
  dev_exists : bool;
  dev_partitioned : bool;
  dev_format : Format;
  dev_disk : option nat;
  dev_partedPartition : PartedPartition;
  dev_isLogical : bool
}.

#[global] Instance Device_eq_dec : EqDecision Device.
Proof. solve_decision. Defined.

Definition noFormat : Format := mkFormat ClsDeviceFormat "" None "" false.

#[global] Instance Device_inhabited : Inhabited Device :=
  populate (mkDevice ClsNoDevice "" "" [] 0%Z false false noFormat None (mkParted 0 false) false).

Inductive OpType : Type := Create | Destroy | Resize | Migrate.
Inductive OpObj : Type := ObjDevice | ObjFormat.

#[global] Instance OpType_eq_dec : EqDecision OpType.
Proof. solve_decision. Defined.
#[global] Instance OpObj_eq_dec : EqDecision OpObj.
Proof. solve_decision. Defined.

(** An operation object: [op_id] is its identity (two operation objects
    are [==] only when they are the same object), [op_device] the reference
    to its device, [op_grow] the direction of a resize. *)
Record Operation : Type := mkOp {
  op_id : nat;
  op_type : OpType;
  op_obj : OpObj;
  op_device : nat;
  op_grow : bool
}.

#[global] Instance Operation_eq_dec : EqDecision Operation.
Proof. solve_decision. Defined.

Definition isCreate (o : Operation) : bool := bool_decide (op_type o = Create).
Definition isDestroy (o : Operation) : bool := bool_decide (op_type o = Destroy).
Definition isResize (o : Operation) : bool := bool_decide (op_type o = Resize).
Definition isMigrate (o : Operation) : bool := bool_decide (op_type o = Migrate).
Definition isDevice (o : Operation) : bool := bool_decide (op_obj o = ObjDevice).
Definition isFormat (o : Operation) : bool := bool_decide (op_obj o = ObjFormat).
Definition isGrow (o : Operation) : bool := op_grow o.

(** The state of a [DeviceTree] object: [self._devices], [self.operations]
    and the store of the device objects they refer to. *)
Record DeviceTree : Type := mkTree {
  _devices : list nat;
  operations : list Operation;
  heap : gmap nat Device
}.

Definition set_devices (l : list nat) (t : DeviceTree) : DeviceTree :=
  mkTree l (operations t) (heap t).
Definition set_operations (l : list Operation) (t : DeviceTree) : DeviceTree :=
  mkTree (_devices t) l (heap t).
Definition set_heap (h : gmap nat Device) (t : DeviceTree) : DeviceTree :=
  mkTree (_devices t) (operations t) h.

(** Attribute access through a reference. *)
Definition deref (h : gmap nat Device) (d : nat) : Device := h !!! d.

(** ** Python list primitives on [self.operations] *)

(** [l.index(x)]: position of the first element equal to [x]. *)
Definition list_index {A} `{EqDecision A} (x : A) (l : list A) : option nat :=
  fst <$> list_find (λ y, y = x) l.

(** [l.remove(x)]: drop the first element equal to [x]. *)
Fixpoint list_remove_first {A} `{EqDecision A} (x : A) (l : list A) : option (list A) :=
  match l with
  | [] => None
  | y :: l' => if decide (y = x) then Some l'
               else (y ::.) <$> list_remove_first x l'
  end.

Definition ops_index (x : Operation) : M DeviceTree nat :=
  λ t, match list_index x (operations t) with
       | Some i => (Ok i, t)
       | None => (Raise (ValueError "x not in list"), t)
       end.

Definition ops_remove (x : Operation) : M DeviceTree unit :=
  λ t, match list_remove_first x (operations t) with
       | Some l => (Ok tt, set_operations l t)
       | None => (Raise (ValueError "list.remove(x): x not in list"), t)
       end.

Definition ops_contains (x : Operation) : M DeviceTree bool :=
  gets (λ t, bool_decide (x ∈ operations t)).

(** [l[-1]] *)
Definition list_last {S A} (l : list A) : M S A :=
  match last l with
  | Some x => ret x
  | None => raise (IndexError "list index out of range")
  end.

(** [l[0]] *)
Definition list_first {S A} (l : list A) : M S A :=
  match l with
  | x :: _ => ret x
  | [] => raise (IndexError "list index out of range")
  end.

(** ** findOperations *)

(** One operation against the filters of [findOperations]; [None] matches
    anything.  The [type] and [object] arguments are the values that
    [operation_type_from_string] and [operation_object_from_string] give for
    the strings the callers pass. *)
Definition op_matches (h : gmap nat Device)
    (device : option nat) (type : option OpType) (object : option OpObj)
    (path : option string) (devid : option nat) (o : Operation) : bool :=
  match device with Some d => bool_decide (op_device o = d) | None => true end
  && match type with Some ty => bool_decide (op_type o = ty) | None => true end
  && match object with Some ob => bool_decide (op_obj o = ob) | None => true end
  && match path with Some p => bool_decide (dev_path (deref h (op_device o)) = p) | None => true end
  && match devid with Some i => bool_decide (op_device o = i) | None => true end.

Definition findOperations (device : option nat) (type : option OpType)
    (object : option OpObj) (path : option string) (devid : option nat)
    : M DeviceTree (list Operation) :=
  match device, type, object, path, devid with
  | None, None, None, None, None => gets operations
  | _, _, _, _, _ =>
      gets (λ t, filter (λ o, op_matches (heap t) device type object path devid o)
                        (operations t))
  end.

(** ** pruneOperations *)

(** The removal loop of the two destroy passes (lines 512-519, 646-653):
    [for rem in dev_operations]: remove [rem] when its position lies in
    [start..end], [end] being the current position of [stop_operation];
    leave the loop after [stop_operation]. *)
Fixpoint remove_through (start : nat) (stop_operation : Operation)
    (dev_operations : list Operation) : M DeviceTree unit :=
  match dev_operations with
  | [] => mret tt
  | rem :: rest =>
      end_ ← ops_index stop_operation;
      i ← ops_index rem;
      (if (start <=? i) && (i <=? end_) then ops_remove rem else mret tt) ;;
      if bool_decide (rem = stop_operation) then mret tt
      else remove_through start stop_operation rest
  end.

(** The removal loop of the two create passes (lines 567-574, 703-710):
    leave the loop at [stop_operation]; otherwise remove [rem] when its
    position lies in [start..end-1]. *)
Fixpoint remove_before (start : nat) (stop_operation : Operation)
    (dev_operations : list Operation) : M DeviceTree unit :=
  match dev_operations with
  | [] => mret tt
  | rem :: rest =>
      if bool_decide (rem = stop_operation) then mret tt
      else
        end_ ← ops_index stop_operation;
        i ← ops_index rem;
        (if (start <=? i) && (i <? end_) then ops_remove rem else mret tt) ;;
        remove_before start stop_operation rest
  end.

(** [start] and [stop_operation] of a destroy pass (lines 474-491 for
    [object = device], 620-637 for [object = format]); [None] is
    [start is None]. *)
Definition destroy_range (object : OpObj) (a : Operation)
    : M DeviceTree (option (nat * Operation)) :=
  destroys ← findOperations None (Some Destroy) (Some object) None (Some (op_device a));
  creates ← findOperations None (Some Create) (Some object) None (Some (op_device a));
  '(loops, first_destroy_idx, range) ←
    (if bool_decide (1 < length destroys) then
       d0 ← list_first destroys;
       first_destroy_idx ← ops_index d0;
       ia ← ops_index a;
       stop_operation ← list_last destroys;
       mret (destroys, first_destroy_idx, Some (ia + 1, stop_operation))
     else mret ([], 0, None));
  match creates with
  | [] => mret range
  | c0 :: _ =>
      first_create_idx ← ops_index c0;
      if bool_decide (loops = []) || (first_create_idx <? first_destroy_idx) then
        stop_operation ← list_last destroys;
        mret (Some (first_create_idx, stop_operation))
      else mret range
  end.

(** [start] and [stop_operation] of a create pass (lines 542-559, 677-694). *)
Definition create_range (object : OpObj) (a : Operation)
    : M DeviceTree (option (nat * Operation)) :=
  creates ← findOperations None (Some Create) (Some object) None (Some (op_device a));
  destroys ← findOperations None (Some Destroy) (Some object) None (Some (op_device a));
  '(loops, first_create_idx, range) ←
    (if bool_decide (1 < length creates) then
       c0 ← list_first creates;
       first_create_idx ← ops_index c0;
       stop_operation ← list_last creates;
       mret (creates, first_create_idx, Some (0, stop_operation))
     else mret ([], 0, None));
  match destroys with
  | [] => mret range
  | d0 :: _ =>
      first_destroy_idx ← ops_index d0;
      if bool_decide (loops = []) || (first_destroy_idx <? first_create_idx) then
        stop_operation ← list_last creates;
        mret (Some (first_destroy_idx + 1, stop_operation))
      else mret range
  end.

(** Body of the device-destroy loop (lines 449-519). *)
Definition prune_destroy_device (a : Operation) : M DeviceTree unit :=
  present ← ops_contains a;
  if negb present then mret tt
  else
    range ← destroy_range ObjDevice a;
    dev_operations ← findOperations None None None None (Some (op_device a));
    match range with
    | Some (start, stop_operation) =>
        remove_through start stop_operation dev_operations
    | None =>
        let dev_operations :=
          filter (λ _a, isResize _a || (isFormat _a && negb (isDestroy _a)))
                 dev_operations in
        match dev_operations with
        | [] => mret tt
        | o0 :: _ =>
            start ← ops_index o0;
            stop_operation ← list_last dev_operations;
            remove_through start stop_operation dev_operations
        end
    end.

(** Body of the device-create loop (lines 523-574). *)
Definition prune_create_device (a : Operation) : M DeviceTree unit :=
  present ← ops_contains a;
  if negb present then mret tt
  else
    range ← create_range ObjDevice a;
    match range with
    | None => mret tt
    | Some (start, stop_operation) =>
        dev_operations ← findOperations None None None None (Some (op_device a));
        remove_before start stop_operation dev_operations
    end.

(** Body of the format-destroy loop (lines 600-653). *)
Definition prune_destroy_format (a : Operation) : M DeviceTree unit :=
  present ← ops_contains a;
  if negb present then mret tt
  else
    range ← destroy_range ObjFormat a;
    match range with
    | None => mret tt
    | Some (start, stop_operation) =>
        dev_operations ← findOperations None None (Some ObjFormat) None (Some (op_device a));
        remove_through start stop_operation dev_operations
    end.

(** Body of the format-create loop (lines 658-710). *)
Definition prune_create_format (a : Operation) : M DeviceTree unit :=
  present ← ops_contains a;
  if negb present then mret tt
  else
    range ← create_range ObjFormat a;
    match range with
    | None => mret tt
    | Some (start, stop_operation) =>
        dev_operations ← findOperations None None (Some ObjFormat) None (Some (op_device a));
        remove_before start stop_operation dev_operations
    end.

(** Body of the device-resize, format-resize and format-migrate loops
    (lines 578-595, 714-731, 736-753): keep the last operation of the
    kind on this device. *)
Definition prune_keep_last (type : OpType) (object : OpObj) (a : Operation)
    : M DeviceTree unit :=
  present ← ops_contains a;
  if negb present then mret tt
  else
    loops ← findOperations None (Some type) (Some object) None (Some (op_device a));
    if bool_decide (length loops = 1) then mret tt
    else for_each (removelast loops) ops_remove.

(** One pass: the operations of a kind are looked up once, then the body
    runs on each of them. *)
Definition prune_pass (type : OpType) (object : OpObj)
    (body : Operation → M DeviceTree unit) : M DeviceTree unit :=
  operations ← findOperations None (Some type) (Some object) None None;
  for_each operations body.

Definition pruneOperations : M DeviceTree unit :=
  prune_pass Destroy ObjDevice prune_destroy_device ;;
  prune_pass Create ObjDevice prune_create_device ;;
  prune_pass Resize ObjDevice (prune_keep_last Resize ObjDevice) ;;
  prune_pass Destroy ObjFormat prune_destroy_format ;;
  prune_pass Create ObjFormat prune_create_format ;;
  prune_pass Resize ObjFormat (prune_keep_last Resize ObjFormat) ;;
  prune_pass Migrate ObjFormat (prune_keep_last Migrate ObjFormat).

(** The log after pruning, when pruning returns normally. *)
Definition pruned (l : list Operation) : option (list Operation) :=
  match pruneOperations (mkTree [] l ∅) with
  | (Ok _, t) => Some (operations t)
  | (Raise _, _) => None
  end.

(** ** The device list *)

(** Modelled from the spec: [Device.isleaf] and [Device.removeChild] (class
    [Device] is not among the sources).  A device keeps a child count
    ([device.kids] in the debug message of [_removeDevice]); [removeChild]
    decrements it and a leaf is a device without children. *)
Definition isleaf (d : Device) : bool := bool_decide (dev_kids d = 0%Z).

Definition removeChild (d : Device) : Device :=
  mkDevice (dev_class d) (dev_name d) (dev_path d) (dev_parents d)
           (dev_kids d - 1)%Z (dev_exists d) (dev_partitioned d) (dev_format d)
           (dev_disk d) (dev_partedPartition d) (dev_isLogical d).

Definition isPartition (d : Device) : bool := bool_decide (dev_class d = ClsPartition).

(** [self.leaves] *)
Definition leaves (t : DeviceTree) : list nat :=
  filter (λ d, isleaf (deref (heap t) d)) (_devices t).

(** Truth value of a mountpoint: neither [None] nor the empty string. *)
Definition mountpoint_set (f : Format) : bool :=
  match fmt_mountpoint f with
  | Some s => negb (bool_decide (s = ""))
  | None => false
  end.

(** [self.filesystems]: the formats (not the mountpoints) of the leaves
    whose format has a mountpoint. *)
Definition filesystems (t : DeviceTree) : list Format :=
  dev_format <$> filter (λ d, mountpoint_set (dev_format d))
                        (deref (heap t) <$> leaves t).

(** The values that meet in [mountpoint in self.filesystems]: the left
    operand is a mountpoint (a string or [None]), the elements of the list
    are format objects. *)
Inductive pyval : Type :=
  | PyNone
  | PyStr (s : string)
  | PyFormat (f : Format).

(** [==] on these values: strings compare by content, format objects
    with format objects only (class [Format] defines no comparison of its
    own; [processOperations] uses [device.originalFormat != device.format]
    to tell two format objects apart), and values of unrelated types are
    never equal. *)
Definition py_eq (x y : pyval) : bool :=
  match x, y with
  | PyNone, PyNone => true
  | PyStr a, PyStr b => bool_decide (a = b)
  | PyFormat f, PyFormat g => bool_decide (f = g)
  | _, _ => false
  end.

Definition py_mountpoint (f : Format) : pyval :=
  match fmt_mountpoint f with
  | Some s => PyStr s
  | None => PyNone
  end.

(** [x in l] *)
Definition py_in (x : pyval) (l : list pyval) : bool := existsb (py_eq x) l.

Section Tree.

(** The partition-table and format collaborators, which act on the
    objects in the store: [disk.format.removePartition(partedPartition)],
    [partition.updateName()], [len(disk.format.logicalPartitions)] and
    [operation.cancel()]. *)
Variable removePartition : nat → nat → gmap nat Device → gmap nat Device.
Variable updateName : nat → gmap nat Device → gmap nat Device.
Variable logicalPartitions : gmap nat Device → nat → nat.
Variable cancel : Operation → gmap nat Device → gmap nat Device.

(** [_addDevice] (lines 95-110).  When the path is already in the list,
    the second operand of [and] is evaluated and reads [newdev], a name
    that is bound nowhere. *)
Definition _addDevice (device : nat) : M DeviceTree unit :=
  t ← get;
  (if bool_decide (dev_path (deref (heap t) device)
                     ∈ (λ d, dev_path (deref (heap t) d)) <$> _devices t)
   then raise (NameError "newdev")
   else mret tt) ;;
  for_each (dev_parents (deref (heap t) device))
    (λ parent,
       t ← get;
       if bool_decide (parent ∈ _devices t) then mret tt
       else raise (DeviceTreeError "parent device not in tree")) ;;
  modify (λ t, set_devices (_devices t ++ [device]) t).

(** [_removeDevice] (lines 112-148). *)
Definition _removeDevice (device : nat) (force : bool) (moddisk : bool)
    : M DeviceTree unit :=
  t ← get;
  if negb (bool_decide (device ∈ _devices t)) then
    raise (ValueError "Device not in tree")
  else if negb (isleaf (deref (heap t) device)) && negb force then
    raise (ValueError "Cannot remove non-leaf device")
  else
    (match dev_disk (deref (heap t) device) with
     | Some disk =>
         if moddisk && isPartition (deref (heap t) device) then
           if pp_extended (dev_partedPartition (deref (heap t) device))
              && bool_decide (0 < logicalPartitions (heap t) disk)
           then raise (ValueError "Cannot remove extended partition.  Logical partitions present.")
           else
             modify (λ t, set_heap (removePartition disk device (heap t)) t) ;;
             for_each (_devices t)
               (λ dev,
                  t ← get;
                  if isPartition (deref (heap t) dev)
                     && bool_decide (dev_disk (deref (heap t) dev)
                                     = dev_disk (deref (heap t) device))
                  then modify (λ t, set_heap (updateName dev (heap t)) t)
                  else mret tt)
         else mret tt
     | None => mret tt
     end) ;;
    t ← get;
    match list_remove_first device (_devices t) with
    | None => raise (ValueError "list.remove(x): x not in list")
    | Some l =>
        modify (set_devices l) ;;
        for_each (dev_parents (deref (heap t) device))
          (λ parent,
             modify (λ t, set_heap (alter removeChild parent (heap t)) t))
    end.

(** [for d in self._devices: if d.path == operation.device.path:
    self._removeDevice(d)] (lines 161-163).  The list is mutated while it
    is iterated: the iterator holds a position [i], yields
    [self._devices[i]] while [i] is in range and advances by one, whatever
    the body removed.  The list never grows, so its initial length bounds
    the number of rounds. *)
Fixpoint remove_same_path (rounds : nat) (i : nat) (operation : Operation)
    : M DeviceTree unit :=
  match rounds with
  | 0 => mret tt
  | S rounds =>
      t ← get;
      match _devices t !! i with
      | None => mret tt
      | Some d =>
          (if bool_decide (dev_path (deref (heap t) d)
                           = dev_path (deref (heap t) (op_device operation)))
           then _removeDevice d false true
           else mret tt) ;;
          remove_same_path rounds (S i) operation
      end
  end.

(** [addOperation] (lines 150-175). *)
Definition addOperation (operation : Operation) : M DeviceTree unit :=
  t ← get;
  (if (isDestroy operation || isResize operation
       || (isCreate operation && isFormat operation))
      && negb (bool_decide (op_device operation ∈ _devices t))
   then raise (DeviceTreeError "device is not in the tree")
   else if isCreate operation && isDevice operation then
     (if bool_decide (op_device operation ∈ _devices t)
      then _removeDevice (op_device operation) false true
      else mret tt) ;;
     t ← get;
     remove_same_path (length (_devices t)) 0 operation
   else mret tt) ;;
  (if isCreate operation && isDevice operation then
     _addDevice (op_device operation)
   else if isDestroy operation && isDevice operation then
     _removeDevice (op_device operation) false true
   else if isCreate operation && isFormat operation then
     t ← get;
     let format := dev_format (deref (heap t) (op_device operation)) in
     if bool_decide (fmt_class format = ClsFilesystem)
        && py_in (py_mountpoint format) (PyFormat <$> filesystems t)
     then raise (DeviceTreeError "mountpoint already in use")
     else mret tt
   else mret tt) ;;
  modify (λ t, set_operations (operations t ++ [operation]) t).

(** [removeOperation] (lines 177-191). *)
Definition removeOperation (operation : Operation) : M DeviceTree unit :=
  (if isCreate operation && isDevice operation then
     _removeDevice (op_device operation) false true
   else if isDestroy operation && isDevice operation then
     _addDevice (op_device operation)
   else if isFormat operation
           && (isCreate operation || isMigrate operation || isResize operation) then
     modify (λ t, set_heap (cancel operation (heap t)) t)
   else mret tt) ;;
  ops_remove operation.

End Tree.

(** ** The comparator of processOperations *)

(** Python's [cmp] on integers and on strings. *)
Definition cmp_int (x y : Z) : Z :=
  match (x ?= y)%Z with Lt => (-1)%Z | Eq => 0%Z | Gt => 1%Z end.

Definition cmp_str (x y : string) : Z :=
  match String.compare x y with Lt => (-1)%Z | Eq => 0%Z | Gt => 1%Z end.

Section Comparator.

(** [device.dependsOn(dep)], a method of class [Device], which is not
    among the sources: it reads the objects of the store. *)
Variable dependsOn : gmap nat Device → nat → nat → bool.

(** [cmpOperations] (lines 234-374), on the objects of store [h]. *)
Definition cmpOperations (h : gmap nat Device) (a1 a2 : Operation) : Z :=
  let d1 := deref h (op_device a1) in
  let d2 := deref h (op_device a2) in
  if isDestroy a1 && isDestroy a2 then
    if bool_decide (dev_path d1 = dev_path d2) then
      if isFormat a1 && isFormat a2 then 0
      else if isFormat a1 && negb (isFormat a2) then -1
      else if negb (isFormat a1) && isFormat a2 then 1
      else 0
    else if dependsOn h (op_device a1) (op_device a2) then -1
    else if dependsOn h (op_device a2) (op_device a1) then 1
    else if isPartition d1 && isPartition d2 then
      if bool_decide (dev_disk d1 = dev_disk d2) then
        cmp_int (pp_number (dev_partedPartition d2)) (pp_number (dev_partedPartition d1))
      else cmp_str (dev_name d2) (dev_name d1)
    else if isPartition d1 && dev_partitioned d2 then -1
    else if isPartition d2 && dev_partitioned d1 then 1
    else if isPartition d1 && negb (isPartition d2) then 1
    else if isPartition d2 && negb (isPartition d1) then -1
    else 0
  else if isDestroy a1 then -1
  else if isDestroy a2 then 1
  else if isResize a1 && isResize a2 then
    if bool_decide (dev_path d1 = dev_path d2) then
      if bool_decide (op_obj a1 = op_obj a2) then 0
      else if isFormat a1 && negb (isFormat a2) then
        if isGrow a1 then 1 else -1
      else if negb (isFormat a1) && isFormat a2 then
        if isGrow a1 then -1 else 1
      else cmp_str (dev_name d1) (dev_name d2)
    else if dependsOn h (op_device a1) (op_device a2) then
      if isGrow a1 then 1 else -1
    else if dependsOn h (op_device a2) (op_device a1) then
      if isGrow a1 then -1 else 1
    else if isPartition d1 && isPartition d2 then
      cmp_str (dev_name d1) (dev_name d2)
    else 0
  else if isResize a1 then -1
  else if isResize a2 then 1
  else if isCreate a1 && isCreate a2 then
    if bool_decide (dev_path d1 = dev_path d2) then
      (* [if a1.obj == a2.obj: ret = 0] is followed by a second [if], which
         assigns [ret] again on each of its three branches *)
      if isFormat a1 then 1
      else if isFormat a2 then -1
      else 0
    else if dependsOn h (op_device a1) (op_device a2) then 1
    else if dependsOn h (op_device a2) (op_device a1) then -1
    else if isPartition d1 && isPartition d2 then
      if bool_decide (dev_disk d1 = dev_disk d2) then
        cmp_int (pp_number (dev_partedPartition d1)) (pp_number (dev_partedPartition d2))
      else cmp_str (dev_name d1) (dev_name d2)
    else if isPartition d1 && dev_partitioned d2 then 1
    else if isPartition d2 && dev_partitioned d1 then -1
    else if isPartition d1 && negb (isPartition d2) then -1
    else if isPartition d2 && negb (isPartition d1) then 1
    else 0
  else if isCreate a1 then -1
  else if isCreate a2 then 1
  else if isMigrate a1 && isMigrate a2 then
    if bool_decide (dev_path d1 = dev_path d2) then 0
    else if dependsOn h (op_device a1) (op_device a2) then 1
    else if dependsOn h (op_device a2) (op_device a1) then -1
    else if isPartition d1 && isPartition d2 then
      if bool_decide (dev_disk d1 = dev_disk d2) then
        cmp_int (pp_number (dev_partedPartition d1)) (pp_number (dev_partedPartition d2))
      else cmp_str (dev_name d1) (dev_name d2)
    else 0
  else 0.

End Comparator.

(** Modelled from the spec: [Device.dependsOn] (classes [Device] and
    [Partition] are not among the sources).  The relation is read from the
    parent links, and every logical partition of a disk depends on the
    extended partition of that disk.  The recursion follows the parent
    links at most [n] levels up. *)
Fixpoint dependsOn_upto (n : nat) (h : gmap nat Device) (a dep : nat) : bool :=
  match n with
  | 0 => false
  | S n =>
      (isPartition (deref h dep) && pp_extended (dev_partedPartition (deref h dep))
       && isPartition (deref h a) && dev_isLogical (deref h a)
       && bool_decide (dev_disk (deref h a) = dev_disk (deref h dep)))
      || bool_decide (dep ∈ dev_parents (deref h a))
      || existsb (λ parent, dependsOn_upto n h parent dep) (dev_parents (deref h a))
  end.

(** A chain of parent links through distinct objects is no longer than the
    store. *)
Definition dependsOn_parents (h : gmap nat Device) (a dep : nat) : bool :=
  dependsOn_upto (S (size h)) h a dep.

(** ** The execution loop of processOperations *)

(** [try: m except <class>: handler] *)
Definition try_except {S A} (m : M S A) (caught : exn → bool) (handler : M S A)
    : M S A :=
  λ s, match m s with
       | (Raise e, s') => if caught e then handler s' else (Raise e, s')
       | r => r
       end.

Definition isDiskLabelCommitError (e : exn) : bool :=
  match e with DiskLabelCommitError => true | _ => false end.
Definition isDeviceTreeError (e : exn) : bool :=
  match e with DeviceTreeError _ => true | _ => false end.

(** The calls that leave the device tree, in the order they are made. *)
Inductive Event : Type :=
  | EvExecute (operation : Operation)
  | EvTeardown (device : nat)
  | EvSettle
  | EvUpdateName (device : nat).

Section Execution.

(** The system outside the Python objects. *)
Context {World : Type}.

(** The device tree during a commit, the outside system, and the calls
    made so far. *)
Record Run : Type := mkRun {
  run_tree : DeviceTree;
  run_world : World;
  run_trace : list Event
}.

(** [operation.execute()]: acts on the objects and on the system, and
    returns normally ([None]) or raises. *)
Variable execute :
  Operation → gmap nat Device * World → option exn * (gmap nat Device * World).

(** Modelled from the spec: [device.teardown(recursive=True)] (class
    [Device] is not among the sources) brings the device and, recursively,
    the devices it is built on offline; a failure ([true]) is the
    setup/teardown error, which is the class [teardownAll] catches. *)
Variable teardown :
  nat → gmap nat Device * World → bool * (gmap nat Device * World).

Variable udev_settle : World → World.
Variable updateName : nat → gmap nat Device → gmap nat Device.

Definition call_execute (operation : Operation) : M Run unit :=
  λ r, let '(res, (h, w)) := execute operation (heap (run_tree r), run_world r) in
       (match res with None => Ok tt | Some e => Raise e end,
        mkRun (set_heap h (run_tree r)) w (run_trace r ++ [EvExecute operation])).

Definition call_teardown (device : nat) : M Run unit :=
  λ r, let '(failed, (h, w)) := teardown device (heap (run_tree r), run_world r) in
       (if failed then Raise (DeviceTreeError "teardown failed") else Ok tt,
        mkRun (set_heap h (run_tree r)) w (run_trace r ++ [EvTeardown device])).

Definition call_udev_settle : M Run unit :=
  λ r, (Ok tt, mkRun (run_tree r) (udev_settle (run_world r)) (run_trace r ++ [EvSettle])).

Definition call_updateName (device : nat) : M Run unit :=
  λ r, (Ok tt, mkRun (set_heap (updateName device (heap (run_tree r))) (run_tree r))
                     (run_world r) (run_trace r ++ [EvUpdateName device])).

(** [device.format.device = device.path] *)
Definition set_format_device (d : Device) : Device :=
  mkDevice (dev_class d) (dev_name d) (dev_path d) (dev_parents d) (dev_kids d)
           (dev_exists d) (dev_partitioned d)
           (mkFormat (fmt_class (dev_format d)) (fmt_type (dev_format d))
                     (fmt_mountpoint (dev_format d)) (dev_path d)
                     (fmt_exists (dev_format d)))
           (dev_disk d) (dev_partedPartition d) (dev_isLogical d).

(** [teardownAll] (lines 1091-1097) *)
Definition teardownAll : M Run unit :=
  r ← get;
  for_each (leaves (run_tree r))
    (λ device, try_except (call_teardown device) isDeviceTreeError (mret tt)).

(** Lines 439-444: what follows a successful execution. *)
Definition resync : M Run unit :=
  call_udev_settle ;;
  r ← get;
  for_each (_devices (run_tree r))
    (λ device,
       r ← get;
       if dev_exists (deref (heap (run_tree r)) device)
          && isPartition (deref (heap (run_tree r)) device)
       then
         call_updateName device ;;
         modify (λ r, mkRun (set_heap (alter set_format_device device
                                             (heap (run_tree r))) (run_tree r))
                            (run_world r) (run_trace r))
       else mret tt).

(** The body of the loop of lines 428-444 for one operation. *)
Definition process_one (dryRun : bool) (operation : Operation) : M Run unit :=
  if negb dryRun then
    try_except (call_execute operation) isDiskLabelCommitError
      (teardownAll ;; call_execute operation) ;;
    resync
  else mret tt.

(** [for operation in self.operations: ...] over the sorted log. *)
Definition run_operations (dryRun : bool) (ops : list Operation) : M Run unit :=
  for_each ops (process_one dryRun).

End Execution.

(** ** Concrete trees and logs used below *)

Definition no_removePartition (disk part : nat) (h : gmap nat Device) := h.
Definition no_updateName (dev : nat) (h : gmap nat Device) := h.
Definition no_logicalPartitions (h : gmap nat Device) (disk : nat) := 0.
Definition no_cancel (o : Operation) (h : gmap nat Device) := h.

Definition ext4 (mountpoint : string) (device : string) : Format :=
  mkFormat ClsFilesystem "ext4" (Some mountpoint) device true.

Definition disk_dev (name : string) (kids : Z) : Device :=
  mkDevice ClsDisk name ("/dev/" +:+ name) [] kids true true
           (mkFormat ClsDiskLabel "disklabel" None ("/dev/" +:+ name) true)
           None (mkParted 0 false) false.

Definition part_dev (name : string) (disk : nat) (number : Z) (f : Format) (existing : bool)
    : Device :=
  mkDevice ClsPartition name ("/dev/" +:+ name) [disk] 0 existing false f
           (Some disk) (mkParted number false) false.

Definition tmpfs_dev : Device :=
  mkDevice ClsNoDevice "tmpfs" "tmpfs" [] 0 false false
           (mkFormat ClsFilesystem "tmpfs" (Some "/tmp") "tmpfs" false)
           None (mkParted 0 false) false.

(** A disk [sda] (id 1) with partitions [sda1] (id 2) mounted on [/data]
    and [sda2] (id 3) carrying a new filesystem for [/data]. *)
Definition data_tree : DeviceTree :=
  mkTree [1; 2; 3] []
    (<[1 := disk_dev "sda" 2]>
     (<[2 := part_dev "sda1" 1 1 (ext4 "/data" "/dev/sda1") true]>
      (<[3 := part_dev "sda2" 1 2 (ext4 "/data" "/dev/sda2") true]> ∅))).

Definition create_format_sda2 : Operation := mkOp 1 Create ObjFormat 3 false.

(** A tree holding one placeholder, and a second placeholder object (id 2)
    of the same path outside the tree. *)
Definition tmpfs_tree : DeviceTree :=
  mkTree [1] [] (<[1 := tmpfs_dev]> (<[2 := tmpfs_dev]> ∅)).

(** A tree holding the disk [sda], and a second object (id 2) for a disk
    of the same path outside the tree. *)
Definition sda_tree : DeviceTree :=
  mkTree [1] [] (<[1 := disk_dev "sda" 0]> (<[2 := disk_dev "sda" 0]> ∅)).

(** ** Vocabulary for the statements about pruning *)

(** [prunes P m Q]: run on a log of distinct operations that satisfies [P],
    the computation [m] returns normally, changes nothing of the tree but
    the log, only drops operations from the log, and leaves a log that
    satisfies [Q]. *)
Definition prunes (P : list Operation → Prop) (m : M DeviceTree unit)
    (Q : list Operation → Prop) : Prop :=
  ∀ t, NoDup (operations t) → P (operations t) →
    ∃ R : list Operation,
      m t = (Ok tt, set_operations (filter (λ o, o ∉ R) (operations t)) t)
      ∧ Q (filter (λ o, o ∉ R) (operations t)).

(** An argument of [findOperations] lets a value through: [None] matches
    anything. *)
Definition passes {A} (wanted : option A) (x : A) : Prop :=
  match wanted with
  | Some y => x = y
  | None => True
  end.

(** The operations of one kind on one device. *)
Definition of_kind (type : OpType) (object : OpObj) (device : nat) (o : Operation) : Prop :=
  op_type o = type ∧ op_obj o = object ∧ op_device o = device.

#[global] Instance of_kind_dec type object device o : Decision (of_kind type object device o).
Proof. unfold of_kind. apply _. Defined.

(** No operation of the log creates or destroys the device [X] or its format. *)
Definition no_lifecycle (X : nat) (l : list Operation) : Prop :=
  ∀ o, o ∈ l → op_device o = X → op_type o ≠ Create ∧ op_type o ≠ Destroy.

(** The operation [s] stands before the operation [r] in the log. *)
Definition stands_before (l : list Operation) (s r : Operation) : Prop :=
  ∃ l1 l2 l3, l = l1 ++ s :: l2 ++ r :: l3.


(** No operation of the log is on the device [X]. *)
Definition untouched (X : nat) (l : list Operation) : Prop :=
  ∀ o, o ∈ l → op_device o ≠ X.

(** Two partition objects of the same path, the situation the comment of
    [processOperations] describes ("non-existent sda6 and previous sda6
    that will become sda5 in the course of partitioning"): the existing
    [sda6] (id 2) and the new one (id 3), on the disk [sda] (id 1). *)
Definition sda6_heap : gmap nat Device :=
  <[1 := disk_dev "sda" 2]>
  (<[2 := part_dev "sda6" 1 6 (ext4 "/home" "/dev/sda6") true]>
   (<[3 := part_dev "sda6" 1 6 (ext4 "/srv" "/dev/sda6") false]> ∅)).

Definition create_format_old_sda6 : Operation := mkOp 1 Create ObjFormat 2 false.
Definition create_format_new_sda6 : Operation := mkOp 2 Create ObjFormat 3 false.

(** A disk [sda] (id 1) with one partition [sda1] (id 2). *)
Definition sda1_tree : DeviceTree :=
  mkTree [1; 2] []
    (<[1 := disk_dev "sda" 1]>
     (<[2 := part_dev "sda1" 1 1 (ext4 "/" "/dev/sda1") true]> ∅)).

(** Resize [sda1], destroy it, create it again, destroy it again. *)
Definition resize_sda1 : Operation := mkOp 1 Resize ObjDevice 2 false.
Definition destroy_sda1 : Operation := mkOp 2 Destroy ObjDevice 2 false.
Definition create_sda1 : Operation := mkOp 3 Create ObjDevice 2 false.
Definition destroy_sda1_again : Operation := mkOp 4 Destroy ObjDevice 2 false.

Definition resize_destroy_create_destroy : list Operation :=
  [resize_sda1; destroy_sda1; create_sda1; destroy_sda1_again].

(** Three resizes of [sda1], to 5 GB, to 8 GB and to 6 GB. *)
Definition resize_to_5GB : Operation := mkOp 1 Resize ObjDevice 2 true.
Definition resize_to_8GB : Operation := mkOp 2 Resize ObjDevice 2 true.
Definition resize_to_6GB : Operation := mkOp 3 Resize ObjDevice 2 false.

(** The claims that fail, as stated. *)


(** C9 as stated: cancelling an operation that is not in the log raises,
    and the device of a device-create has left the tree by then, the
    device of a device-destroy is back in it. *)
Definition cancel_applies_inverse_first : Prop :=
  ∀ (removePartition : nat → nat → gmap nat Device → gmap nat Device)
    (updateName : nat → gmap nat Device → gmap nat Device)
    (logicalPartitions : gmap nat Device → nat → nat)
    (cancel : Operation → gmap nat Device → gmap nat Device)
    (operation : Operation) (t : DeviceTree),
    operation ∉ operations t →
    ∃ e t',
      removeOperation removePartition updateName logicalPartitions cancel operation t
      = (Raise e, t')
      ∧ (isCreate operation && isDevice operation → op_device operation ∉ _devices t')
      ∧ (isDestroy operation && isDevice operation → op_device operation ∈ _devices t').

(** The tree [sda1_tree] with the three resizes of [sda1] registered. *)
Definition three_resizes_tree : DeviceTree :=
  set_operations [resize_to_5GB; resize_to_8GB; resize_to_6GB] sda1_tree.



(** A device-create operation on the disk [sda] that was never registered. *)
Definition create_sda_unregistered : Operation := mkOp 7 Create ObjDevice 1 false.

(** A device-destroy operation on the disk [sda]. *)
Definition destroy_sda : Operation := mkOp 5 Destroy ObjDevice 1 false.

(** A proposed partition [sda3] (id 9), whose object exists but is not in
    the tree yet, and its create and destroy operations. *)
Definition proposal_tree : DeviceTree :=
  set_heap (<[9 := part_dev "sda3" 1 3 noFormat false]> (heap three_resizes_tree))
           three_resizes_tree.
Definition create_proposed : Operation := mkOp 10 Create ObjDevice 9 false.
Definition destroy_proposed : Operation := mkOp 11 Destroy ObjDevice 9 false.

(** The tree after the registration of [create_proposed], and a second
    create operation of the proposed partition. *)
Definition proposed_tree : DeviceTree :=
  mkTree [1; 2; 9] (operations proposal_tree ++ [create_proposed]) (heap proposal_tree).
Definition create_proposed_again : Operation := mkOp 17 Create ObjDevice 9 false.

(** The create of a format on the proposed partition, and the tree after
    the create of the partition was registered, the create of the format
    was registered, and the create of the partition was cancelled. *)
Definition create_format_proposed : Operation := mkOp 18 Create ObjFormat 9 false.

Definition orphan_tree : DeviceTree :=
  ((addOperation no_removePartition no_updateName no_logicalPartitions create_proposed ;;
    addOperation no_removePartition no_updateName no_logicalPartitions
      create_format_proposed ;;
    removeOperation no_removePartition no_updateName no_logicalPartitions no_cancel
      create_proposed) proposal_tree).2.

(** C4 as stated: for a proposed device [X], which does not exist, is not
    in the tree and which no operation of the log destroys, the
    registration of its create immediately followed by the registration
    of its destroy, then pruning, leaves no operation on [X]. *)
Definition create_destroy_collapses_always : Prop :=
  ∀ (removePartition : nat → nat → gmap nat Device → gmap nat Device)
    (updateName : nat → gmap nat Device → gmap nat Device)
    (logicalPartitions : gmap nat Device → nat → nat)
    (X : nat) (c d : Operation) (t t1 t2 : DeviceTree),
    NoDup (operations t ++ [c; d]) →
    X ∉ _devices t →
    dev_exists (deref (heap t) X) = false →
    (∀ o, o ∈ operations t → ¬ of_kind Destroy ObjDevice X o) →
    of_kind Create ObjDevice X c →
    of_kind Destroy ObjDevice X d →
    addOperation removePartition updateName logicalPartitions c t = (Ok tt, t1) →
    addOperation removePartition updateName logicalPartitions d t1 = (Ok tt, t2) →
    ∃ t3, pruneOperations t2 = (Ok tt, t3) ∧ untouched X (operations t3).


Definition quiet_teardown (device : nat) (s : gmap nat Device * nat)
    : bool * (gmap nat Device * nat) :=
  (false, s).

Definition commit_start : @Run nat := mkRun data_tree 0 [].

(** ** Reading the calls of a run *)




Definition mkfs_failing_execute (operation : Operation) (s : gmap nat Device * nat)
    : option exn * (gmap nat Device * nat) :=
  (if isFormat operation then Some (OtherError "format failed") else None, (s.1, S s.2)).

Definition failing_teardown (device : nat) (s : gmap nat Device * nat)
    : bool * (gmap nat Device * nat) :=
  (true, s).

(** The place of an operation type in the execution order that
    [cmpOperations] gives to operations of different types. *)
Definition type_rank (type : OpType) : nat :=
  match type with
  | Destroy => 0
  | Resize => 1
  | Create => 2
  | Migrate => 3
  end.

(** A disk [sda] (id 1) with the partitions [sda1] (id 2) and [sda2]
    (id 3), as in [data_tree], and the destroy and create operations of
    the two partitions. *)
Definition destroy_sda2 : Operation := mkOp 21 Destroy ObjDevice 3 false.
Definition destroy_sda1' : Operation := mkOp 22 Destroy ObjDevice 2 false.
Definition create_sda2 : Operation := mkOp 23 Create ObjDevice 3 false.
Definition create_sda1' : Operation := mkOp 24 Create ObjDevice 2 false.
Definition destroy_format_sda2 : Operation := mkOp 25 Destroy ObjFormat 3 false.

(** A relation in which no device depends on another. *)
Definition no_dependency (h : gmap nat Device) (a dep : nat) : bool := false.

(** ** Listings and lookups of the device tree *)

(** [[d.path for d in self._devices]] *)
Definition paths (t : DeviceTree) : list string :=
  (λ d, dev_path (deref (heap t) d)) <$> _devices t.

(** The loop of the [devices] property (lines 1207-1211): [devices] is
    the list built so far, [rest] what is left of [self._devices]. *)
Fixpoint devices_loop (h : gmap nat Device) (devices rest : list nat)
    : result (list nat) :=
  match rest with
  | [] => Ok devices
  | device :: rest =>
      if bool_decide (dev_path (deref h device)
                        ∈ (λ d, dev_path (deref h d)) <$> devices)
         && negb (bool_decide (dev_class (deref h device) = ClsNoDevice))
      then Raise (DeviceTreeError "duplicate paths in device tree")
      else devices_loop h (devices ++ [device]) rest
  end.

(** The [devices] property (lines 1203-1213). *)
Definition devices : M DeviceTree (list nat) :=
  λ t, (devices_loop (heap t) [] (_devices t), t).

(** [getDeviceByName] (lines 1107-1119) and [getDeviceByPath] (lines
    1166-1177): nothing for an empty key, otherwise the first device of
    the list with that name or path. *)
Definition getDeviceByName (name : string) (t : DeviceTree) : option nat :=
  if bool_decide (name = "") then None
  else snd <$> list_find (λ device, dev_name (deref (heap t) device) = name) (_devices t).

Definition getDeviceByPath (path : string) (t : DeviceTree) : option nat :=
  if bool_decide (path = "") then None
  else snd <$> list_find (λ device, dev_path (deref (heap t) device) = path) (_devices t).

(** [getChildren] (lines 1199-1201, and again lines 1249-1251). *)
Definition getChildren (device : nat) (t : DeviceTree) : list nat :=
  filter (λ c, device ∈ dev_parents (deref (heap t) c)) (_devices t).

(** Two empty disks, [sda] (id 1) and [sdb] (id 2), and a migrate
    operation on the format of the proposed partition of
    [proposal_tree]. *)
Definition two_disks_tree : DeviceTree :=
  mkTree [1; 2] [] (<[1 := disk_dev "sda" 0]> (<[2 := disk_dev "sdb" 0]> ∅)).

Definition migrate_proposed : Operation := mkOp 12 Migrate ObjFormat 9 false.

(** Logs on [sda1_tree]: two migrations of the format of [sda1] with a
    resize of [sda1] between them; and a resize of [sda1], its destroy
    and, after the destroy, the create of a format on it. *)
Definition migrate_sda1 : Operation := mkOp 13 Migrate ObjFormat 2 false.
Definition migrate_sda1_again : Operation := mkOp 14 Migrate ObjFormat 2 false.
Definition create_format_sda1 : Operation := mkOp 15 Create ObjFormat 2 false.

Definition two_migrates_tree : DeviceTree :=
  set_operations [migrate_sda1; resize_to_5GB; migrate_sda1_again] sda1_tree.

Definition single_destroy_tree : DeviceTree :=
  set_operations [resize_to_5GB; destroy_sda1; create_format_sda1] sda1_tree.

(** ** Ignored and exclusive disks *)

(** What [isIgnored] reads of a udev record, through the accessors of the
    [udev] module: the sysfs path, the name, the md level, container and
    name, and the five tests on the kind of device. *)
Record UdevInfo : Type := mkInfo {
  info_sysfs_path : option string;
  info_name : string;
  info_md_level : option string;
  info_md_container : option string;
  info_md_name : option string;
  info_is_disk : bool;
  info_is_md : bool;
  info_is_dm : bool;
  info_is_biosraid : bool;
  info_is_multipath_member : bool
}.

(** The two attributes of the tree that [isIgnored] works on,
    [self._ignoredDisks] and [self.exclusiveDisks]. *)
Record DiskFilter : Type := mkFilter {
  _ignoredDisks : list string;
  exclusiveDisks : list string
}.

(** Truth value of a string or [None]. *)
Definition truthy (s : option string) : bool :=
  match s with
  | Some s => negb (bool_decide (s = ""))
  | None => false
  end.

(** [addIgnoredDisk] (lines 50-51). *)
Definition addIgnoredDisk (disk : string) : M DiskFilter unit :=
  modify (λ f, mkFilter (_ignoredDisks f ++ [disk]) (exclusiveDisks f)).

(** The answers of [isIgnored]: [None], [True], [False]. *)
Inductive Ignored : Type := IgnNone | IgnTrue | IgnFalse.

Section Ignoring.

(** [re.match(pattern, string)] as a truth value. *)
Variable re_match : string → string → bool.

(** [for i in range(0, len(self.exclusiveDisks))] (lines 74-77): the
    first entry that the pattern matches is overwritten with [name];
    [None] when no entry matches. *)
Fixpoint claim_exclusive (pattern name : string) (exclusive : list string)
    : option (list string) :=
  match exclusive with
  | [] => None
  | entry :: rest =>
      if re_match pattern entry then Some (name :: rest)
      else (entry ::.) <$> claim_exclusive pattern name rest
  end.

(** [isIgnored] (lines 53-93). *)
Definition isIgnored (info : UdevInfo) : M DiskFilter Ignored :=
  let sysfs_path := info_sysfs_path info in
  let name := info_name info in
  f ← get;
  if negb (truthy sysfs_path) then mret IgnNone
  else if bool_decide (name ∈ _ignoredDisks f) then mret IgnTrue
  else if bool_decide (info_md_level info = Some "container") then mret IgnFalse
  else
    match (if truthy (info_md_container info) && truthy (info_md_name info)
           then claim_exclusive ("isw_[a-z]*_" +:+ default "" (info_md_name info))
                                name (exclusiveDisks f)
           else None) with
    | Some exclusive =>
        modify (λ f, mkFilter (_ignoredDisks f) exclusive) ;;
        mret IgnFalse
    | None =>
        if info_is_disk info && negb (info_is_md info) && negb (info_is_dm info)
           && negb (info_is_biosraid info) && negb (info_is_multipath_member info)
           && (negb (bool_decide (exclusiveDisks f = []))
               && negb (bool_decide (name ∈ exclusiveDisks f)))
        then addIgnoredDisk name ;; mret IgnTrue
        else if String.prefix "loop" name || String.prefix "ram" name
        then mret IgnTrue
        else mret IgnNone
    end.

End Ignoring.

(** A pattern test for the examples: the entry starts with [isw_]. *)
Definition isw_match (pattern entry : string) : bool := String.prefix "isw_" entry.

Definition plain_disk (name : string) : UdevInfo :=
  mkInfo (Some ("/sys/block/" +:+ name)) name None None None true false false false false.

Definition md_member (name md_name : string) : UdevInfo :=
  mkInfo (Some ("/sys/block/" +:+ name)) name (Some "raid1") (Some "/dev/md/imsm0")
         (Some md_name) false true false false false.

(** The create operation of the second [sda] object (id 2) of
    [sda_tree], whose path the disk in the tree holds. *)
Definition create_new_sda : Operation := mkOp 16 Create ObjDevice 2 false.

(** * Properties *)

(** ** The monad *)

Lemma bind_run {S A B} (m : M S A) (f : A → M S B) (s : S) :
  (m ≫= f) s = match m s with
               | (Ok a, s') => f a s'
               | (Raise e, s') => (Raise e, s')
               end.
Proof. reflexivity. Qed.

Lemma bind_ok {S A B} (m : M S A) (f : A → M S B) (s s' : S) (a : A) :
  m s = (Ok a, s') → (m ≫= f) s = f a s'.
Proof. intros H. rewrite bind_run, H. reflexivity. Qed.

Lemma bind_raise {S A B} (m : M S A) (f : A → M S B) (s s' : S) (e : exn) :
  m s = (Raise e, s') → (m ≫= f) s = (Raise e, s').
Proof. intros H. rewrite bind_run, H. reflexivity. Qed.

(** A property of the state that every round of a loop keeps is kept by
    the loop, whether it ends normally or not. *)
Lemma for_each_preserves {S A} (P : S → Prop) (body : A → M S unit) (l : list A) :
  (∀ x s, P s → P (body x s).2) → ∀ s, P s → P (for_each l body s).2.
Proof.
  intros Hbody. induction l as [|x l IH]; intros s Hs; simpl; [exact Hs|].
  unfold bind. specialize (Hbody x s Hs).
  destruct (body x s) as [[[]|e] s']; simpl in *; auto.
Qed.

(** A loop whose rounds all return normally without changing the state. *)
Lemma for_each_skip {S A} (body : A → M S unit) (l : list A) (s : S) :
  (∀ x, x ∈ l → body x s = (Ok tt, s)) → for_each l body s = (Ok tt, s).
Proof.
  induction l as [|x l IH]; intros H; simpl; [reflexivity|].
  unfold bind. rewrite H by left. apply IH. intros y Hy. apply H. by right.
Qed.

(** A loop whose rounds always return normally returns normally. *)
Lemma for_each_returns {S A} (body : A → M S unit) (l : list A) :
  (∀ x s, (body x s).1 = Ok tt) → ∀ s, (for_each l body s).1 = Ok tt.
Proof.
  intros Hbody. induction l as [|x l IH]; intros s; simpl; [reflexivity|].
  unfold bind. specialize (Hbody x s).
  destruct (body x s) as [[[]|e] s']; simpl in *; [apply IH|done].
Qed.

Section TreeFacts.

Variable removePartition : nat → nat → gmap nat Device → gmap nat Device.
Variable updateName : nat → gmap nat Device → gmap nat Device.
Variable logicalPartitions : gmap nat Device → nat → nat.
Variable cancel : Operation → gmap nat Device → gmap nat Device.

Local Abbreviation removeDev := (_removeDevice removePartition updateName logicalPartitions).
Local Abbreviation addOp := (addOperation removePartition updateName logicalPartitions).
Local Abbreviation removeOp := (removeOperation removePartition updateName logicalPartitions cancel).

(** *** _addDevice *)

Lemma _addDevice_duplicate_path (device : nat) (t : DeviceTree) :
  dev_path (deref (heap t) device)
    ∈ (λ d, dev_path (deref (heap t) d)) <$> _devices t →
  _addDevice device t = (Raise (NameError "newdev"), t).
Proof.
  intros H. unfold _addDevice. rewrite bind_run. simpl.
  rewrite bind_run. rewrite (bool_decide_eq_true_2 _ H). reflexivity.
Qed.

Lemma _addDevice_missing_parent (device : nat) (t : DeviceTree) :
  dev_path (deref (heap t) device)
    ∉ (λ d, dev_path (deref (heap t) d)) <$> _devices t →
  ¬ (∀ parent, parent ∈ dev_parents (deref (heap t) device) → parent ∈ _devices t) →
  _addDevice device t = (Raise (DeviceTreeError "parent device not in tree"), t).
Proof.
  intros Hp Hpar. unfold _addDevice. rewrite bind_run. simpl.
  rewrite bind_run. rewrite (bool_decide_eq_false_2 _ Hp). simpl.
  rewrite bind_run.
  assert (Hloop : for_each (dev_parents (deref (heap t) device))
            (λ parent, t0 ← get;
               if bool_decide (parent ∈ _devices t0) then mret tt
               else raise (DeviceTreeError "parent device not in tree")) t
          = (Raise (DeviceTreeError "parent device not in tree"), t)).
  { induction (dev_parents (deref (heap t) device)) as [|p l IH].
    - exfalso. apply Hpar. intros parent Hin. inversion Hin.
    - simpl. unfold bind. rewrite bind_run. simpl.
      case_bool_decide as E; [|reflexivity].
      simpl. apply IH. intros Hall. apply Hpar. intros parent Hin.
      apply elem_of_cons in Hin as [->|Hin]; auto. }
  rewrite Hloop. reflexivity.
Qed.

Lemma _addDevice_ok (device : nat) (t : DeviceTree) :
  dev_path (deref (heap t) device)
    ∉ (λ d, dev_path (deref (heap t) d)) <$> _devices t →
  (∀ parent, parent ∈ dev_parents (deref (heap t) device) → parent ∈ _devices t) →
  _addDevice device t = (Ok tt, set_devices (_devices t ++ [device]) t).
Proof.
  intros Hp Hpar. unfold _addDevice. rewrite bind_run. simpl.
  rewrite bind_run. rewrite (bool_decide_eq_false_2 _ Hp). simpl.
  rewrite bind_run. rewrite for_each_skip; [reflexivity|].
  intros p Hin. rewrite bind_run. simpl.
  rewrite bool_decide_eq_true_2; [reflexivity|auto].
Qed.

(** *** _removeDevice *)

Lemma _removeDevice_not_in_tree (device : nat) (force moddisk : bool) (t : DeviceTree) :
  device ∉ _devices t →
  removeDev device force moddisk t = (Raise (ValueError "Device not in tree"), t).
Proof.
  intros H. unfold _removeDevice. rewrite bind_run. simpl.
  rewrite (bool_decide_eq_false_2 _ H). reflexivity.
Qed.

Lemma _removeDevice_nonleaf (device : nat) (moddisk : bool) (t : DeviceTree) :
  device ∈ _devices t →
  isleaf (deref (heap t) device) = false →
  removeDev device false moddisk t
  = (Raise (ValueError "Cannot remove non-leaf device"), t).
Proof.
  intros Hin Hleaf. unfold _removeDevice. rewrite bind_run. simpl.
  rewrite (bool_decide_eq_true_2 _ Hin). simpl. rewrite Hleaf. reflexivity.
Qed.

(** X28: a device-destroy operation on a device that is in the tree and
    whose child count is not zero cannot be registered: [addOperation]
    raises the error of the non-forced [_removeDevice], and neither the
    operation log nor anything else of the tree has changed. *)
Theorem addOperation_destroy_nonleaf (operation : Operation) (t : DeviceTree) :
  isDestroy operation = true →
  isDevice operation = true →
  op_device operation ∈ _devices t →
  isleaf (deref (heap t) (op_device operation)) = false →
  addOp operation t = (Raise (ValueError "Cannot remove non-leaf device"), t)
  ∧ operations (addOp operation t).2 = operations t.
Proof.
  intros Hd Hdev Hin Hleaf.
  assert (E : addOp operation t
              = (Raise (ValueError "Cannot remove non-leaf device"), t)).
  { unfold addOperation. rewrite bind_run. simpl. rewrite bind_run.
    rewrite Hd, Hdev. simpl.
    rewrite (bool_decide_eq_true_2 _ Hin). simpl.
    assert (Hc : isCreate operation = false).
    { unfold isCreate, isDestroy in *. apply bool_decide_eq_true in Hd.
      apply bool_decide_eq_false. congruence. }
    rewrite Hc. simpl. rewrite bind_run.
    rewrite _removeDevice_nonleaf by assumption. reflexivity. }
  rewrite E. split; reflexivity.
Qed.

End TreeFacts.

(** ** Python list primitives *)

Section ListFacts.

Context {A : Type} `{EqDecision A}.
Implicit Types (x y : A) (l R : list A).

Lemma list_index_cons x y l :
  list_index x (y :: l)
  = if decide (y = x) then Some 0 else S <$> list_index x l.
Proof.
  unfold list_index. simpl. destruct (decide (y = x)); [reflexivity|].
  destruct (list_find _ l) as [[i z]|]; reflexivity.
Qed.

Lemma list_index_elem x l : x ∈ l → is_Some (list_index x l).
Proof.
  induction l as [|y l IH]; intros Hin; [inversion Hin|].
  rewrite list_index_cons. destruct (decide (y = x)); [eauto|].
  apply elem_of_cons in Hin as [->|Hin]; [done|].
  destruct (IH Hin) as [i ->]. eauto.
Qed.

Lemma list_index_not_elem x l : x ∉ l → list_index x l = None.
Proof.
  induction l as [|y l IH]; intros Hin; [reflexivity|].
  rewrite list_index_cons. apply not_elem_of_cons in Hin as [Hne Hin].
  rewrite decide_False by done. rewrite IH by done. reflexivity.
Qed.

Lemma list_index_app_fresh x l1 l2 :
  x ∉ l1 → list_index x (l1 ++ x :: l2) = Some (length l1).
Proof.
  induction l1 as [|y l1 IH]; intros Hin; simpl.
  - rewrite list_index_cons, decide_True by done. reflexivity.
  - apply not_elem_of_cons in Hin as [Hne Hin].
    rewrite list_index_cons, decide_False by done. rewrite IH by done. reflexivity.
Qed.

Lemma list_remove_first_not_elem x l : x ∉ l → list_remove_first x l = None.
Proof.
  induction l as [|y l IH]; intros Hin; [reflexivity|]. simpl.
  apply not_elem_of_cons in Hin as [Hne Hin].
  rewrite decide_False by done. rewrite IH by done. reflexivity.
Qed.

Lemma filter_ne_not_elem x l : x ∉ l → filter (λ y, y ≠ x) l = l.
Proof.
  induction l as [|y l IH]; intros Hin; [reflexivity|].
  apply not_elem_of_cons in Hin as [Hne Hin].
  rewrite filter_cons_True by done. rewrite IH by done. reflexivity.
Qed.

(** In a list without repetition, [l.remove(x)] keeps what differs from [x]. *)
Lemma list_remove_first_NoDup x l :
  NoDup l → x ∈ l → list_remove_first x l = Some (filter (λ y, y ≠ x) l).
Proof.
  induction l as [|y l IH]; intros Hnd Hin; [inversion Hin|]. simpl.
  apply NoDup_cons in Hnd as [Hy Hnd].
  destruct (decide (y = x)) as [->|Hne].
  - rewrite filter_cons_False by (intros Hc; by apply Hc).
    rewrite filter_ne_not_elem by done. reflexivity.
  - apply elem_of_cons in Hin as [->|Hin]; [done|].
    rewrite IH by done. rewrite filter_cons_True by done. reflexivity.
Qed.

Lemma list_remove_first_app_fresh x l1 l2 :
  x ∉ l1 → list_remove_first x (l1 ++ x :: l2) = Some (l1 ++ l2).
Proof.
  induction l1 as [|y l1 IH]; intros Hin; simpl.
  - rewrite decide_True by done. reflexivity.
  - apply not_elem_of_cons in Hin as [Hne Hin].
    rewrite decide_False by done. rewrite IH by done. reflexivity.
Qed.

Lemma filter_not_elem_nil l : filter (λ y, y ∉ @nil A) l = l.
Proof.
  induction l as [|y l IH]; [reflexivity|].
  rewrite filter_cons_True by (intros Hc; inversion Hc). by rewrite IH.
Qed.

Lemma filter_not_elem_app R1 R2 l :
  filter (λ y, y ∉ R2) (filter (λ y, y ∉ R1) l) = filter (λ y, y ∉ R1 ++ R2) l.
Proof.
  rewrite list_filter_filter. apply list_filter_iff.
  intros y. rewrite elem_of_app. tauto.
Qed.

Lemma filter_ne_not_elem_singleton x l :
  filter (λ y, y ≠ x) l = filter (λ y, y ∉ [x]) l.
Proof. apply list_filter_iff. intros y. rewrite list_elem_of_singleton. tauto. Qed.

(** Dropping operations that a second filter would drop anyway. *)
Lemma filter_filter_not_elem (P : A → Prop) `{∀ y, Decision (P y)} R l :
  (∀ y, y ∈ R → ¬ P y) →
  filter P (filter (λ y, y ∉ R) l) = filter P l.
Proof.
  intros HR. rewrite list_filter_filter. apply list_filter_iff.
  intros y. split; [tauto|]. intros Hy. split; [done|]. intros Hc. by apply (HR y).
Qed.

Lemma filter_nil_elem_of (P : A → Prop) `{∀ y, Decision (P y)} l :
  (∀ y, y ∈ l → ¬ P y) → filter P l = [].
Proof.
  induction l as [|y l IH]; intros Hl; [reflexivity|].
  rewrite filter_cons_False by (apply Hl; by left).
  apply IH. intros z Hz. apply Hl. by right.
Qed.

Lemma removelast_snoc_last l x : last l = Some x → l = removelast l ++ [x].
Proof.
  intros [l' ->]%last_Some. by rewrite List.removelast_last.
Qed.

(** In a list without repetition, dropping all but the last leaves the last. *)
Lemma filter_not_elem_removelast l x :
  NoDup l → last l = Some x → filter (λ y, y ∉ removelast l) l = [x].
Proof.
  intros Hnd [l' ->]%last_Some. rewrite List.removelast_last.
  apply NoDup_app in Hnd as (Hl' & Hdisj & _).
  rewrite filter_app. rewrite (filter_cons_True _ x []).
  2:{ intros Hc. apply (Hdisj _ Hc). by left. }
  rewrite filter_nil.
  replace (filter (λ y, y ∉ l') l') with (@nil A); [reflexivity|].
  symmetry. apply filter_nil_elem_of. tauto.
Qed.

End ListFacts.

(** ** Pruning: the primitives on the log *)

Lemma set_operations_id (t : DeviceTree) : set_operations (operations t) t = t.
Proof. by destruct t. Qed.

Lemma set_operations_twice (l1 l2 : list Operation) (t : DeviceTree) :
  set_operations l2 (set_operations l1 t) = set_operations l2 t.
Proof. reflexivity. Qed.

Lemma ops_index_elem (x : Operation) (t : DeviceTree) :
  x ∈ operations t →
  ∃ i, ops_index x t = (Ok i, t) ∧ list_index x (operations t) = Some i.
Proof.
  intros Hin. destruct (list_index_elem x _ Hin) as [i Hi].
  exists i. unfold ops_index. rewrite Hi. done.
Qed.

Lemma ops_remove_elem (x : Operation) (t : DeviceTree) :
  NoDup (operations t) → x ∈ operations t →
  ops_remove x t
  = (Ok tt, set_operations (filter (λ y, y ∉ [x]) (operations t)) t).
Proof.
  intros Hnd Hin. unfold ops_remove.
  rewrite list_remove_first_NoDup by done.
  by rewrite filter_ne_not_elem_singleton.
Qed.

Lemma ops_remove_not_elem (x : Operation) (t : DeviceTree) :
  x ∉ operations t →
  ops_remove x t = (Raise (ValueError "list.remove(x): x not in list"), t).
Proof.
  intros Hin. unfold ops_remove. by rewrite list_remove_first_not_elem.
Qed.

(** What a pruning step does to the state: it drops the operations of a
    list [R] from the log and touches nothing else. *)
Local Abbreviation drops R t :=
  (Ok tt, set_operations (filter (λ o, o ∉ R) (operations t)) t).

Lemma drops_nil (t : DeviceTree) : (Ok tt, t) = drops [] t.
Proof. by rewrite filter_not_elem_nil, set_operations_id. Qed.

Lemma NoDup_drops (R : list Operation) (t : DeviceTree) :
  NoDup (operations t) →
  NoDup (operations (set_operations (filter (λ o, o ∉ R) (operations t)) t)).
Proof. intros. simpl. by apply NoDup_filter. Qed.

(** *** The two removal loops *)

Lemma remove_through_ok (dev_operations : list Operation) :
  ∀ (start : nat) (stop_operation : Operation) (t : DeviceTree),
    NoDup (operations t) → NoDup dev_operations →
    (∀ o, o ∈ dev_operations → o ∈ operations t) →
    stop_operation ∈ dev_operations →
    ∃ R : list Operation, remove_through start stop_operation dev_operations t = drops R t
         ∧ ∀ o, o ∈ R → o ∈ dev_operations.
Proof.
  induction dev_operations as [|rem rest IH];
    intros start stop t Hnd Hnd' Hsub Hstop; [inversion Hstop|].
  apply NoDup_cons in Hnd' as [Hrem Hrest].
  destruct (ops_index_elem stop t) as (e & He & _); [by apply Hsub|].
  destruct (ops_index_elem rem t) as (i & Hi & _); [apply Hsub; by left|].
  simpl. rewrite (bind_ok _ _ _ _ _ He), (bind_ok _ _ _ _ _ Hi).
  destruct ((start <=? i) && (i <=? e)) eqn:Hrange.
  - rewrite (bind_ok _ _ _ _ _ (ops_remove_elem rem t Hnd (Hsub _ (list_elem_of_here _ _)))).
    case_bool_decide as Hs.
    + exists [rem]. split; [reflexivity|]. intros o ->%list_elem_of_singleton. by left.
    + destruct (IH start stop (set_operations (filter (λ o, o ∉ [rem]) (operations t)) t))
        as (R & HR & HRsub).
      * by apply NoDup_drops.
      * done.
      * intros o Ho. simpl. apply list_elem_of_filter. split.
        -- intros ->%list_elem_of_singleton. done.
        -- apply Hsub. by right.
      * apply elem_of_cons in Hstop as [->|Hstop]; done.
      * exists ([rem] ++ R). split.
        -- rewrite HR. simpl. by rewrite filter_not_elem_app.
        -- intros o [->%list_elem_of_singleton|Ho]%elem_of_app; [by left|right; auto].
  - rewrite (bind_ok _ _ t t tt) by reflexivity.
    case_bool_decide as Hs.
    + exists []. split; [apply drops_nil|]. intros o Ho. inversion Ho.
    + destruct (IH start stop t) as (R & HR & HRsub); try done.
      * intros o Ho. apply Hsub. by right.
      * apply elem_of_cons in Hstop as [->|Hstop]; done.
      * exists R. split; [done|]. intros o Ho. right. auto.
Qed.

Lemma remove_before_ok (dev_operations : list Operation) :
  ∀ (start : nat) (stop_operation : Operation) (t : DeviceTree),
    NoDup (operations t) → NoDup dev_operations →
    (∀ o, o ∈ dev_operations → o ∈ operations t) →
    stop_operation ∈ dev_operations →
    ∃ R : list Operation, remove_before start stop_operation dev_operations t = drops R t
         ∧ ∀ o, o ∈ R → o ∈ dev_operations.
Proof.
  induction dev_operations as [|rem rest IH];
    intros start stop t Hnd Hnd' Hsub Hstop; [inversion Hstop|].
  apply NoDup_cons in Hnd' as [Hrem Hrest].
  simpl. case_bool_decide as Hs.
  { exists []. split; [apply drops_nil|]. intros o Ho. inversion Ho. }
  destruct (ops_index_elem stop t) as (e & He & _); [by apply Hsub|].
  destruct (ops_index_elem rem t) as (i & Hi & _); [apply Hsub; by left|].
  rewrite (bind_ok _ _ _ _ _ He), (bind_ok _ _ _ _ _ Hi).
  assert (Hstop' : stop ∈ rest) by (apply elem_of_cons in Hstop as [->|Hstop]; done).
  destruct ((start <=? i) && (i <? e)) eqn:Hrange.
  - rewrite (bind_ok _ _ _ _ _ (ops_remove_elem rem t Hnd (Hsub _ (list_elem_of_here _ _)))).
    destruct (IH start stop (set_operations (filter (λ o, o ∉ [rem]) (operations t)) t))
      as (R & HR & HRsub); try done.
    + by apply NoDup_drops.
    + intros o Ho. simpl. apply list_elem_of_filter. split.
      * intros ->%list_elem_of_singleton. done.
      * apply Hsub. by right.
    + exists ([rem] ++ R). split.
      * rewrite HR. simpl. by rewrite filter_not_elem_app.
      * intros o [->%list_elem_of_singleton|Ho]%elem_of_app; [by left|right; auto].
  - rewrite (bind_ok _ _ t t tt) by reflexivity.
    destruct (IH start stop t) as (R & HR & HRsub); try done.
    + intros o Ho. apply Hsub. by right.
    + exists R. split; [done|]. intros o Ho. right. auto.
Qed.

(** *** findOperations as used by the pruning passes *)

Ltac kinds :=
  unfold of_kind, passes in *;
  repeat match goal with
         | H : ∃ _, _ |- _ => destruct H
         | H : _ ∧ _ |- _ => destruct H
         end;
  simpl in *; subst; repeat split; eauto; congruence.

Lemma op_matches_iff (h : gmap nat Device) ty ob devid (o : Operation) :
  op_matches h None ty ob None devid o
  ↔ passes ty (op_type o) ∧ passes ob (op_obj o) ∧ passes devid (op_device o).
Proof.
  unfold op_matches, passes.
  destruct ty, ob, devid; simpl; rewrite ?andb_True, ?bool_decide_spec;
    cbv [Is_true]; tauto.
Qed.

Lemma findOperations_elem ty ob devid (t : DeviceTree) (ops : list Operation) (o : Operation) :
  findOperations None ty ob None devid t = (Ok ops, t) →
  o ∈ ops ↔ o ∈ operations t
            ∧ passes ty (op_type o) ∧ passes ob (op_obj o) ∧ passes devid (op_device o).
Proof.
  intros H. destruct ty, ob, devid; simpl in H; injection H as <-;
    rewrite ?list_elem_of_filter, ?op_matches_iff; simpl; tauto.
Qed.

(** [findOperations] returns normally, leaves the state alone, and yields a
    sub-list of the log. *)
Lemma findOperations_run ty ob devid (t : DeviceTree) :
  ∃ ops, findOperations None ty ob None devid t = (Ok ops, t)
         ∧ (NoDup (operations t) → NoDup ops).
Proof.
  destruct ty, ob, devid; simpl; eexists; (split; [reflexivity|]);
    intros; try by apply NoDup_filter. done.
Qed.

Lemma list_last_run {S A} (l : list A) (x : A) (s : S) :
  last l = Some x → list_last l s = (Ok x, s).
Proof. intros H. unfold list_last. by rewrite H. Qed.

Lemma last_elem_of {A} (l : list A) (x : A) : x ∈ l → is_Some (last l).
Proof. intros H. apply last_is_Some. intros ->. inversion H. Qed.

(** *** Start and stop of the lifecycle passes *)

Lemma destroy_range_ok (object : OpObj) (a : Operation) (t : DeviceTree) :
  a ∈ operations t → op_type a = Destroy → op_obj a = object →
  ∃ range, destroy_range object a t = (Ok range, t)
    ∧ ∀ start stop, range = Some (start, stop) →
        stop ∈ operations t ∧ op_device stop = op_device a ∧ op_obj stop = object
        ∧ op_type stop = Destroy.
Proof.
  intros Hin Hty Hob. unfold destroy_range.
  destruct (findOperations_run (Some Destroy) (Some object) (Some (op_device a)) t)
    as (destroys & Hd & _).
  destruct (findOperations_run (Some Create) (Some object) (Some (op_device a)) t)
    as (creates & Hc & _).
  rewrite (bind_ok _ _ _ _ _ Hd), (bind_ok _ _ _ _ _ Hc).
  pose proof (findOperations_elem _ _ _ _ _ a Hd) as Ha.
  assert (Hain : a ∈ destroys) by (apply Ha; kinds).
  destruct (last_elem_of _ _ Hain) as [dl Hdl].
  assert (Hdl' : dl ∈ operations t ∧ op_device dl = op_device a ∧ op_obj dl = object
                 ∧ op_type dl = Destroy).
  { apply last_Some_elem_of in Hdl.
    apply (findOperations_elem _ _ _ _ _ dl Hd) in Hdl. kinds. }
  destruct (ops_index_elem a t Hin) as (ia & Hia & _).
  assert (Hfirst : ∃ loops fdi range,
    (if bool_decide (1 < length destroys) then
       d0 ← list_first destroys;
       first_destroy_idx ← ops_index d0;
       ia ← ops_index a;
       stop_operation ← list_last destroys;
       mret (destroys, first_destroy_idx, Some (ia + 1, stop_operation))
     else mret ([], 0, None)) t = (Ok (loops, fdi, range), t)
    ∧ (range = None ∨ ∃ start, range = Some (start, dl))).
  { case_bool_decide.
    - destruct destroys as [|d0 destroys']; [inversion Hain|].
      assert (Hd0 : d0 ∈ operations t).
      { apply (findOperations_elem _ _ _ _ _ d0 Hd). by left. }
      destruct (ops_index_elem d0 t Hd0) as (i0 & Hi0 & _).
      simpl list_first. rewrite (bind_ok _ _ t t d0) by reflexivity.
      rewrite (bind_ok _ _ _ _ _ Hi0), (bind_ok _ _ _ _ _ Hia).
      rewrite (bind_ok _ _ _ _ _ (list_last_run _ _ t Hdl)).
      eexists _, _, _. split; [reflexivity|]. right. eauto.
    - eexists _, _, _. split; [reflexivity|]. by left. }
  destruct Hfirst as (loops & fdi & range & Hrun & Hrange).
  rewrite (bind_ok _ _ _ _ _ Hrun). simpl.
  destruct creates as [|c0 creates'].
  - eexists. split; [reflexivity|]. intros start stop ->.
    destruct Hrange as [?|[? [= _ <-]]]; done.
  - assert (Hc0 : c0 ∈ operations t).
    { apply (findOperations_elem _ _ _ _ _ c0 Hc). by left. }
    destruct (ops_index_elem c0 t Hc0) as (ic & Hic & _).
    rewrite (bind_ok _ _ _ _ _ Hic).
    destruct (bool_decide (loops = []) || (ic <? fdi)).
    + rewrite (bind_ok _ _ _ _ _ (list_last_run _ _ t Hdl)).
      eexists. split; [reflexivity|]. by intros start stop [= _ <-].
    + eexists. split; [reflexivity|]. intros start stop ->.
      destruct Hrange as [?|[? [= _ <-]]]; done.
Qed.

Lemma create_range_ok (object : OpObj) (a : Operation) (t : DeviceTree) :
  a ∈ operations t → op_type a = Create → op_obj a = object →
  ∃ range, create_range object a t = (Ok range, t)
    ∧ ∀ start stop, range = Some (start, stop) →
        stop ∈ operations t ∧ op_device stop = op_device a ∧ op_obj stop = object
        ∧ op_type stop = Create.
Proof.
  intros Hin Hty Hob. unfold create_range.
  destruct (findOperations_run (Some Create) (Some object) (Some (op_device a)) t)
    as (creates & Hc & _).
  destruct (findOperations_run (Some Destroy) (Some object) (Some (op_device a)) t)
    as (destroys & Hd & _).
  rewrite (bind_ok _ _ _ _ _ Hc), (bind_ok _ _ _ _ _ Hd).
  pose proof (findOperations_elem _ _ _ _ _ a Hc) as Ha.
  assert (Hain : a ∈ creates) by (apply Ha; kinds).
  destruct (last_elem_of _ _ Hain) as [cl Hcl].
  assert (Hcl' : cl ∈ operations t ∧ op_device cl = op_device a ∧ op_obj cl = object
                 ∧ op_type cl = Create).
  { apply last_Some_elem_of in Hcl.
    apply (findOperations_elem _ _ _ _ _ cl Hc) in Hcl. kinds. }
  assert (Hfirst : ∃ loops fci range,
    (if bool_decide (1 < length creates) then
       c0 ← list_first creates;
       first_create_idx ← ops_index c0;
       stop_operation ← list_last creates;
       mret (creates, first_create_idx, Some (0, stop_operation))
     else mret ([], 0, None)) t = (Ok (loops, fci, range), t)
    ∧ (range = None ∨ ∃ start, range = Some (start, cl))).
  { case_bool_decide.
    - destruct creates as [|c0 creates']; [inversion Hain|].
      assert (Hc0 : c0 ∈ operations t).
      { apply (findOperations_elem _ _ _ _ _ c0 Hc). by left. }
      destruct (ops_index_elem c0 t Hc0) as (i0 & Hi0 & _).
      simpl list_first. rewrite (bind_ok _ _ t t c0) by reflexivity.
      rewrite (bind_ok _ _ _ _ _ Hi0).
      rewrite (bind_ok _ _ _ _ _ (list_last_run _ _ t Hcl)).
      eexists _, _, _. split; [reflexivity|]. right. eauto.
    - eexists _, _, _. split; [reflexivity|]. by left. }
  destruct Hfirst as (loops & fci & range & Hrun & Hrange).
  rewrite (bind_ok _ _ _ _ _ Hrun). simpl.
  destruct destroys as [|d0 destroys'].
  - eexists. split; [reflexivity|]. intros start stop ->.
    destruct Hrange as [?|[? [= _ <-]]]; done.
  - assert (Hd0 : d0 ∈ operations t).
    { apply (findOperations_elem _ _ _ _ _ d0 Hd). by left. }
    destruct (ops_index_elem d0 t Hd0) as (id & Hid & _).
    rewrite (bind_ok _ _ _ _ _ Hid).
    destruct (bool_decide (loops = []) || (id <? fci)).
    + rewrite (bind_ok _ _ _ _ _ (list_last_run _ _ t Hcl)).
      eexists. split; [reflexivity|]. by intros start stop [= _ <-].
    + eexists. split; [reflexivity|]. intros start stop ->.
      destruct Hrange as [?|[? [= _ <-]]]; done.
Qed.

(** *** The bodies of the seven loops *)

Lemma ops_contains_run (a : Operation) (t : DeviceTree) :
  ops_contains a t = (Ok (bool_decide (a ∈ operations t)), t).
Proof. reflexivity. Qed.

Lemma for_each_ops_remove (R : list Operation) :
  ∀ t, NoDup (operations t) → NoDup R → (∀ o, o ∈ R → o ∈ operations t) →
       for_each R ops_remove t = drops R t.
Proof.
  induction R as [|x R IH]; intros t Hnd HR Hsub; simpl.
  - apply drops_nil.
  - apply NoDup_cons in HR as [Hx HR].
    unfold bind. rewrite ops_remove_elem by (try done; apply Hsub; by left).
    rewrite IH.
    + simpl. by rewrite (filter_not_elem_app [x] R).
    + by apply NoDup_drops.
    + done.
    + intros o Ho. simpl. apply list_elem_of_filter. split.
      * intros ->%list_elem_of_singleton. done.
      * apply Hsub. by right.
Qed.

Lemma NoDup_removelast {A} (l : list A) : NoDup l → NoDup (removelast l).
Proof.
  intros Hnd. destruct (last l) as [x|] eqn:E.
  - apply removelast_snoc_last in E. rewrite E in Hnd.
    by apply NoDup_app in Hnd as (? & _ & _).
  - apply last_None in E as ->. constructor.
Qed.

Lemma elem_of_removelast {A} (l : list A) (x : A) : x ∈ removelast l → x ∈ l.
Proof.
  destruct (last l) as [y|] eqn:E.
  - apply removelast_snoc_last in E. intros H. rewrite E. apply elem_of_app. by left.
  - apply last_None in E as ->. done.
Qed.

(** The resize and migrate loops drop all but the last operation of the
    kind on the device of [a]. *)
Lemma prune_keep_last_run (type : OpType) (object : OpObj) (a : Operation) (t : DeviceTree) :
  NoDup (operations t) →
  prune_keep_last type object a t
  = drops (if bool_decide (a ∈ operations t)
           then removelast (filter (λ o, op_matches (heap t) None (Some type) (Some object)
                                                    None (Some (op_device a)) o)
                                   (operations t))
           else []) t.
Proof.
  intros Hnd. unfold prune_keep_last.
  rewrite (bind_ok _ _ _ _ _ (ops_contains_run a t)).
  case_bool_decide as Hin; simpl; [|apply drops_nil].
  rewrite (bind_ok _ _ t t (filter (λ o, op_matches (heap t) None (Some type) (Some object)
                                       None (Some (op_device a)) o) (operations t)))
    by reflexivity.
  set (loops := filter _ _).
  case_bool_decide as Hlen.
  - destruct loops as [|x [|y loops']]; simpl in Hlen; try discriminate.
    simpl. apply drops_nil.
  - apply for_each_ops_remove; [done| |].
    + apply NoDup_removelast. by apply NoDup_filter.
    + intros o Ho%elem_of_removelast. by apply list_elem_of_filter in Ho as [_ ?].
Qed.

Lemma prune_destroy_device_ok (a : Operation) (t : DeviceTree) :
  NoDup (operations t) → op_type a = Destroy → op_obj a = ObjDevice →
  ∃ R : list Operation,
    prune_destroy_device a t = drops R t ∧ ∀ o, o ∈ R → op_device o = op_device a.
Proof.
  intros Hnd Hty Hob. unfold prune_destroy_device.
  rewrite (bind_ok _ _ _ _ _ (ops_contains_run a t)).
  case_bool_decide as Hin; simpl.
  2:{ exists []. split; [apply drops_nil|]. intros o Ho. inversion Ho. }
  destruct (destroy_range_ok ObjDevice a t Hin Hty Hob) as (range & Hr & Hstop).
  rewrite (bind_ok _ _ _ _ _ Hr).
  destruct (findOperations_run None None (Some (op_device a)) t) as (dev_ops & Hd & Hdnd).
  rewrite (bind_ok _ _ _ _ _ Hd).
  pose proof (λ o, findOperations_elem _ _ _ _ _ o Hd) as Hdev.
  destruct range as [[start stop]|].
  - destruct (Hstop start stop eq_refl) as (Hs1 & Hs2 & _).
    destruct (remove_through_ok dev_ops start stop t) as (R & HR & HRsub); try done.
    + by apply Hdnd.
    + intros o Ho. by apply Hdev in Ho as [? _].
    + apply Hdev. kinds.
    + exists R. split; [done|]. intros o Ho%HRsub%Hdev. kinds.
  - set (kept := filter _ dev_ops).
    assert (Hkept : ∀ o, o ∈ kept → o ∈ dev_ops).
    { intros o Ho. by apply list_elem_of_filter in Ho as [_ ?]. }
    destruct kept as [|o0 kept'] eqn:E.
    { exists []. split; [apply drops_nil|]. intros o Ho. inversion Ho. }
    rewrite <- E in *.
    assert (Ho0 : o0 ∈ kept) by (rewrite E; by left).
    destruct (ops_index_elem o0 t) as (i0 & Hi0 & _).
    { by apply Hkept, Hdev in Ho0 as [? _]. }
    rewrite (bind_ok _ _ _ _ _ Hi0).
    destruct (last_elem_of _ _ Ho0) as [ol Hol].
    rewrite (bind_ok _ _ _ _ _ (list_last_run _ _ t Hol)).
    destruct (remove_through_ok kept i0 ol t) as (R & HR & HRsub); try done.
    + subst kept. apply NoDup_filter. by apply Hdnd.
    + intros o Ho. by apply Hkept, Hdev in Ho as [? _].
    + by apply last_Some_elem_of.
    + exists R. split; [done|]. intros o Ho%HRsub%Hkept%Hdev. kinds.
Qed.

Lemma prune_destroy_format_ok (a : Operation) (t : DeviceTree) :
  NoDup (operations t) → op_type a = Destroy → op_obj a = ObjFormat →
  ∃ R : list Operation,
    prune_destroy_format a t = drops R t
    ∧ ∀ o, o ∈ R → op_device o = op_device a ∧ op_obj o = ObjFormat.
Proof.
  intros Hnd Hty Hob. unfold prune_destroy_format.
  rewrite (bind_ok _ _ _ _ _ (ops_contains_run a t)).
  case_bool_decide as Hin; simpl.
  2:{ exists []. split; [apply drops_nil|]. intros o Ho. inversion Ho. }
  destruct (destroy_range_ok ObjFormat a t Hin Hty Hob) as (range & Hr & Hstop).
  rewrite (bind_ok _ _ _ _ _ Hr).
  destruct range as [[start stop]|].
  2:{ exists []. split; [apply drops_nil|]. intros o Ho. inversion Ho. }
  destruct (findOperations_run None (Some ObjFormat) (Some (op_device a)) t)
    as (dev_ops & Hd & Hdnd).
  rewrite (bind_ok _ _ _ _ _ Hd).
  pose proof (λ o, findOperations_elem _ _ _ _ _ o Hd) as Hdev.
  destruct (Hstop start stop eq_refl) as (Hs1 & Hs2 & Hs3).
  destruct (remove_through_ok dev_ops start stop t) as (R & HR & HRsub); try done.
  - by apply Hdnd.
  - intros o Ho. by apply Hdev in Ho as [? _].
  - apply Hdev. kinds.
  - exists R. split; [done|]. intros o Ho%HRsub%Hdev. kinds.
Qed.

Lemma prune_create_device_ok (a : Operation) (t : DeviceTree) :
  NoDup (operations t) → op_type a = Create → op_obj a = ObjDevice →
  ∃ R : list Operation,
    prune_create_device a t = drops R t ∧ ∀ o, o ∈ R → op_device o = op_device a.
Proof.
  intros Hnd Hty Hob. unfold prune_create_device.
  rewrite (bind_ok _ _ _ _ _ (ops_contains_run a t)).
  case_bool_decide as Hin; simpl.
  2:{ exists []. split; [apply drops_nil|]. intros o Ho. inversion Ho. }
  destruct (create_range_ok ObjDevice a t Hin Hty Hob) as (range & Hr & Hstop).
  rewrite (bind_ok _ _ _ _ _ Hr).
  destruct range as [[start stop]|].
  2:{ exists []. split; [apply drops_nil|]. intros o Ho. inversion Ho. }
  destruct (findOperations_run None None (Some (op_device a)) t) as (dev_ops & Hd & Hdnd).
  rewrite (bind_ok _ _ _ _ _ Hd).
  pose proof (λ o, findOperations_elem _ _ _ _ _ o Hd) as Hdev.
  destruct (Hstop start stop eq_refl) as (Hs1 & Hs2 & _).
  destruct (remove_before_ok dev_ops start stop t) as (R & HR & HRsub); try done.
  - by apply Hdnd.
  - intros o Ho. by apply Hdev in Ho as [? _].
  - apply Hdev. kinds.
  - exists R. split; [done|]. intros o Ho%HRsub%Hdev. kinds.
Qed.

Lemma prune_create_format_ok (a : Operation) (t : DeviceTree) :
  NoDup (operations t) → op_type a = Create → op_obj a = ObjFormat →
  ∃ R : list Operation,
    prune_create_format a t = drops R t
    ∧ ∀ o, o ∈ R → op_device o = op_device a ∧ op_obj o = ObjFormat.
Proof.
  intros Hnd Hty Hob. unfold prune_create_format.
  rewrite (bind_ok _ _ _ _ _ (ops_contains_run a t)).
  case_bool_decide as Hin; simpl.
  2:{ exists []. split; [apply drops_nil|]. intros o Ho. inversion Ho. }
  destruct (create_range_ok ObjFormat a t Hin Hty Hob) as (range & Hr & Hstop).
  rewrite (bind_ok _ _ _ _ _ Hr).
  destruct range as [[start stop]|].
  2:{ exists []. split; [apply drops_nil|]. intros o Ho. inversion Ho. }
  destruct (findOperations_run None (Some ObjFormat) (Some (op_device a)) t)
    as (dev_ops & Hd & Hdnd).
  rewrite (bind_ok _ _ _ _ _ Hd).
  pose proof (λ o, findOperations_elem _ _ _ _ _ o Hd) as Hdev.
  destruct (Hstop start stop eq_refl) as (Hs1 & Hs2 & Hs3).
  destruct (remove_before_ok dev_ops start stop t) as (R & HR & HRsub); try done.
  - by apply Hdnd.
  - intros o Ho. by apply Hdev in Ho as [? _].
  - apply Hdev. kinds.
  - exists R. split; [done|]. intros o Ho%HRsub%Hdev. kinds.
Qed.

(** *** Loops over the operations of a kind *)

Lemma for_each_app {S A} (body : A → M S unit) (l1 l2 : list A) (s : S) :
  for_each (l1 ++ l2) body s
  = match for_each l1 body s with
    | (Ok _, s') => for_each l2 body s'
    | (Raise e, s') => (Raise e, s')
    end.
Proof.
  revert s. induction l1 as [|x l1 IH]; intros s; simpl; [reflexivity|].
  unfold bind. destruct (body x s) as [[[]|e] s']; [apply IH|reflexivity].
Qed.

Lemma drops_twice (R1 R2 : list Operation) (t : DeviceTree) :
  drops R2 (set_operations (filter (λ o, o ∉ R1) (operations t)) t)
  = drops (R1 ++ R2) t.
Proof. simpl. by rewrite filter_not_elem_app. Qed.

(** When every round drops operations related to the one it visits, the
    loop returns normally and has dropped operations related to some
    visited one. *)
Lemma for_each_drops (body : Operation → M DeviceTree unit)
    (pre : Operation → Prop) (same : Operation → Operation → Prop) :
  (∀ a t, NoDup (operations t) → pre a →
     ∃ R : list Operation, body a t = drops R t ∧ ∀ o, o ∈ R → same a o) →
  ∀ l t, NoDup (operations t) → (∀ a, a ∈ l → pre a) →
     ∃ R : list Operation,
       for_each l body t = drops R t ∧ ∀ o, o ∈ R → ∃ a, a ∈ l ∧ same a o.
Proof.
  intros Hbody. induction l as [|x l IH]; intros t Hnd Hpre; simpl.
  - exists []. split; [apply drops_nil|]. intros o Ho. inversion Ho.
  - destruct (Hbody x t Hnd) as (R1 & H1 & Hs1); [apply Hpre; by left|].
    unfold bind. rewrite H1.
    destruct (IH (set_operations (filter (λ o, o ∉ R1) (operations t)) t))
      as (R2 & H2 & Hs2).
    + by apply NoDup_drops.
    + intros a Ha. apply Hpre. by right.
    + exists (R1 ++ R2). split.
      * rewrite H2. apply drops_twice.
      * intros o [Ho|Ho]%elem_of_app.
        -- exists x. split; [by left|auto].
        -- destruct (Hs2 o Ho) as (a & Ha & Hsame). exists a. split; [by right|done].
Qed.

Lemma prune_pass_drops (type : OpType) (object : OpObj)
    (body : Operation → M DeviceTree unit) (same : Operation → Operation → Prop) :
  (∀ a t, NoDup (operations t) → op_type a = type ∧ op_obj a = object →
     ∃ R : list Operation, body a t = drops R t ∧ ∀ o, o ∈ R → same a o) →
  ∀ t, NoDup (operations t) →
     ∃ R : list Operation,
       prune_pass type object body t = drops R t
       ∧ ∀ o, o ∈ R → ∃ a, a ∈ operations t ∧ op_type a = type
                             ∧ op_obj a = object ∧ same a o.
Proof.
  intros Hbody t Hnd. unfold prune_pass.
  destruct (findOperations_run (Some type) (Some object) None t) as (ops & Hops & _).
  rewrite (bind_ok _ _ _ _ _ Hops).
  pose proof (λ o, findOperations_elem _ _ _ _ _ o Hops) as Hsel.
  destruct (for_each_drops body _ same Hbody ops t Hnd) as (R & HR & Hsame).
  - intros a Ha%Hsel. kinds.
  - exists R. split; [done|]. intros o Ho.
    destruct (Hsame o Ho) as (a & Ha%Hsel & Hs). exists a. kinds.
Qed.

Lemma prune_keep_last_ok (type : OpType) (object : OpObj) (a : Operation) (t : DeviceTree) :
  NoDup (operations t) →
  ∃ R : list Operation,
    prune_keep_last type object a t = drops R t
    ∧ ∀ o, o ∈ R → op_device o = op_device a ∧ op_type o = type ∧ op_obj o = object.
Proof.
  intros Hnd. eexists. split; [by apply prune_keep_last_run|].
  intros o Ho. case_bool_decide; [|inversion Ho].
  apply elem_of_removelast, list_elem_of_filter in Ho as [Ho _].
  apply op_matches_iff in Ho. kinds.
Qed.

(** What each of the seven passes may drop: operations on the device of
    some operation of the kind the pass visits. *)
Lemma destroy_device_pass_ok (t : DeviceTree) :
  NoDup (operations t) →
  ∃ R : list Operation,
    prune_pass Destroy ObjDevice prune_destroy_device t = drops R t
    ∧ ∀ o, o ∈ R → ∃ a, a ∈ operations t ∧ op_type a = Destroy ∧ op_obj a = ObjDevice
                          ∧ op_device o = op_device a.
Proof.
  apply (prune_pass_drops _ _ _ (λ a o, op_device o = op_device a)).
  intros a t' Hnd [? ?]. by apply prune_destroy_device_ok.
Qed.

Lemma create_device_pass_ok (t : DeviceTree) :
  NoDup (operations t) →
  ∃ R : list Operation,
    prune_pass Create ObjDevice prune_create_device t = drops R t
    ∧ ∀ o, o ∈ R → ∃ a, a ∈ operations t ∧ op_type a = Create ∧ op_obj a = ObjDevice
                          ∧ op_device o = op_device a.
Proof.
  apply (prune_pass_drops _ _ _ (λ a o, op_device o = op_device a)).
  intros a t' Hnd [? ?]. by apply prune_create_device_ok.
Qed.

Lemma destroy_format_pass_ok (t : DeviceTree) :
  NoDup (operations t) →
  ∃ R : list Operation,
    prune_pass Destroy ObjFormat prune_destroy_format t = drops R t
    ∧ ∀ o, o ∈ R → ∃ a, a ∈ operations t ∧ op_type a = Destroy ∧ op_obj a = ObjFormat
                          ∧ op_device o = op_device a ∧ op_obj o = ObjFormat.
Proof.
  apply (prune_pass_drops _ _ _ (λ a o, op_device o = op_device a ∧ op_obj o = ObjFormat)).
  intros a t' Hnd [? ?]. by apply prune_destroy_format_ok.
Qed.

Lemma create_format_pass_ok (t : DeviceTree) :
  NoDup (operations t) →
  ∃ R : list Operation,
    prune_pass Create ObjFormat prune_create_format t = drops R t
    ∧ ∀ o, o ∈ R → ∃ a, a ∈ operations t ∧ op_type a = Create ∧ op_obj a = ObjFormat
                          ∧ op_device o = op_device a ∧ op_obj o = ObjFormat.
Proof.
  apply (prune_pass_drops _ _ _ (λ a o, op_device o = op_device a ∧ op_obj o = ObjFormat)).
  intros a t' Hnd [? ?]. by apply prune_create_format_ok.
Qed.

Lemma keep_last_pass_ok (type : OpType) (object : OpObj) (t : DeviceTree) :
  NoDup (operations t) →
  ∃ R : list Operation,
    prune_pass type object (prune_keep_last type object) t = drops R t
    ∧ ∀ o, o ∈ R → op_type o = type ∧ op_obj o = object.
Proof.
  intros Hnd.
  destruct (prune_pass_drops type object (prune_keep_last type object)
              (λ a o, op_device o = op_device a ∧ op_type o = type ∧ op_obj o = object))
    with (t := t) as (R & HR & Hsame); [|done|].
  - intros a t' Hnd' _. by apply prune_keep_last_ok.
  - exists R. split; [done|]. intros o Ho. destruct (Hsame o Ho) as (a & ?). kinds.
Qed.

(** Pruning a log of distinct operations returns normally; it drops
    operations from the log and changes nothing else. *)
Lemma pruneOperations_drops (t : DeviceTree) :
  NoDup (operations t) →
  ∃ R : list Operation, pruneOperations t = drops R t.
Proof.
  intros Hnd. unfold pruneOperations.
  destruct (destroy_device_pass_ok t Hnd) as (R1 & H1 & _).
  rewrite (bind_ok _ _ _ _ _ H1).
  pose proof (NoDup_drops R1 t Hnd) as Hnd1.
  destruct (create_device_pass_ok _ Hnd1) as (R2 & H2 & _).
  rewrite (bind_ok _ _ _ _ _ H2). rewrite set_operations_twice.
  pose proof (NoDup_drops R2 _ Hnd1) as Hnd2. rewrite set_operations_twice in Hnd2.
  destruct (keep_last_pass_ok Resize ObjDevice _ Hnd2) as (R3 & H3 & _).
  rewrite (bind_ok _ _ _ _ _ H3). rewrite set_operations_twice.
  pose proof (NoDup_drops R3 _ Hnd2) as Hnd3. rewrite set_operations_twice in Hnd3.
  destruct (destroy_format_pass_ok _ Hnd3) as (R4 & H4 & _).
  rewrite (bind_ok _ _ _ _ _ H4). rewrite set_operations_twice.
  pose proof (NoDup_drops R4 _ Hnd3) as Hnd4. rewrite set_operations_twice in Hnd4.
  destruct (create_format_pass_ok _ Hnd4) as (R5 & H5 & _).
  rewrite (bind_ok _ _ _ _ _ H5). rewrite set_operations_twice.
  pose proof (NoDup_drops R5 _ Hnd4) as Hnd5. rewrite set_operations_twice in Hnd5.
  destruct (keep_last_pass_ok Resize ObjFormat _ Hnd5) as (R6 & H6 & _).
  rewrite (bind_ok _ _ _ _ _ H6). rewrite set_operations_twice.
  pose proof (NoDup_drops R6 _ Hnd5) as Hnd6. rewrite set_operations_twice in Hnd6.
  destruct (keep_last_pass_ok Migrate ObjFormat _ Hnd6) as (R7 & H7 & _).
  rewrite H7. rewrite set_operations_twice. simpl.
  eexists. rewrite !filter_not_elem_app. reflexivity.
Qed.

(** *** Composing passes *)

Lemma prunes_seq (P Q Q' : list Operation → Prop) (m1 m2 : M DeviceTree unit) :
  prunes P m1 Q → prunes Q m2 Q' → prunes P (m1 ;; m2) Q'.
Proof.
  intros H1 H2 t Hnd HP.
  destruct (H1 t Hnd HP) as (R1 & E1 & HQ).
  destruct (H2 (set_operations (filter (λ o, o ∉ R1) (operations t)) t))
    as (R2 & E2 & HQ'); [by apply NoDup_drops|done|].
  exists (R1 ++ R2). rewrite (bind_ok _ _ _ _ _ E1), E2. simpl in *.
  rewrite filter_not_elem_app in *. done.
Qed.

(** A pass that only drops operations keeps whatever holds of every
    sub-log. *)
Lemma prunes_sublog (P : list Operation → Prop) (m : M DeviceTree unit) :
  (∀ l (R : list Operation), P l → P (filter (λ o, o ∉ R) l)) →
  (∀ t, NoDup (operations t) → ∃ R : list Operation, m t = drops R t) →
  prunes P m P.
Proof.
  intros Hsub Hm t Hnd HP. destruct (Hm t Hnd) as (R & E).
  exists R. split; [done|]. by apply Hsub.
Qed.

(** A pass that drops no operation of the kind [K] leaves the operations
    of that kind as they are. *)
Lemma prunes_frame (P : list Operation → Prop) (K : Operation → Prop)
    `{∀ o, Decision (K o)} (c : list Operation) (m : M DeviceTree unit) :
  (∀ l (R : list Operation), P l → P (filter (λ o, o ∉ R) l)) →
  (∀ t, NoDup (operations t) → P (operations t) →
     ∃ R : list Operation, m t = drops R t ∧ ∀ o, o ∈ R → ¬ K o) →
  prunes (λ l, P l ∧ filter K l = c) m (λ l, P l ∧ filter K l = c).
Proof.
  intros Hsub Hm t Hnd [HP Hc]. destruct (Hm t Hnd HP) as (R & E & HR).
  exists R. split; [done|]. split; [by apply Hsub|].
  by rewrite filter_filter_not_elem.
Qed.

Lemma untouched_sublog (X : nat) (l R : list Operation) :
  untouched X l → untouched X (filter (λ o, o ∉ R) l).
Proof. intros H o Ho%list_elem_of_filter. apply H. tauto. Qed.

Lemma no_lifecycle_sublog (X : nat) (l R : list Operation) :
  no_lifecycle X l → no_lifecycle X (filter (λ o, o ∉ R) l).
Proof. intros H o Ho%list_elem_of_filter. apply H. tauto. Qed.

(** The six passes that follow the device-destroy pass. *)
Local Abbreviation later_passes :=
  (prune_pass Create ObjDevice prune_create_device ;;
   prune_pass Resize ObjDevice (prune_keep_last Resize ObjDevice) ;;
   prune_pass Destroy ObjFormat prune_destroy_format ;;
   prune_pass Create ObjFormat prune_create_format ;;
   prune_pass Resize ObjFormat (prune_keep_last Resize ObjFormat) ;;
   prune_pass Migrate ObjFormat (prune_keep_last Migrate ObjFormat)).

Lemma later_passes_sublog (P : list Operation → Prop) :
  (∀ l (R : list Operation), P l → P (filter (λ o, o ∉ R) l)) →
  prunes P later_passes P.
Proof.
  intros Hsub.
  apply (prunes_seq P P P).
  { apply prunes_sublog; [done|]. intros t Hnd.
    destruct (create_device_pass_ok t Hnd) as (R & ? & _). eauto. }
  apply (prunes_seq P P P).
  { apply prunes_sublog; [done|]. intros t Hnd.
    destruct (keep_last_pass_ok Resize ObjDevice t Hnd) as (R & ? & _). eauto. }
  apply (prunes_seq P P P).
  { apply prunes_sublog; [done|]. intros t Hnd.
    destruct (destroy_format_pass_ok t Hnd) as (R & ? & _). eauto. }
  apply (prunes_seq P P P).
  { apply prunes_sublog; [done|]. intros t Hnd.
    destruct (create_format_pass_ok t Hnd) as (R & ? & _). eauto. }
  apply (prunes_seq P P P).
  { apply prunes_sublog; [done|]. intros t Hnd.
    destruct (keep_last_pass_ok Resize ObjFormat t Hnd) as (R & ? & _). eauto. }
  apply prunes_sublog; [done|]. intros t Hnd.
  destruct (keep_last_pass_ok Migrate ObjFormat t Hnd) as (R & ? & _). eauto.
Qed.

(** *** The removal loop that removes everything it visits *)

Lemma list_index_app_ge {A} `{EqDecision A} (x : A) (pre l : list A) (j : nat) :
  x ∉ pre → list_index x (pre ++ l) = Some j → length pre ≤ j.
Proof.
  revert j. induction pre as [|y pre IH]; intros j Hx Hj; simpl; [lia|].
  apply not_elem_of_cons in Hx as [Hne Hx].
  simpl in Hj. rewrite list_index_cons, decide_False in Hj by done.
  destruct (list_index x (pre ++ l)) as [j'|] eqn:E; [|done].
  injection Hj as <-. specialize (IH j' Hx eq_refl). lia.
Qed.

Lemma filter_not_elem_middle {A} `{EqDecision A} (x : A) (l1 l2 : list A) :
  NoDup (l1 ++ x :: l2) → filter (λ y, y ∉ [x]) (l1 ++ x :: l2) = l1 ++ l2.
Proof.
  intros Hnd. apply NoDup_app in Hnd as (_ & Hdis & [Hx _]%NoDup_cons).
  rewrite filter_app, filter_cons_False
    by (intros Hc; apply Hc; by apply list_elem_of_singleton).
  rewrite <- !filter_ne_not_elem_singleton.
  rewrite !filter_ne_not_elem; [done|done|].
  intros Hin. apply (Hdis x Hin). left.
Qed.

(** The removal loop started at the first of the operations it visits
    and stopped at the last of them removes them all. *)
Lemma remove_through_all (rest : list Operation) :
  ∀ (pre L : list Operation) (t : DeviceTree) (stop : Operation),
    operations t = pre ++ L → NoDup (operations t) →
    rest `sublist_of` L → last rest = Some stop →
    remove_through (length pre) stop rest t = drops rest t.
Proof.
  induction rest as [|rem rest IH]; intros pre L t stop Hops Hnd Hsub Hlast; [done|].
  pose proof (sublist_NoDup _ _ (proj2 (proj2 (proj1 (NoDup_app _ _)
                (eq_ind _ NoDup Hnd _ Hops)))) Hsub) as Hndr.
  apply NoDup_cons in Hndr as [Hrem Hndr].
  pose proof (last_Some_elem_of _ _ Hlast) as Hstop.
  apply sublist_cons_l in Hsub as (L1 & L2 & -> & Hsub).
  assert (Hstop2 : stop ∈ rem :: L2).
  { apply elem_of_cons in Hstop as [->|Hstop]; [left|right].
    by apply (elem_of_sublist _ _ _ Hstop). }
  rewrite Hops in Hnd. rewrite app_assoc in Hnd, Hops.
  pose proof Hnd as (_ & Hdis & _)%NoDup_app.
  assert (Hrem1 : rem ∉ pre ++ L1).
  { intros Hin. apply (Hdis rem Hin). left. }
  assert (Hstop1 : stop ∉ pre ++ L1).
  { intros Hin. by apply (Hdis stop Hin). }
  assert (Hrem_in : rem ∈ operations t).
  { rewrite Hops. apply elem_of_app. right. left. }
  destruct (ops_index_elem stop t) as (e & He & Hei).
  { rewrite Hops. apply elem_of_app. by right. }
  assert (Hi : ops_index rem t = (Ok (length (pre ++ L1)), t)).
  { unfold ops_index. by rewrite Hops, list_index_app_fresh. }
  assert (Hle : length (pre ++ L1) ≤ e).
  { rewrite Hops in Hei. by apply (list_index_app_ge stop _ _ _ Hstop1 Hei). }
  simpl. rewrite (bind_ok _ _ _ _ _ He), (bind_ok _ _ _ _ _ Hi).
  replace ((length pre <=? length (pre ++ L1)) && (length (pre ++ L1) <=? e)) with true.
  2:{ symmetry. apply andb_true_iff. split; apply Nat.leb_le; [|done].
      rewrite length_app. lia. }
  rewrite <- Hops in Hnd.
  rewrite (bind_ok _ _ _ _ _ (ops_remove_elem rem t Hnd Hrem_in)).
  case_bool_decide as Hs.
  - subst stop. destruct rest as [|x rest]; [done|].
    exfalso. apply Hrem. rewrite last_cons_cons in Hlast.
    by apply last_Some_elem_of.
  - assert (Hlast' : last rest = Some stop).
    { destruct rest as [|x rest]; [simpl in Hlast; congruence|].
      by rewrite last_cons_cons in Hlast. }
    rewrite (IH pre (L1 ++ L2) _ stop).
    + apply (drops_twice [rem] rest).
    + simpl. rewrite Hops in *. rewrite filter_not_elem_middle by done.
      by rewrite app_assoc.
    + by apply NoDup_drops.
    + by apply sublist_inserts_l.
    + done.
Qed.

Lemma filter_device_of_kind (h : gmap nat Device) (X : nat) (l : list Operation) :
  filter (λ o, op_matches h None None None None (Some X) o) l
  = filter (λ o, op_device o = X) l.
Proof.
  apply list_filter_iff. intros o. rewrite op_matches_iff. unfold passes. tauto.
Qed.

(** *** Create followed by destroy of a proposed device *)

Lemma op_matches_kind (h : gmap nat Device) type object X (o : Operation) :
  op_matches h None (Some type) (Some object) None (Some X) o ↔ of_kind type object X o.
Proof.
  rewrite op_matches_iff. reflexivity.
Qed.

Lemma op_matches_device (h : gmap nat Device) object X (o : Operation) :
  op_matches h None None object None (Some X) o → op_device o = X.
Proof. intros H%op_matches_iff. kinds. Qed.

Lemma filter_kind_untouched (h : gmap nat Device) type object X (l : list Operation) :
  untouched X l →
  filter (λ o, op_matches h None type object None (Some X) o) l = [].
Proof.
  intros H. apply filter_nil_elem_of. intros o Ho Hm%op_matches_iff.
  apply (H o Ho). kinds.
Qed.

Lemma findOperations_kind type object X (t : DeviceTree) :
  findOperations None (Some type) (Some object) None (Some X) t
  = (Ok (filter (λ o, op_matches (heap t) None (Some type) (Some object) None (Some X) o)
                (operations t)), t).
Proof. reflexivity. Qed.

Lemma findOperations_device X (t : DeviceTree) :
  findOperations None None None None (Some X) t
  = (Ok (filter (λ o, op_matches (heap t) None None None None (Some X) o)
                (operations t)), t).
Proof. reflexivity. Qed.

Lemma filter_kind_of_kind (h : gmap nat Device) type object X (l : list Operation) :
  filter (λ o, op_matches h None (Some type) (Some object) None (Some X) o) l
  = filter (of_kind type object X) l.
Proof. apply list_filter_iff. intros o. apply op_matches_kind. Qed.

Lemma findOperations_all_of type object (t : DeviceTree) :
  findOperations None (Some type) (Some object) None None t
  = (Ok (filter (λ o, op_matches (heap t) None (Some type) (Some object) None None o)
                (operations t)), t).
Proof. reflexivity. Qed.

Lemma list_index_app_lt {A} `{EqDecision A} (x : A) (pre l : list A) (j : nat) :
  x ∈ pre → list_index x (pre ++ l) = Some j → j < length pre.
Proof.
  revert j. induction pre as [|y pre IH]; intros j Hx Hj; [inversion Hx|].
  simpl in Hj. rewrite list_index_cons in Hj. simpl.
  destruct (decide (y = x)) as [->|Hne]; [injection Hj as <-; lia|].
  apply elem_of_cons in Hx as [->|Hx]; [done|].
  destruct (list_index x (pre ++ l)) as [j'|] eqn:E; [|done].
  injection Hj as <-. specialize (IH j' Hx eq_refl). lia.
Qed.

(** The removal loop passes over the operations that stand before its
    start. *)
Lemma remove_through_skip (rest1 : list Operation) :
  ∀ (rest2 pre L : list Operation) (t : DeviceTree) (stop : Operation),
    operations t = pre ++ L → NoDup (operations t) →
    (∀ o, o ∈ rest1 → o ∈ pre) → stop ∈ L →
    remove_through (length pre) stop (rest1 ++ rest2) t
    = remove_through (length pre) stop rest2 t.
Proof.
  induction rest1 as [|rem rest1 IH]; intros rest2 pre L t stop Hops Hnd Hpre Hstop;
    [done|].
  assert (Hrem : rem ∈ pre) by (apply Hpre; left).
  destruct (ops_index_elem stop t) as (e & He & _).
  { rewrite Hops. apply elem_of_app. by right. }
  destruct (ops_index_elem rem t) as (i & Hi & Hii).
  { rewrite Hops. apply elem_of_app. by left. }
  assert (Hlt : i < length pre).
  { rewrite Hops in Hii. by apply (list_index_app_lt rem pre L). }
  simpl. rewrite (bind_ok _ _ _ _ _ He), (bind_ok _ _ _ _ _ Hi).
  replace (length pre <=? i) with false by (symmetry; apply Nat.leb_gt; lia).
  simpl. rewrite (bind_ok _ _ t t tt) by reflexivity.
  rewrite bool_decide_eq_false_2.
  - apply (IH rest2 pre L); try done. intros o Ho. apply Hpre. by right.
  - intros ->. rewrite Hops in Hnd. apply NoDup_app in Hnd as (_ & Hdis & _).
    by apply (Hdis stop).
Qed.

(** The round of the device-destroy pass on a destroy of a device [X]
    that the log creates before it destroys it: [c0] is the first create
    of [X], [d] the last operation of the log, a destroy of [X].  The
    round drops every operation on [X] from [c0] on. *)
Lemma prune_destroy_device_collapse (X : nat) (c0 d a : Operation)
    (l1 m : list Operation) (t : DeviceTree) :
  NoDup (operations t) →
  operations t = l1 ++ c0 :: m ++ [d] →
  of_kind Create ObjDevice X c0 → of_kind Destroy ObjDevice X d →
  (∀ o, o ∈ l1 → ¬ of_kind Create ObjDevice X o ∧ ¬ of_kind Destroy ObjDevice X o) →
  a ∈ operations t → of_kind Destroy ObjDevice X a →
  prune_destroy_device a t
  = drops (filter (λ o, op_device o = X) (c0 :: m ++ [d])) t.
Proof.
  intros Hnd Hops Hc0 Hd Hl1 Hain Ha.
  assert (Hdd : filter (of_kind Destroy ObjDevice X) (operations t)
                = filter (of_kind Destroy ObjDevice X) m ++ [d]).
  { rewrite Hops, filter_app, (filter_nil_elem_of _ l1) by (intros o Ho; by apply Hl1).
    rewrite filter_cons_False by (destruct Hc0 as (? & _); intros (? & _); congruence).
    rewrite filter_app, (filter_cons_True _ d) by done. done. }
  assert (Hcc : ∃ cm, filter (of_kind Create ObjDevice X) (operations t) = c0 :: cm).
  { rewrite Hops, filter_app, (filter_nil_elem_of _ l1) by (intros o Ho; by apply Hl1).
    rewrite filter_cons_True by done. eauto. }
  destruct Hcc as [cm Hcc].
  assert (Hc0l : c0 ∉ l1).
  { rewrite Hops in Hnd. apply NoDup_app in Hnd as (_ & Hdis & _).
    intros Hin. apply (Hdis c0 Hin). left. }
  assert (Hic : ops_index c0 t = (Ok (length l1), t)).
  { unfold ops_index. by rewrite Hops, list_index_app_fresh. }
  assert (Hdin : d ∈ c0 :: m ++ [d]).
  { right. apply elem_of_app. right. left. }
  destruct Ha as (Hta & Hoa & HXa).
  unfold prune_destroy_device.
  rewrite (bind_ok _ _ _ _ _ (ops_contains_run a t)).
  rewrite (bool_decide_eq_true_2 _ Hain). simpl.
  assert (Hrange : destroy_range ObjDevice a t = (Ok (Some (length l1, d)), t)).
  { unfold destroy_range. rewrite HXa.
    rewrite (bind_ok _ _ _ _ _ (findOperations_kind _ _ _ t)), filter_kind_of_kind, Hdd.
    rewrite (bind_ok _ _ _ _ _ (findOperations_kind _ _ _ t)), filter_kind_of_kind, Hcc.
    destruct (filter (of_kind Destroy ObjDevice X) m) as [|d0 dm] eqn:Hdm.
    - simpl. rewrite (bind_ok _ _ t t ([], 0, None)) by reflexivity.
      rewrite (bind_ok _ _ _ _ _ Hic). reflexivity.
    - assert (Hd0 : d0 ∈ m).
      { assert (H : d0 ∈ filter (of_kind Destroy ObjDevice X) m) by (rewrite Hdm; left).
        by apply list_elem_of_filter in H as [_ ?]. }
      destruct (ops_index_elem d0 t) as (j & Hj & Hjj).
      { rewrite Hops. apply elem_of_app. right. right. apply elem_of_app. by left. }
      assert (Hlt : length l1 < j).
      { rewrite Hops in Hjj, Hnd.
        change (l1 ++ c0 :: m ++ [d]) with (l1 ++ [c0] ++ m ++ [d]) in Hjj, Hnd.
        rewrite app_assoc in Hjj, Hnd.
        pose proof Hnd as (_ & Hdis & _)%NoDup_app.
        assert (Hfresh : d0 ∉ l1 ++ [c0]).
        { intros Hin. apply (Hdis d0 Hin). apply elem_of_app. by left. }
        pose proof (list_index_app_ge d0 _ _ _ Hfresh Hjj) as Hge.
        rewrite length_app in Hge. simpl in Hge. lia. }
      destruct (ops_index_elem a t Hain) as (ia & Hia & _).
      rewrite bool_decide_eq_true_2 by (simpl; rewrite length_app; simpl; lia).
      simpl list_first. rewrite (bind_ok _ _ t t ((d0 :: dm ++ [d], j, Some (ia + 1, d)))).
      2:{ rewrite (bind_ok _ _ t t d0) by reflexivity.
          rewrite (bind_ok _ _ _ _ _ Hj), (bind_ok _ _ _ _ _ Hia).
          rewrite (bind_ok _ _ t t d); [reflexivity|].
          apply list_last_run. change (d0 :: dm ++ [d]) with ((d0 :: dm) ++ [d]).
          apply last_snoc. }
      cbv beta iota. rewrite (bind_ok _ _ _ _ _ Hic).
      replace (length l1 <? j) with true by (symmetry; apply Nat.ltb_lt; lia).
      rewrite orb_true_r.
      rewrite (bind_ok _ _ t t d); [reflexivity|].
      apply list_last_run. change (d0 :: dm ++ [d]) with ((d0 :: dm) ++ [d]).
      apply last_snoc. }
  rewrite (bind_ok _ _ _ _ _ Hrange). rewrite HXa.
  rewrite (bind_ok _ _ _ _ _ (findOperations_device X t)), filter_device_of_kind.
  rewrite Hops at 1. rewrite filter_app.
  rewrite (remove_through_skip _ _ l1 (c0 :: m ++ [d])); try done.
  2:{ intros o Ho. by apply list_elem_of_filter in Ho as [_ ?]. }
  apply (remove_through_all _ l1 (c0 :: m ++ [d])); try done.
  - apply sublist_filter.
  - change (c0 :: m ++ [d]) with ((c0 :: m) ++ [d]).
    rewrite filter_app, (filter_cons_True _ d) by (by destruct Hd as (_ & _ & ?)).
    apply last_snoc.
Qed.

Lemma split_first {A} (P : A → Prop) `{∀ x, Decision (P x)} (l : list A) (x : A) :
  x ∈ l → P x →
  ∃ l1 y l2, l = l1 ++ y :: l2 ∧ P y ∧ ∀ z, z ∈ l1 → ¬ P z.
Proof.
  induction l as [|z l IH]; intros Hin HP; [inversion Hin|].
  destruct (decide (P z)) as [Hz|Hz].
  - exists [], z, l. split; [done|]. split; [done|]. intros ? Hc. inversion Hc.
  - apply elem_of_cons in Hin as [->|Hin]; [done|].
    destruct (IH Hin HP) as (l1 & y & l2 & -> & Hy & Hl1).
    exists (z :: l1), y, l2. split; [done|]. split; [done|].
    intros w [->|Hw]%elem_of_cons; auto.
Qed.

(** The device-destroy pass on such a log: after it, what is left of
    the operations on [X] stood before the first create of [X]. *)
Lemma destroy_device_pass_collapse (X : nat) (c0 d : Operation)
    (l1 m : list Operation) (t : DeviceTree) :
  NoDup (operations t) →
  operations t = l1 ++ c0 :: m ++ [d] →
  of_kind Create ObjDevice X c0 → of_kind Destroy ObjDevice X d →
  (∀ o, o ∈ l1 → ¬ of_kind Create ObjDevice X o ∧ ¬ of_kind Destroy ObjDevice X o) →
  ∃ R : list Operation,
    prune_pass Destroy ObjDevice prune_destroy_device t = drops R t
    ∧ ∀ o, o ∈ c0 :: m ++ [d] → op_device o = X → o ∈ R.
Proof.
  intros Hnd Hops Hc0 Hd Hl1.
  assert (Hdin : d ∈ operations t).
  { rewrite Hops. apply elem_of_app. right. right. apply elem_of_app. right. left. }
  unfold prune_pass. rewrite (bind_ok _ _ _ _ _ (findOperations_all_of _ _ t)).
  set (visited := filter _ (operations t)).
  assert (Hvis : ∀ a, a ∈ visited ↔ (op_type a = Destroy ∧ op_obj a = ObjDevice)
                                     ∧ a ∈ operations t).
  { intros a. subst visited. rewrite list_elem_of_filter, op_matches_iff.
    unfold passes. tauto. }
  assert (Hdv : d ∈ visited) by (apply Hvis; destruct Hd as (? & ? & _); done).
  destruct (split_first (λ o, op_device o = X) visited d Hdv)
    as (V1 & a & V2 & Hsplit & HaX & HV1); [by destruct Hd as (_ & _ & ?)|].
  assert (Hav : a ∈ visited).
  { rewrite Hsplit. apply elem_of_app. right. left. }
  apply Hvis in Hav as [[Hta Hoa] Hain].
  assert (Hloop : ∀ l s, NoDup (operations s) → (∀ a', a' ∈ l → a' ∈ visited) →
            ∃ R : list Operation,
              for_each l prune_destroy_device s = drops R s
              ∧ ∀ o, o ∈ R → ∃ a', a' ∈ l ∧ op_device o = op_device a').
  { intros l s Hs Hl.
    apply (for_each_drops prune_destroy_device
             (λ a', op_type a' = Destroy ∧ op_obj a' = ObjDevice)
             (λ a' o, op_device o = op_device a')); [|done|].
    - intros a' s' Hs' [? ?]. by apply prune_destroy_device_ok.
    - intros a' Ha'. by apply Hvis, Hl. }
  rewrite Hsplit, for_each_app.
  destruct (Hloop V1 t Hnd) as (R1 & -> & HR1).
  { intros a' Ha'. rewrite Hsplit. apply elem_of_app. by left. }
  assert (HR1X : ∀ o, o ∈ R1 → op_device o ≠ X).
  { intros o Ho. destruct (HR1 o Ho) as (a' & Ha' & ->). by apply HV1. }
  set (t1 := set_operations _ t). simpl for_each. unfold bind.
  assert (Hnd1 : NoDup (operations t1)) by (by apply NoDup_drops).
  assert (Hops1 : operations t1
                  = filter (λ o, o ∉ R1) l1 ++ c0 :: filter (λ o, o ∉ R1) m ++ [d]).
  { subst t1. simpl. rewrite Hops, filter_app.
    rewrite filter_cons_True
      by (intros Hin; apply (HR1X c0 Hin); by destruct Hc0 as (_ & _ & ?)).
    rewrite filter_app.
    rewrite (filter_cons_True _ d)
      by (intros Hin; apply (HR1X d Hin); by destruct Hd as (_ & _ & ?)).
    done. }
  rewrite (prune_destroy_device_collapse X c0 d a _ _ t1 Hnd1 Hops1 Hc0 Hd).
  2:{ intros o [_ Ho]%list_elem_of_filter. by apply Hl1. }
  2:{ subst t1. simpl. apply list_elem_of_filter. split; [|done].
      intros Hin. by apply (HR1X a Hin). }
  2:{ done. }
  set (R2 := filter _ (c0 :: _ ++ [d])).
  set (t2 := set_operations _ t1).
  destruct (Hloop V2 t2) as (R3 & -> & _).
  { by apply NoDup_drops. }
  { intros a' Ha'. rewrite Hsplit. apply elem_of_app. right. by right. }
  exists (R1 ++ R2 ++ R3). split.
  { subst t2 t1. unfold set_operations. simpl. by rewrite !filter_not_elem_app. }
  intros o Ho HoX. apply elem_of_app. right. apply elem_of_app. left.
  subst R2. apply list_elem_of_filter. split; [done|].
  apply elem_of_cons in Ho as [->|Ho]; [left|right].
  apply elem_of_app in Ho as [Ho|Ho]; apply elem_of_app; [left|by right].
  apply list_elem_of_filter. split; [|done]. intros Hin. by apply (HR1X o Hin).
Qed.

(** Pruning a log in which the device [X] is created before it is
    destroyed and whose last operation destroys [X]: the operations on
    [X] that are left stood before the first create of [X]. *)
Lemma pruneOperations_collapse_log (X : nat) (c0 d : Operation)
    (l1 m : list Operation) (t : DeviceTree) :
  NoDup (operations t) →
  operations t = l1 ++ c0 :: m ++ [d] →
  of_kind Create ObjDevice X c0 → of_kind Destroy ObjDevice X d →
  (∀ o, o ∈ l1 → ¬ of_kind Create ObjDevice X o ∧ ¬ of_kind Destroy ObjDevice X o) →
  ∃ R : list Operation,
    pruneOperations t = drops R t
    ∧ ∀ o, o ∈ filter (λ o, o ∉ R) (operations t) → op_device o = X → o ∈ l1.
Proof.
  intros Hnd Hops Hc0 Hd Hl1.
  destruct (destroy_device_pass_collapse X c0 d l1 m t Hnd Hops Hc0 Hd Hl1)
    as (R1 & HR1 & Hgone).
  destruct (later_passes_sublog (λ _, True)) with
    (t := set_operations (filter (λ o, o ∉ R1) (operations t)) t) as (R2 & HR2 & _);
    [done|by apply NoDup_drops|done|].
  exists (R1 ++ R2). split.
  - unfold pruneOperations. rewrite (bind_ok _ _ _ _ _ HR1). rewrite HR2.
    simpl. by rewrite filter_not_elem_app.
  - intros o [Ho Hin]%list_elem_of_filter HoX.
    rewrite Hops in Hin. apply elem_of_app in Hin as [Hin|Hin]; [done|].
    exfalso. apply Ho. apply elem_of_app. left. by apply Hgone.
Qed.

(** *** Several resizes of one target *)

Lemma filter_comm {A} (P Q : A → Prop) `{∀ x, Decision (P x), ∀ x, Decision (Q x)}
    (l : list A) :
  filter P (filter Q l) = filter Q (filter P l).
Proof. rewrite !list_filter_filter. apply list_filter_iff. tauto. Qed.

(** One round of a keep-last loop, seen from the operations of kind
    [type]/[object] on a device [X]. *)
Lemma prune_keep_last_other (type : OpType) (object : OpObj) (X : nat)
    (a : Operation) (t : DeviceTree) :
  NoDup (operations t) → op_device a ≠ X →
  ∃ R : list Operation,
    prune_keep_last type object a t = drops R t
    ∧ ∀ o, o ∈ R → op_device o ≠ X.
Proof.
  intros Hnd Ha. destruct (prune_keep_last_ok type object a t Hnd) as (R & HR & Hs).
  exists R. split; [done|]. intros o Ho. destruct (Hs o Ho) as (-> & _). done.
Qed.

Lemma prune_keep_last_same (type : OpType) (object : OpObj) (X : nat)
    (a r : Operation) (t : DeviceTree) :
  NoDup (operations t) → a ∈ operations t → op_device a = X →
  last (filter (of_kind type object X) (operations t)) = Some r →
  ∃ R : list Operation,
    prune_keep_last type object a t = drops R t
    ∧ filter (of_kind type object X) (filter (λ o, o ∉ R) (operations t)) = [r].
Proof.
  intros Hnd Hin Ha Hlast. eexists. split; [by apply prune_keep_last_run|].
  rewrite bool_decide_eq_true_2 by done. rewrite Ha.
  rewrite filter_kind_of_kind. rewrite filter_comm.
  apply filter_not_elem_removelast; [by apply NoDup_filter|done].
Qed.

Lemma keep_last_loop_class (type : OpType) (object : OpObj) (X : nat) (r : Operation)
    (l : list Operation) :
  ∀ t, NoDup (operations t) →
    (∀ a, a ∈ l → op_type a = type ∧ op_obj a = object) →
    last (filter (of_kind type object X) (operations t)) = Some r →
    (filter (of_kind type object X) (operations t) = [r]
     ∨ (∃ a, a ∈ l ∧ op_device a = X)
       ∧ ∀ a, a ∈ l → op_device a = X → a ∈ operations t) →
    ∃ R : list Operation,
      for_each l (prune_keep_last type object) t = drops R t
      ∧ filter (of_kind type object X) (filter (λ o, o ∉ R) (operations t)) = [r].
Proof.
  induction l as [|x l IH]; intros t Hnd Hkind Hlast Hcase.
  - exists []. split; [apply drops_nil|]. rewrite filter_not_elem_nil.
    destruct Hcase as [?|[(a & Ha & _) _]]; [done|inversion Ha].
  - simpl. unfold bind.
    assert (Hstep : ∃ R1 : list Operation,
      prune_keep_last type object x t = drops R1 t
      ∧ last (filter (of_kind type object X) (filter (λ o, o ∉ R1) (operations t))) = Some r
      ∧ (filter (of_kind type object X) (filter (λ o, o ∉ R1) (operations t)) = [r]
         ∨ (∃ a, a ∈ l ∧ op_device a = X)
           ∧ ∀ a, a ∈ l → op_device a = X → a ∈ filter (λ o, o ∉ R1) (operations t))).
    { destruct (decide (op_device x = X)) as [Hx|Hx].
      - destruct (decide (x ∈ operations t)) as [Hin|Hin].
        + destruct (prune_keep_last_same type object X x r t) as (R1 & H1 & E1); try done.
          exists R1. rewrite E1. split; [done|]. split; [done|by left].
        + exists []. split.
          { rewrite prune_keep_last_run by done.
            by rewrite bool_decide_eq_false_2. }
          rewrite filter_not_elem_nil. split; [done|]. left.
          destruct Hcase as [?|[_ Hall]]; [done|].
          exfalso. apply Hin, Hall; [by left|done].
      - destruct (prune_keep_last_other type object X x t) as (R1 & H1 & HR1); try done.
        exists R1. split; [done|].
        assert (E : filter (of_kind type object X) (filter (λ o, o ∉ R1) (operations t))
                    = filter (of_kind type object X) (operations t)).
        { apply filter_filter_not_elem. intros o Ho (_ & _ & Hdev). by apply (HR1 o Ho). }
        rewrite E. split; [done|].
        destruct Hcase as [?|[(a & Ha & HaX) Hall]]; [by left|right]. split.
        + exists a. split; [|done].
          apply elem_of_cons in Ha as [->|?]; done.
        + intros b Hb HbX. apply list_elem_of_filter. split.
          * intros Hc. by apply (HR1 b Hc).
          * apply Hall; [by right|done]. }
    destruct Hstep as (R1 & H1 & Hlast1 & Hcase1). rewrite H1.
    destruct (IH (set_operations (filter (λ o, o ∉ R1) (operations t)) t))
      as (R2 & H2 & E2); try done.
    + by apply NoDup_drops.
    + intros a Ha. apply Hkind. by right.
    + exists (R1 ++ R2). split.
      * rewrite H2. apply drops_twice.
      * simpl in E2. by rewrite filter_not_elem_app in E2.
Qed.

(** The pass over the operations of a kind leaves, on every device that
    has some, the last one only. *)
Lemma keep_last_pass_class (type : OpType) (object : OpObj) (X : nat) (r : Operation)
    (t : DeviceTree) :
  NoDup (operations t) →
  last (filter (of_kind type object X) (operations t)) = Some r →
  ∃ R : list Operation,
    prune_pass type object (prune_keep_last type object) t = drops R t
    ∧ filter (of_kind type object X) (filter (λ o, o ∉ R) (operations t)) = [r].
Proof.
  intros Hnd Hlast. unfold prune_pass.
  rewrite (bind_ok _ _ _ _ _ (findOperations_all_of _ _ t)).
  apply keep_last_loop_class; try done.
  - intros a [Ha%op_matches_iff _]%list_elem_of_filter. kinds.
  - right. split.
    + exists r. apply last_Some_elem_of, list_elem_of_filter in Hlast as [(? & ? & ?) ?].
      split; [|done]. apply list_elem_of_filter. split; [|done].
      apply op_matches_iff. kinds.
    + intros a [_ ?]%list_elem_of_filter _. done.
Qed.

(** The lifecycle passes leave the resizes of a device alone when no
    operation creates or destroys the device or its format. *)
Lemma lifecycle_pass_frame (type : OpType) (object : OpObj)
    (body : Operation → M DeviceTree unit) (K : Operation → Prop)
    `{∀ o, Decision (K o)} (X : nat) (c : list Operation) :
  type = Create ∨ type = Destroy →
  (∀ o, K o → op_device o = X) →
  (∀ t, NoDup (operations t) →
     ∃ R : list Operation,
       prune_pass type object body t = drops R t
       ∧ ∀ o, o ∈ R → ∃ a, a ∈ operations t ∧ op_type a = type
                             ∧ op_device o = op_device a) →
  prunes (λ l, no_lifecycle X l ∧ filter K l = c)
         (prune_pass type object body)
         (λ l, no_lifecycle X l ∧ filter K l = c).
Proof.
  intros Hty HK Hpass. apply prunes_frame.
  - intros l R. apply no_lifecycle_sublog.
  - intros t Hnd Hno. destruct (Hpass t Hnd) as (R & HR & Hwho).
    exists R. split; [done|]. intros o Ho HKo.
    destruct (Hwho o Ho) as (a & Ha & Hta & Hda).
    destruct (Hno a Ha) as [? ?]; [by rewrite <- Hda; apply HK|].
    destruct Hty; congruence.
Qed.

Lemma keep_last_pass_frame (type : OpType) (object : OpObj) (P : list Operation → Prop)
    (K : Operation → Prop) `{∀ o, Decision (K o)} (c : list Operation) :
  (∀ l (R : list Operation), P l → P (filter (λ o, o ∉ R) l)) →
  (∀ o, K o → ¬ (op_type o = type ∧ op_obj o = object)) →
  prunes (λ l, P l ∧ filter K l = c)
         (prune_pass type object (prune_keep_last type object))
         (λ l, P l ∧ filter K l = c).
Proof.
  intros Hsub HK. apply prunes_frame; [done|].
  intros t Hnd _. destruct (keep_last_pass_ok type object t Hnd) as (R & HR & Hwho).
  exists R. split; [done|]. intros o Ho HKo. by apply (HK o HKo), Hwho.
Qed.

Lemma keep_last_pass_match (type : OpType) (object : OpObj) (X : nat)
    (P : list Operation → Prop) (c : list Operation) (r : Operation) :
  (∀ l (R : list Operation), P l → P (filter (λ o, o ∉ R) l)) →
  last c = Some r →
  prunes (λ l, P l ∧ filter (of_kind type object X) l = c)
         (prune_pass type object (prune_keep_last type object))
         (λ l, P l ∧ filter (of_kind type object X) l = [r]).
Proof.
  intros Hsub Hlast t Hnd [HP Hc].
  destruct (keep_last_pass_class type object X r t) as (R & HR & E);
    [done|by rewrite Hc|].
  exists R. split; [done|]. split; [by apply Hsub|done].
Qed.

(** *** Operations registered after what a pass collapses *)


Lemma stands_before_ne (l : list Operation) (s r : Operation) :
  NoDup l → stands_before l s r → s ≠ r.
Proof.
  intros Hnd (l1 & l2 & l3 & ->) ->.
  apply NoDup_app in Hnd as (_ & _ & [Hr _]%NoDup_cons).
  apply Hr. apply elem_of_app. right. left.
Qed.
















(** ** Registration *)

(** C1: on the tree [data_tree], where the leaf [sda1] carries a
    filesystem mounted on [/data], the format-create operation on [sda2],
    whose new filesystem has the mountpoint [/data] too, is registered:
    [addOperation] returns normally and the operation is in the log. *)
Theorem addOperation_mountpoint_conflict_unnoticed :
  2 ∈ leaves data_tree
  ∧ fmt_mountpoint (dev_format (deref (heap data_tree) 2)) = Some "/data"
  ∧ op_device create_format_sda2 = 3
  ∧ isCreate create_format_sda2 && isFormat create_format_sda2 = true
  ∧ fmt_class (dev_format (deref (heap data_tree) 3)) = ClsFilesystem
  ∧ fmt_mountpoint (dev_format (deref (heap data_tree) 3)) = Some "/data"
  ∧ addOperation no_removePartition no_updateName no_logicalPartitions
      create_format_sda2 data_tree
    = (Ok tt, set_operations [create_format_sda2] data_tree).
Proof.
  split; [|repeat split; vm_compute; reflexivity].
  replace (leaves data_tree) with [2; 3] by (vm_compute; reflexivity).
  apply elem_of_cons. by left.
Qed.

(** C2: adding a second placeholder of path [tmpfs], which has no parents
    and meets no non-placeholder device of its path, raises [NameError]
    instead of appending it; adding a second disk object of path
    [/dev/sda] raises the same [NameError], not the documented error. *)
Theorem _addDevice_duplicate_path_unbound_name :
  dev_class (deref (heap tmpfs_tree) 2) = ClsNoDevice
  ∧ dev_parents (deref (heap tmpfs_tree) 2) = []
  ∧ Forall (λ d, dev_class (deref (heap tmpfs_tree) d) = ClsNoDevice) (_devices tmpfs_tree)
  ∧ _addDevice 2 tmpfs_tree = (Raise (NameError "newdev"), tmpfs_tree)
  ∧ _addDevice 2 sda_tree = (Raise (NameError "newdev"), sda_tree).
Proof.
  repeat split; try (vm_compute; reflexivity).
  repeat constructor.
Qed.

(** ** The comparator *)

(** C3: the two format-create operations on the two partition objects of
    path [/dev/sda6] both survive pruning, and the comparator puts each of
    them after the other. *)
Theorem cmpOperations_create_format_same_path
    (dependsOn : gmap nat Device → nat → nat → bool) :
  pruned [create_format_old_sda6; create_format_new_sda6]
  = Some [create_format_old_sda6; create_format_new_sda6]
  ∧ cmpOperations dependsOn sda6_heap create_format_old_sda6 create_format_new_sda6 = 1%Z
  ∧ cmpOperations dependsOn sda6_heap create_format_new_sda6 create_format_old_sda6 = 1%Z.
Proof. repeat split; vm_compute; reflexivity. Qed.

(** ** Pruning twice *)

(** C8: the log "resize sda1, destroy sda1, create sda1, destroy sda1",
    which four registrations on [sda1_tree] produce, is pruned to "resize
    sda1, destroy sda1", and pruning that log again drops the resize. *)
Theorem pruneOperations_not_idempotent :
  for_each resize_destroy_create_destroy
    (addOperation no_removePartition no_updateName no_logicalPartitions) sda1_tree
  = (Ok tt, mkTree [1] resize_destroy_create_destroy
              (alter removeChild 1 (alter removeChild 1 (heap sda1_tree))))
  ∧ pruned resize_destroy_create_destroy = Some [resize_sda1; destroy_sda1]
  ∧ pruned [resize_sda1; destroy_sda1] = Some [destroy_sda1]
  ∧ [resize_sda1; destroy_sda1] ≠ [destroy_sda1].
Proof.
  split; [vm_compute; reflexivity|].
  repeat split; try (vm_compute; reflexivity). discriminate.
Qed.

(** ** Concrete logs *)

Ltac distinct_ops :=
  repeat (apply NoDup_cons; split;
          [let H := fresh in
           intros H;
           repeat (apply elem_of_cons in H as [H|H]; [discriminate H|]);
           inversion H|]);
  apply NoDup_nil; exact I.


(** The three resizes of [sda1], registered one after the other and
    pruned: the resize to 6 GB is what is left. *)
Example three_resizes_registered :
  for_each [resize_to_5GB; resize_to_8GB; resize_to_6GB]
    (addOperation no_removePartition no_updateName no_logicalPartitions) sda1_tree
  = (Ok tt, three_resizes_tree).
Proof. vm_compute. reflexivity. Qed.

Example three_resizes_pruned :
  pruneOperations three_resizes_tree
  = (Ok tt, set_operations [resize_to_6GB] sda1_tree).
Proof. vm_compute. reflexivity. Qed.


Lemma addOperation_destroy_nonleaf_witness :
  isDestroy destroy_sda = true
  ∧ isDevice destroy_sda = true
  ∧ op_device destroy_sda ∈ _devices data_tree
  ∧ isleaf (deref (heap data_tree) (op_device destroy_sda)) = false
  ∧ addOperation no_removePartition no_updateName no_logicalPartitions
      destroy_sda data_tree
    = (Raise (ValueError "Cannot remove non-leaf device"), data_tree)
  ∧ operations
      (addOperation no_removePartition no_updateName no_logicalPartitions
         destroy_sda data_tree).2 = operations data_tree.
Proof.
  assert (H1 : isDestroy destroy_sda = true) by reflexivity.
  assert (H2 : isDevice destroy_sda = true) by reflexivity.
  assert (H3 : op_device destroy_sda ∈ _devices data_tree) by (by left).
  assert (H4 : isleaf (deref (heap data_tree) (op_device destroy_sda)) = false)
    by (vm_compute; reflexivity).
  split; [exact H1|]. split; [exact H2|]. split; [exact H3|]. split; [exact H4|].
  exact (addOperation_destroy_nonleaf no_removePartition no_updateName
           no_logicalPartitions destroy_sda data_tree H1 H2 H3 H4).
Defined.

(** C10: the destroy of a device that a device of the tree lists as a
    parent is registered once the child count has drifted.  On
    [sda1_tree] the destroy of the partition [sda1] is registered and
    cancelled again: [_removeDevice] has taken one child off the count of
    the disk [sda], and the [_addDevice] of the cancellation puts the
    partition back without counting it.  The partition is in the tree
    again and lists [sda] as its parent, [sda] counts no children, and
    the destroy of [sda] is registered: it is appended to the log and
    [sda] leaves the tree, its partition staying behind. *)
Theorem addOperation_destroy_parent_after_cancel :
  ∃ t1 t2 t3,
    addOperation no_removePartition no_updateName no_logicalPartitions
      destroy_sda1 sda1_tree = (Ok tt, t1)
    ∧ removeOperation no_removePartition no_updateName no_logicalPartitions no_cancel
        destroy_sda1 t1 = (Ok tt, t2)
    ∧ _devices t2 = [1; 2]
    ∧ getChildren 1 t2 = [2]
    ∧ dev_kids (deref (heap t2) 1) = 0%Z
    ∧ addOperation no_removePartition no_updateName no_logicalPartitions
        destroy_sda t2 = (Ok tt, t3)
    ∧ operations t3 = [destroy_sda]
    ∧ _devices t3 = [2]
    ∧ getChildren 1 t3 = [2].
Proof.
  eexists _, _, _.
  split; [vm_compute; reflexivity|].
  split; [vm_compute; reflexivity|].
  split; [reflexivity|]. split; [vm_compute; reflexivity|].
  split; [vm_compute; reflexivity|].
  split; [vm_compute; reflexivity|].
  split; [reflexivity|]. split; [reflexivity|]. vm_compute. reflexivity.
Qed.

(** ** Dependency order *)

(** C7: when device [a] depends on device [b] and the two have distinct
    paths, the comparator puts a create of [a] after a create of [b] and a
    destroy of [a] before a destroy of [b]; asked the other way round it
    answers the opposite, unless [b] depends on [a] too. *)
Theorem cmpOperations_dependency_order
    (dependsOn : gmap nat Device → nat → nat → bool)
    (h : gmap nat Device) (a b : nat)
    (create_a create_b destroy_a destroy_b : Operation) :
  dev_path (deref h a) ≠ dev_path (deref h b) →
  dependsOn h a b = true →
  op_device create_a = a → isCreate create_a = true →
  op_device create_b = b → isCreate create_b = true →
  op_device destroy_a = a → isDestroy destroy_a = true →
  op_device destroy_b = b → isDestroy destroy_b = true →
  cmpOperations dependsOn h create_a create_b = 1%Z
  ∧ cmpOperations dependsOn h destroy_a destroy_b = (-1)%Z
  ∧ (dependsOn h b a = false →
     cmpOperations dependsOn h create_b create_a = (-1)%Z
     ∧ cmpOperations dependsOn h destroy_b destroy_a = 1%Z).
Proof.
  intros Hpath Hdep <- Hca Eb Hcb Ea Hda Eb' Hdb. subst b.
  assert (Hpath' : dev_path (deref h (op_device create_b))
                   ≠ dev_path (deref h (op_device create_a))) by congruence.
  unfold isCreate, isDestroy in *.
  apply bool_decide_eq_true in Hca, Hcb, Hda, Hdb.
  (split; [|split; [|intros Hrev; split]]); unfold cmpOperations;
    unfold isCreate, isDestroy, isResize, isMigrate;
    rewrite ?Hca, ?Hcb, ?Hda, ?Hdb, ?Ea, ?Eb'; simpl;
    rewrite ?(bool_decide_eq_false_2 _ Hpath), ?(bool_decide_eq_false_2 _ Hpath'),
      ?Hdep, ?Hrev; reflexivity.
Qed.

Lemma cmpOperations_dependency_order_witness :
  dev_path (deref (heap sda1_tree) 2) ≠ dev_path (deref (heap sda1_tree) 1)
  ∧ dependsOn_parents (heap sda1_tree) 2 1 = true
  ∧ dependsOn_parents (heap sda1_tree) 1 2 = false
  ∧ cmpOperations dependsOn_parents (heap sda1_tree)
      create_sda1 create_sda_unregistered = 1%Z
  ∧ cmpOperations dependsOn_parents (heap sda1_tree) destroy_sda1 destroy_sda = (-1)%Z
  ∧ (dependsOn_parents (heap sda1_tree) 1 2 = false →
     cmpOperations dependsOn_parents (heap sda1_tree)
       create_sda_unregistered create_sda1 = (-1)%Z
     ∧ cmpOperations dependsOn_parents (heap sda1_tree) destroy_sda destroy_sda1 = 1%Z).
Proof.
  assert (H1 : dev_path (deref (heap sda1_tree) 2) ≠ dev_path (deref (heap sda1_tree) 1))
    by (vm_compute; discriminate).
  assert (H2 : dependsOn_parents (heap sda1_tree) 2 1 = true) by (vm_compute; reflexivity).
  split; [exact H1|]. split; [exact H2|]. split; [vm_compute; reflexivity|].
  exact (cmpOperations_dependency_order dependsOn_parents (heap sda1_tree) 2 1
           create_sda1 create_sda_unregistered destroy_sda1 destroy_sda
           H1 H2 eq_refl eq_refl eq_refl eq_refl eq_refl eq_refl eq_refl eq_refl).
Defined.

(** A mountpoint is never found among format objects. *)
Lemma py_in_mountpoint_formats (f : Format) (fs : list Format) :
  py_in (py_mountpoint f) (PyFormat <$> fs) = false.
Proof.
  unfold py_in. induction fs as [|g fs IH]; [reflexivity|].
  rewrite fmap_cons. simpl. rewrite IH.
  unfold py_mountpoint. by destruct (fmt_mountpoint f).
Qed.

(** ** Cancelling an operation that is not in the log *)

Section CancelFacts.

Variable removePartition : nat → nat → gmap nat Device → gmap nat Device.
Variable updateName : nat → gmap nat Device → gmap nat Device.
Variable logicalPartitions : gmap nat Device → nat → nat.
Variable cancel : Operation → gmap nat Device → gmap nat Device.

Local Abbreviation removeDev := (_removeDevice removePartition updateName logicalPartitions).
Local Abbreviation removeOp :=
  (removeOperation removePartition updateName logicalPartitions cancel).

(** A computation that touches the store only. *)
Local Abbreviation store_only m :=
  (∀ t : DeviceTree, _devices (m t).2 = _devices t ∧ operations (m t).2 = operations t).

Lemma store_only_bind {A B} (m : M DeviceTree A) (f : A → M DeviceTree B) :
  store_only m → (∀ a, store_only (f a)) → store_only (m ≫= f).
Proof.
  intros Hm Hf t. rewrite bind_run. specialize (Hm t).
  destruct (m t) as [[a|e] t1]; simpl in *; [|done].
  destruct (Hf a t1) as [-> ->]. done.
Qed.

Lemma store_only_for_each {A} (l : list A) (body : A → M DeviceTree unit) :
  (∀ x, store_only (body x)) → store_only (for_each l body).
Proof.
  intros Hbody t.
  apply (for_each_preserves
           (λ s, _devices s = _devices t ∧ operations s = operations t)); [|done].
  intros x s [<- <-]. apply Hbody.
Qed.

(** The partition-table part of [_removeDevice] touches the store only. *)
Lemma _removeDevice_fields (device : nat) (force moddisk : bool) (t : DeviceTree) :
  operations (removeDev device force moddisk t).2 = operations t
  ∧ ((removeDev device force moddisk t).1 = Ok tt →
     list_remove_first device (_devices t)
     = Some (_devices (removeDev device force moddisk t).2)).
Proof.
  unfold _removeDevice. rewrite bind_run. simpl.
  destruct (negb (bool_decide (device ∈ _devices t))); [done|].
  destruct (negb (isleaf (deref (heap t) device)) && negb force); [done|].
  set (part := match dev_disk (deref (heap t) device) with
               | Some disk => _ | None => _ end).
  assert (Hpart : store_only part).
  { subst part. destruct (dev_disk (deref (heap t) device)) as [disk|]; [|done].
    destruct (moddisk && isPartition (deref (heap t) device)); [|done].
    destruct (pp_extended _ && _); [done|].
    apply store_only_bind; [done|]. intros _.
    apply store_only_for_each. intros dev.
    apply store_only_bind; [done|]. intros s s'. simpl.
    by destruct (isPartition _ && _). }
  rewrite bind_run. destruct (Hpart t) as [Hd Ho].
  destruct (part t) as [[[]|e] t1]; simpl in *; [|done].
  rewrite bind_run. simpl. rewrite Hd.
  destruct (list_remove_first device (_devices t)) as [l|]; [|done].
  rewrite bind_run. simpl.
  assert (Hloop : store_only (for_each (dev_parents (deref (heap t1) device))
            (λ parent, modify (λ t, set_heap (alter removeChild parent (heap t)) t)))).
  { apply store_only_for_each. done. }
  destruct (Hloop (set_devices l t1)) as [Hd' Ho']. simpl in *.
  rewrite Ho', Hd'. done.
Qed.

Lemma list_remove_first_elem {A} `{EqDecision A} (x : A) (l : list A) :
  x ∈ l → is_Some (list_remove_first x l).
Proof.
  induction l as [|y l IH]; intros Hin; [inversion Hin|]. simpl.
  destruct (decide (y = x)); [eauto|].
  apply elem_of_cons in Hin as [->|Hin]; [done|].
  destruct (IH Hin) as [l' ->]. simpl. eauto.
Qed.

(** When [_removeDevice] raises, it has changed nothing: its three errors
    are raised before the first mutation. *)
Lemma _removeDevice_raise_unchanged (device : nat) (force moddisk : bool)
    (t t' : DeviceTree) (e : exn) :
  removeDev device force moddisk t = (Raise e, t') → t' = t.
Proof.
  unfold _removeDevice. rewrite bind_run. simpl.
  case_bool_decide as Hin; simpl; [|by intros [= _ <-]].
  destruct (negb (isleaf (deref (heap t) device)) && negb force);
    [by intros [= _ <-]|].
  set (part := match dev_disk (deref (heap t) device) with
               | Some disk => _ | None => _ end).
  assert (Hpart : (part t).1 = Ok tt ∧ _devices (part t).2 = _devices t
                  ∨ ∃ e', part t = (Raise e', t)).
  { subst part. destruct (dev_disk (deref (heap t) device)) as [disk|]; [|by left].
    destruct (moddisk && isPartition (deref (heap t) device)); [|by left].
    destruct (pp_extended _ && _); [right; by eexists|]. left.
    rewrite bind_run. simpl.
    set (loop := for_each _ _).
    assert (Hs : store_only loop).
    { apply store_only_for_each. intros dev.
      apply store_only_bind; [done|]. intros s s'. simpl.
      by destruct (isPartition _ && _). }
    assert (Hr : ∀ s, (loop s).1 = Ok tt).
    { apply for_each_returns. intros dev s. rewrite bind_run. simpl.
      by destruct (isPartition _ && _). }
    split; [apply Hr|]. by destruct (Hs (set_heap (removePartition disk device (heap t)) t)). }
  rewrite bind_run.
  destruct Hpart as [[Hok Hd]|[e' ->]]; [|by intros [= _ <-]].
  destruct (part t) as [[[]|e0] t1]; simpl in *; [|done].
  rewrite bind_run. simpl. rewrite Hd.
  destruct (list_remove_first_elem device (_devices t) Hin) as [l ->].
  rewrite bind_run. simpl.
  pose proof (for_each_returns
                (λ parent, modify (λ t, set_heap (alter removeChild parent (heap t)) t))
                (dev_parents (deref (heap t1) device))
                (λ _ _, eq_refl) (set_devices l t1)) as Hr.
  destruct (for_each _ _ (set_devices l t1)) as [r t2]. simpl in Hr. subst r. done.
Qed.

Lemma _addDevice_cases (device : nat) (t : DeviceTree) :
  _addDevice device t = (Ok tt, set_devices (_devices t ++ [device]) t)
  ∨ ∃ e, _addDevice device t = (Raise e, t).
Proof.
  destruct (decide (dev_path (deref (heap t) device)
                      ∈ (λ d, dev_path (deref (heap t) d)) <$> _devices t)) as [Hp|Hp].
  { right. eexists. by apply _addDevice_duplicate_path. }
  destruct (decide (Forall (λ parent, parent ∈ _devices t)
                           (dev_parents (deref (heap t) device)))) as [Hall|Hall].
  - left. apply _addDevice_ok; [done|]. by apply Forall_forall.
  - right. eexists. apply _addDevice_missing_parent; [done|].
    intros H. by apply Hall, Forall_forall.
Qed.

(** *** Registration and the log *)

Local Abbreviation addOp := (addOperation removePartition updateName logicalPartitions).
Local Abbreviation same_path_loop :=
  (remove_same_path removePartition updateName logicalPartitions).

(** A computation that leaves the log as it is, however it ends. *)
Local Abbreviation keeps_log m :=
  (∀ t : DeviceTree, operations (m t).2 = operations t).

Lemma keeps_log_bind {A B} (m : M DeviceTree A) (f : A → M DeviceTree B) :
  keeps_log m → (∀ a, keeps_log (f a)) → keeps_log (m ≫= f).
Proof.
  intros Hm Hf t. rewrite bind_run. specialize (Hm t).
  destruct (m t) as [[a|e] t1]; simpl in *; [|done].
  by rewrite Hf.
Qed.

Lemma _removeDevice_keeps_log (device : nat) (force moddisk : bool) :
  keeps_log (removeDev device force moddisk).
Proof. intros t. apply _removeDevice_fields. Qed.

Lemma _addDevice_keeps_log (device : nat) : keeps_log (_addDevice device).
Proof.
  intros t. destruct (_addDevice_cases device t) as [->|[e ->]]; reflexivity.
Qed.

Lemma list_remove_first_length {A} `{EqDecision A} (x : A) (l l' : list A) :
  list_remove_first x l = Some l' → S (length l') = length l.
Proof.
  revert l'. induction l as [|y l IH]; intros l'; simpl; [done|].
  destruct (decide (y = x)); [by intros [= ->]|].
  destruct (list_remove_first x l) as [l0|]; simpl; [|done].
  intros [= <-]. simpl. by rewrite (IH l0).
Qed.

Lemma remove_same_path_keeps_log (rounds i : nat) (operation : Operation) :
  keeps_log (same_path_loop rounds i operation).
Proof.
  revert i. induction rounds as [|rounds IH]; intros i; [done|].
  simpl. apply keeps_log_bind; [done|]. intros t0 t.
  destruct (_devices t0 !! i); [|done].
  apply keeps_log_bind; [|by intros []].
  intros s. destruct (bool_decide _); [apply _removeDevice_keeps_log|done].
Qed.

(** The rounds granted to the loop over the device list suffice: with one
    round more the loop does the same, because the extra round finds the
    position out of range. *)
Lemma remove_same_path_rounds (operation : Operation) (rounds : nat) :
  ∀ i t, length (_devices t) ≤ i + rounds →
         same_path_loop (S rounds) i operation t = same_path_loop rounds i operation t.
Proof.
  induction rounds as [|rounds IH]; intros i t Hlen.
  - simpl. rewrite bind_run. simpl.
    rewrite lookup_ge_None_2 by lia. reflexivity.
  - change (same_path_loop (S (S rounds)) i operation t)
      with ((t0 ← get;
             match _devices t0 !! i with
             | None => mret tt
             | Some d =>
                 (if bool_decide (dev_path (deref (heap t0) d)
                                  = dev_path (deref (heap t0) (op_device operation)))
                  then removeDev d false true else mret tt) ;;
                 same_path_loop (S rounds) (S i) operation
             end) t).
    change (same_path_loop (S rounds) i operation t)
      with ((t0 ← get;
             match _devices t0 !! i with
             | None => mret tt
             | Some d =>
                 (if bool_decide (dev_path (deref (heap t0) d)
                                  = dev_path (deref (heap t0) (op_device operation)))
                  then removeDev d false true else mret tt) ;;
                 same_path_loop rounds (S i) operation
             end) t).
    rewrite !bind_run. simpl.
    destruct (_devices t !! i) as [d|]; [|reflexivity].
    rewrite !bind_run.
    destruct (bool_decide _).
    + pose proof (_removeDevice_fields d false true t) as [_ Hd].
      destruct (removeDev d false true t) as [[[]|e] t1]; [|reflexivity].
      apply IH. specialize (Hd eq_refl). simpl in Hd.
      apply list_remove_first_length in Hd. lia.
    + simpl. apply IH. lia.
Qed.

(** [addOperation] appends the operation when it returns normally and
    leaves the log alone when it raises. *)
Lemma addOperation_log (operation : Operation) (t : DeviceTree) :
  ((addOp operation t).1 = Ok tt →
   operations (addOp operation t).2 = operations t ++ [operation])
  ∧ (∀ e, (addOp operation t).1 = Raise e →
     operations (addOp operation t).2 = operations t).
Proof.
  unfold addOperation. rewrite bind_run. simpl.
  set (pre := if _ && negb (bool_decide (op_device operation ∈ _devices t)) then _ else _).
  set (main := if isCreate operation && isDevice operation then _ else _).
  assert (Hpre : keeps_log pre).
  { subst pre. destruct (_ && negb _); [done|].
    destruct (isCreate operation && isDevice operation); [|done].
    apply keeps_log_bind.
    - destruct (bool_decide _); [apply _removeDevice_keeps_log|done].
    - intros _. apply keeps_log_bind; [done|]. intros t0.
      apply remove_same_path_keeps_log. }
  assert (Hmain : keeps_log main).
  { subst main. destruct (isCreate operation && isDevice operation);
      [apply _addDevice_keeps_log|].
    destruct (isDestroy operation && isDevice operation);
      [apply _removeDevice_keeps_log|].
    destruct (isCreate operation && isFormat operation); [|done].
    intros s. rewrite bind_run. simpl.
    destruct (bool_decide _ && py_in _ _); reflexivity. }
  rewrite bind_run. specialize (Hpre t).
  destruct (pre t) as [[[]|e1] t1]; simpl in *; [|split; [done|by intros]].
  rewrite bind_run. specialize (Hmain t1).
  destruct (main t1) as [[[]|e2] t2]; simpl in *.
  - split; [intros _; congruence|done].
  - split; [done|intros; congruence].
Qed.

(** The mountpoint test of [addOperation] never raises: a format-create
    operation on a device of the tree is always registered. *)
Lemma addOperation_create_format (operation : Operation) (t : DeviceTree) :
  isCreate operation && isFormat operation = true →
  op_device operation ∈ _devices t →
  addOp operation t = (Ok tt, set_operations (operations t ++ [operation]) t).
Proof.
  intros Hk Hin.
  assert (Hd : isCreate operation && isDevice operation = false).
  { apply andb_true_iff in Hk as [_ Hf]. unfold isFormat, isDevice in *.
    apply bool_decide_eq_true in Hf. rewrite Hf. apply andb_false_r. }
  assert (Hx : isDestroy operation && isDevice operation = false).
  { apply andb_true_iff in Hk as [_ Hf]. unfold isFormat, isDevice in *.
    apply bool_decide_eq_true in Hf. rewrite Hf. apply andb_false_r. }
  unfold addOperation. rewrite bind_run. simpl.
  rewrite (bool_decide_eq_true_2 _ Hin), andb_false_r, Hd, Hx, Hk.
  rewrite bind_run. simpl. rewrite bind_run. simpl. rewrite bind_run. simpl.
  rewrite py_in_mountpoint_formats, andb_false_r. reflexivity.
Qed.

(** C4 (amended): a proposed device [X], one that the log creates before
    it destroys it: the operations [before] the first create of [X] hold
    no create and no destroy of [X], and what comes [after] them, if
    anything, starts with a create of [X].  When the create operation [c]
    of [X] is registered and immediately followed by the registration of
    its destroy operation [d], pruning returns normally and drops every
    operation on [X] from the first create of [X] through [d]: the
    operations on [X] that it leaves, if any, are among those registered
    before the first create of [X]; [c] and [d] are gone; and when no
    operation on [X] was registered before its first create, no operation
    on [X] is left. *)
Theorem pruneOperations_create_destroy_collapse
    (X : nat) (c d : Operation) (before after : list Operation)
    (t t1 t2 : DeviceTree) :
  NoDup (operations t ++ [c; d]) →
  operations t = before ++ after →
  (∀ o, o ∈ before → ¬ of_kind Create ObjDevice X o ∧ ¬ of_kind Destroy ObjDevice X o) →
  after = [] ∨ (∃ c0 rest, after = c0 :: rest ∧ of_kind Create ObjDevice X c0) →
  of_kind Create ObjDevice X c →
  of_kind Destroy ObjDevice X d →
  addOp c t = (Ok tt, t1) →
  addOp d t1 = (Ok tt, t2) →
  operations t2 = operations t ++ [c; d]
  ∧ ∃ R : list Operation,
      pruneOperations t2
      = (Ok tt, set_operations (filter (λ o, o ∉ R) (operations t ++ [c; d])) t2)
      ∧ (∀ o, o ∈ filter (λ o, o ∉ R) (operations t ++ [c; d]) →
              op_device o = X → o ∈ before)
      ∧ (c ∉ filter (λ o, o ∉ R) (operations t ++ [c; d]))
      ∧ (d ∉ filter (λ o, o ∉ R) (operations t ++ [c; d]))
      ∧ (untouched X before →
         untouched X (filter (λ o, o ∉ R) (operations t ++ [c; d]))).
Proof.
  intros Hnd Hsplit Hbefore Hafter Hc Hd H1 H2.
  assert (Hlog : operations t2 = operations t ++ [c; d]).
  { pose proof (addOperation_log c t) as [L1 _].
    pose proof (addOperation_log d t1) as [L2 _].
    rewrite H1 in L1. rewrite H2 in L2. simpl in *.
    rewrite L2, L1 by done. by rewrite <- (assoc_L (++)). }
  split; [done|].
  assert (Hnd2 : NoDup (operations t2)) by (by rewrite Hlog).
  assert (Hform : ∃ c0 m, operations t2 = before ++ c0 :: m ++ [d]
                          ∧ of_kind Create ObjDevice X c0).
  { rewrite Hlog, Hsplit. destruct Hafter as [->|(c0 & rest & -> & Hc0)].
    - exists c, []. by rewrite app_nil_r.
    - exists c0, (rest ++ [c]). split; [|done].
      by rewrite <- !(assoc_L (++)). }
  destruct Hform as (c0 & m & Hops & Hc0).
  destruct (pruneOperations_collapse_log X c0 d before m t2 Hnd2 Hops Hc0 Hd Hbefore)
    as (R & HR & Hleft).
  rewrite Hlog in HR, Hleft.
  exists R. split; [exact HR|]. split; [exact Hleft|]. split; [|split].
  - intros Hin. destruct (Hbefore c) as [Hn _]; [|by apply Hn].
    apply Hleft; [done|]. by destruct Hc as (_ & _ & ?).
  - intros Hin. destruct (Hbefore d) as [_ Hn]; [|by apply Hn].
    apply Hleft; [done|]. by destruct Hd as (_ & _ & ?).
  - intros Hun o Ho HoX. apply (Hun o); [by apply Hleft|done].
Qed.

(** C9 (amended): cancelling an operation that is not in the log always
    raises.  When the inverse of the operation's structural effect itself
    goes through, it has been applied by the time of the error and stays
    applied: the device of a device-create has left the device list, the
    device of a device-destroy has been appended to it, the format
    operation has been cancelled.  When the inverse itself raises, that is
    the error and the tree is as it was. *)
Theorem removeOperation_unregistered (operation : Operation) (t : DeviceTree) :
  operation ∉ operations t →
  (∃ e t', removeOp operation t = (Raise e, t'))
  ∧ (isCreate operation && isDevice operation = true →
     ∀ t1, removeDev (op_device operation) false true t = (Ok tt, t1) →
       removeOp operation t = (Raise (ValueError "list.remove(x): x not in list"), t1)
       ∧ list_remove_first (op_device operation) (_devices t) = Some (_devices t1))
  ∧ (isDestroy operation && isDevice operation = true →
     ∀ t1, _addDevice (op_device operation) t = (Ok tt, t1) →
       removeOp operation t = (Raise (ValueError "list.remove(x): x not in list"), t1)
       ∧ _devices t1 = _devices t ++ [op_device operation])
  ∧ (isFormat operation
     && (isCreate operation || isMigrate operation || isResize operation) = true →
     removeOp operation t
     = (Raise (ValueError "list.remove(x): x not in list"),
        set_heap (cancel operation (heap t)) t))
  ∧ (isCreate operation && isDevice operation = true →
     ∀ e t1, removeDev (op_device operation) false true t = (Raise e, t1) →
       removeOp operation t = (Raise e, t))
  ∧ (isDestroy operation && isDevice operation = true →
     ∀ e t1, _addDevice (op_device operation) t = (Raise e, t1) →
       removeOp operation t = (Raise e, t)).
Proof.
  intros Hnot.
  assert (Hcd : isCreate operation && isDevice operation = true →
                isDestroy operation && isDevice operation = false).
  { unfold isCreate, isDestroy. intros [Hc _]%andb_true_iff.
    apply bool_decide_eq_true in Hc. rewrite Hc. done. }
  assert (Hfd : isFormat operation = true → isDevice operation = false).
  { unfold isFormat, isDevice. intros Hf%bool_decide_eq_true. rewrite Hf. done. }
  split; [|split; [|split; [|split; [|split]]]].
  - unfold removeOperation. rewrite bind_run.
    destruct (isCreate operation && isDevice operation) eqn:E1.
    { pose proof (_removeDevice_fields (op_device operation) false true t) as [Ho _].
      destruct (removeDev (op_device operation) false true t) as [[[]|e] t1]; [|eauto].
      simpl in Ho. rewrite ops_remove_not_elem by (by rewrite Ho). eauto. }
    destruct (isDestroy operation && isDevice operation) eqn:E2.
    { destruct (_addDevice_cases (op_device operation) t) as [->|[e ->]]; [|eauto].
      rewrite ops_remove_not_elem by done. eauto. }
    destruct (isFormat operation && _); simpl;
      rewrite ops_remove_not_elem by done; eauto.
  - intros E1 t1 H1. unfold removeOperation. rewrite E1.
    pose proof (_removeDevice_fields (op_device operation) false true t) as [Ho Hd].
    rewrite H1 in Ho, Hd. simpl in *.
    rewrite (bind_ok _ _ _ _ _ H1).
    rewrite ops_remove_not_elem by (by rewrite Ho). split; [done|]. by apply Hd.
  - intros E2 t1 H1. unfold removeOperation.
    destruct (isCreate operation && isDevice operation) eqn:E1.
    { rewrite (Hcd eq_refl) in E2. done. }
    rewrite E2.
    destruct (_addDevice_cases (op_device operation) t) as [H|[e H]];
      rewrite H in H1; [|done]. injection H1 as <-.
    rewrite (bind_ok _ _ _ _ _ H).
    rewrite ops_remove_not_elem by done. done.
  - intros E3. unfold removeOperation.
    apply andb_true_iff in E3 as [Hf E3]. rewrite (Hfd Hf), !andb_false_r, Hf, E3.
    simpl. rewrite bind_run. simpl. rewrite ops_remove_not_elem by done. done.
  - intros E1 e t1 H1. unfold removeOperation. rewrite E1.
    rewrite (bind_raise _ _ _ _ _ H1).
    by rewrite (_removeDevice_raise_unchanged _ _ _ _ _ _ H1).
  - intros E2 e t1 H1. unfold removeOperation.
    destruct (isCreate operation && isDevice operation) eqn:E1.
    { rewrite (Hcd eq_refl) in E2. done. }
    rewrite E2.
    destruct (_addDevice_cases (op_device operation) t) as [H|[e' H]];
      rewrite H in H1; [done|]. injection H1 as -> <-.
    by rewrite (bind_raise _ _ _ _ _ H).
Qed.

End CancelFacts.

(** The create of the proposed partition is registered on
    [proposal_tree], and the calls that leave its format-create behind
    return normally. *)
Example create_proposed_registered :
  addOperation no_removePartition no_updateName no_logicalPartitions
    create_proposed proposal_tree = (Ok tt, proposed_tree).
Proof. vm_compute. reflexivity. Qed.

Example orphan_format_create_reached :
  (addOperation no_removePartition no_updateName no_logicalPartitions create_proposed ;;
   addOperation no_removePartition no_updateName no_logicalPartitions
     create_format_proposed ;;
   removeOperation no_removePartition no_updateName no_logicalPartitions no_cancel
     create_proposed) proposal_tree
  = (Ok tt, orphan_tree).
Proof. vm_compute. reflexivity. Qed.

Lemma pruneOperations_create_destroy_collapse_witness :
  operations
    (for_each [create_proposed_again; destroy_proposed]
       (addOperation no_removePartition no_updateName no_logicalPartitions)
       proposed_tree).2
  = operations proposed_tree ++ [create_proposed_again; destroy_proposed]
  ∧ ∃ R : list Operation,
      pruneOperations
        (for_each [create_proposed_again; destroy_proposed]
           (addOperation no_removePartition no_updateName no_logicalPartitions)
           proposed_tree).2
      = (Ok tt, set_operations
                  (filter (λ o, o ∉ R)
                     (operations proposed_tree
                      ++ [create_proposed_again; destroy_proposed]))
                  (for_each [create_proposed_again; destroy_proposed]
                     (addOperation no_removePartition no_updateName
                        no_logicalPartitions) proposed_tree).2)
      ∧ untouched 9
          (filter (λ o, o ∉ R)
             (operations proposed_tree ++ [create_proposed_again; destroy_proposed])).
Proof.
  assert (H1 : NoDup (operations proposed_tree
                      ++ [create_proposed_again; destroy_proposed]))
    by (vm_compute; distinct_ops).
  assert (H2 : operations proposed_tree = operations proposal_tree ++ [create_proposed])
    by reflexivity.
  assert (H3 : ∀ o, o ∈ operations proposal_tree →
                    ¬ of_kind Create ObjDevice 9 o ∧ ¬ of_kind Destroy ObjDevice 9 o).
  { intros o Ho.
    repeat (apply elem_of_cons in Ho as [->|Ho];
            [split; intros (_ & _ & H); discriminate H|]).
    inversion Ho. }
  assert (H4 : [create_proposed] = []
               ∨ ∃ c0 rest, [create_proposed] = c0 :: rest
                            ∧ of_kind Create ObjDevice 9 c0).
  { right. exists create_proposed, []. by repeat split. }
  assert (H5 : of_kind Create ObjDevice 9 create_proposed_again) by (by repeat split).
  assert (H6 : of_kind Destroy ObjDevice 9 destroy_proposed) by (by repeat split).
  pose (t1 := (addOperation no_removePartition no_updateName no_logicalPartitions
                 create_proposed_again proposed_tree).2).
  pose (t2 := (addOperation no_removePartition no_updateName no_logicalPartitions
                 destroy_proposed t1).2).
  assert (H7 : addOperation no_removePartition no_updateName no_logicalPartitions
                 create_proposed_again proposed_tree = (Ok tt, t1))
    by (vm_compute; reflexivity).
  assert (H8 : addOperation no_removePartition no_updateName no_logicalPartitions
                 destroy_proposed t1 = (Ok tt, t2))
    by (vm_compute; reflexivity).
  assert (E : (for_each [create_proposed_again; destroy_proposed]
                 (addOperation no_removePartition no_updateName no_logicalPartitions)
                 proposed_tree).2 = t2).
  { simpl. unfold bind. rewrite H7, H8. reflexivity. }
  assert (H9 : untouched 9 (operations proposal_tree)).
  { intros o Ho.
    repeat (apply elem_of_cons in Ho as [->|Ho]; [discriminate|]).
    inversion Ho. }
  rewrite E.
  destruct (pruneOperations_create_destroy_collapse no_removePartition no_updateName
              no_logicalPartitions 9 create_proposed_again destroy_proposed
              (operations proposal_tree) [create_proposed]
              proposed_tree t1 t2 H1 H2 H3 H4 H5 H6 H7 H8)
    as (Hlog & R & HR & _ & _ & _ & Hun).
  split; [exact Hlog|]. exists R. split; [exact HR|]. exact (Hun H9).
Defined.

(** C4, as stated, fails.  The create of the proposed partition [sda3]
    is registered on [proposal_tree], then the create of a format on it,
    and the create of the partition is cancelled again: the format-create
    stays in the log.  When the partition is then created and destroyed,
    pruning drops its create and its destroy and leaves the format-create
    on it. *)
Lemma create_destroy_collapses_always_fails : ¬ create_destroy_collapses_always.
Proof.
  intros H.
  destruct (H no_removePartition no_updateName no_logicalPartitions 9
              create_proposed destroy_proposed orphan_tree
              (addOperation no_removePartition no_updateName no_logicalPartitions
                 create_proposed orphan_tree).2
              (addOperation no_removePartition no_updateName no_logicalPartitions
                 destroy_proposed
                 (addOperation no_removePartition no_updateName no_logicalPartitions
                    create_proposed orphan_tree).2).2)
    as (t3 & Hp & Hun).
  - vm_compute. distinct_ops.
  - vm_compute. intros Hin.
    repeat (apply elem_of_cons in Hin as [Hin|Hin]; [discriminate Hin|]).
    inversion Hin.
  - vm_compute. reflexivity.
  - intros o Ho (Hty & _).
    vm_compute in Ho.
    repeat (apply elem_of_cons in Ho as [->|Ho]; [discriminate Hty|]).
    inversion Ho.
  - by repeat split.
  - by repeat split.
  - vm_compute. reflexivity.
  - vm_compute. reflexivity.
  - vm_compute in Hp. injection Hp as <-.
    apply (Hun create_format_proposed); [|reflexivity].
    vm_compute. right. left.
Qed.

(** C9, as stated, fails: the never-registered create of the disk [sda]
    of [data_tree], which has two partitions, is refused by the non-forced
    [_removeDevice], and [sda] is still in the tree when the error is
    raised. *)
Lemma cancel_applies_inverse_first_fails : ¬ cancel_applies_inverse_first.
Proof.
  intros H.
  destruct (H no_removePartition no_updateName no_logicalPartitions no_cancel
              create_sda_unregistered data_tree)
    as (e & t' & Hrun & Hgone & _).
  - intros Hin. inversion Hin.
  - vm_compute in Hrun. injection Hrun as _ <-.
    apply Hgone; [exact I|]. by left.
Qed.

Lemma removeOperation_unregistered_witness :
  (create_sda1 ∉ operations sda1_tree)
  ∧ removeOperation no_removePartition no_updateName no_logicalPartitions no_cancel
      create_sda1 sda1_tree
    = (Raise (ValueError "list.remove(x): x not in list"),
       mkTree [1] [] (alter removeChild 1 (heap sda1_tree)))
  ∧ list_remove_first (op_device create_sda1) (_devices sda1_tree) = Some [1].
Proof.
  assert (H1 : create_sda1 ∉ operations sda1_tree) by (intros Hin; inversion Hin).
  assert (H2 : _removeDevice no_removePartition no_updateName no_logicalPartitions
                 (op_device create_sda1) false true sda1_tree
               = (Ok tt, mkTree [1] [] (alter removeChild 1 (heap sda1_tree))))
    by (vm_compute; reflexivity).
  split; [exact H1|].
  destruct (removeOperation_unregistered no_removePartition no_updateName
              no_logicalPartitions no_cancel create_sda1 sda1_tree H1)
    as (_ & Hcreate & _).
  exact (Hcreate eq_refl _ H2).
Defined.

(** ** The execution loop *)

Section ExecutionFacts.

Context {World : Type}.
Variable execute :
  Operation → gmap nat Device * World → option exn * (gmap nat Device * World).
Variable teardown :
  nat → gmap nat Device * World → bool * (gmap nat Device * World).
Variable udev_settle : World → World.
Variable updateName : nat → gmap nat Device → gmap nat Device.

Local Abbreviation exec := (call_execute execute).
Local Abbreviation teardown_all := (teardownAll teardown).
Local Abbreviation run := (run_operations execute teardown udev_settle updateName).
Local Abbreviation one := (process_one execute teardown udev_settle updateName).







End ExecutionFacts.


(** * Further properties of the code *)

(** ** The execution loop, beyond the retry *)

Section ExecutionMore.

Context {World : Type}.
Variable execute :
  Operation → gmap nat Device * World → option exn * (gmap nat Device * World).
Variable teardown :
  nat → gmap nat Device * World → bool * (gmap nat Device * World).
Variable udev_settle : World → World.
Variable updateName : nat → gmap nat Device → gmap nat Device.

Local Abbreviation exec := (call_execute execute).
Local Abbreviation run := (run_operations execute teardown udev_settle updateName).
Local Abbreviation one := (process_one execute teardown udev_settle updateName).
Local Abbreviation sync := (resync udev_settle updateName).




(** A dry run executes nothing: the loop returns normally and the tree,
    the outside system and the record of calls are as before. *)
Lemma run_operations_dry_run (ops : list Operation) (r : Run) :
  run true ops r = (Ok tt, r).
Proof.
  unfold run_operations. apply for_each_skip. intros op _. reflexivity.
Qed.


(** X2: an execution that raises anything but [DiskLabelCommitError] ends
    the commit with that error at once: nothing is torn down, the
    operation is not executed a second time, and no later operation is
    executed. *)
Theorem run_operations_other_error_aborts
    (before after : list Operation) (operation : Operation) (r0 r1 : Run) (e : exn) :
  run false before r0 = (Ok tt, r1) →
  (execute operation (heap (run_tree r1), run_world r1)).1 = Some e →
  isDiskLabelCommitError e = false →
  run false (before ++ operation :: after) r0 = (Raise e, (exec operation r1).2)
  ∧ run_trace (exec operation r1).2 = run_trace r1 ++ [EvExecute operation].
Proof.
  intros Hbefore Hfail He.
  unfold run_operations in *. rewrite for_each_app, Hbefore. simpl for_each.
  unfold bind at 1. unfold process_one. simpl. rewrite bind_run.
  unfold try_except, call_execute.
  destruct (execute operation _) as [res [h w]]. simpl in *. subst res.
  rewrite He. done.
Qed.


End ExecutionMore.


Lemma run_operations_other_error_aborts_witness :
  run_operations mkfs_failing_execute quiet_teardown (λ w, w) no_updateName false
    [destroy_sda1] commit_start
  = (Ok tt, mkRun data_tree 1 [EvExecute destroy_sda1; EvSettle;
                                EvUpdateName 2; EvUpdateName 3])
  ∧ (mkfs_failing_execute create_format_sda2 (heap data_tree, 1)).1
    = Some (OtherError "format failed")
  ∧ isDiskLabelCommitError (OtherError "format failed") = false
  ∧ run_operations mkfs_failing_execute quiet_teardown (λ w, w) no_updateName false
      ([destroy_sda1] ++ create_format_sda2 :: [destroy_sda]) commit_start
    = (Raise (OtherError "format failed"),
       mkRun data_tree 2 [EvExecute destroy_sda1; EvSettle; EvUpdateName 2;
                           EvUpdateName 3; EvExecute create_format_sda2]).
Proof.
  assert (H1 : run_operations mkfs_failing_execute quiet_teardown (λ w, w)
                 no_updateName false [destroy_sda1] commit_start
               = (Ok tt, mkRun data_tree 1 [EvExecute destroy_sda1; EvSettle;
                                             EvUpdateName 2; EvUpdateName 3]))
    by (vm_compute; reflexivity).
  assert (H2 : (mkfs_failing_execute create_format_sda2
                  (heap (run_tree (mkRun data_tree 1
                     [EvExecute destroy_sda1; EvSettle; EvUpdateName 2; EvUpdateName 3])),
                   run_world (mkRun data_tree 1
                     [EvExecute destroy_sda1; EvSettle; EvUpdateName 2; EvUpdateName 3]))).1
               = Some (OtherError "format failed")) by reflexivity.
  assert (H3 : isDiskLabelCommitError (OtherError "format failed") = false) by reflexivity.
  split; [exact H1|]. split; [exact H2|]. split; [exact H3|].
  destruct (run_operations_other_error_aborts mkfs_failing_execute quiet_teardown
              (λ w, w) no_updateName [destroy_sda1] [destroy_sda] create_format_sda2
              commit_start _ _ H1 H2 H3) as [E _].
  rewrite E. vm_compute. reflexivity.
Defined.

(** ** The comparator, branch by branch *)

Lemma cmp_int_antisym (x y : Z) : cmp_int y x = (- cmp_int x y)%Z.
Proof.
  unfold cmp_int. rewrite (Z.compare_antisym x y).
  by destruct (x ?= y)%Z.
Qed.

Lemma cmp_str_antisym (x y : string) : cmp_str y x = (- cmp_str x y)%Z.
Proof.
  unfold cmp_str. rewrite (String.compare_antisym y x).
  by destruct (String.compare x y).
Qed.

Section ComparatorFacts.

Variable dependsOn : gmap nat Device → nat → nat → bool.
Variable h : gmap nat Device.

Local Abbreviation cmp := (cmpOperations dependsOn h).

(** X4: two operations of different types are ordered by their types
    alone, destroy before resize before create before migrate, whatever
    their devices; asked the other way round the comparator answers the
    opposite. *)
Theorem cmpOperations_type_precedence (a1 a2 : Operation) :
  op_type a1 ≠ op_type a2 →
  cmp a1 a2 = (if (type_rank (op_type a1) <? type_rank (op_type a2))%nat
               then (-1)%Z else 1%Z)
  ∧ cmp a2 a1 = (- cmp a1 a2)%Z.
Proof.
  intros Hne. unfold cmpOperations, isDestroy, isResize, isCreate, isMigrate.
  destruct (op_type a1), (op_type a2); try done; simpl; done.
Qed.

(** X5: on one device (one path) the format is destroyed before the
    device and the device is created before its format. *)
Theorem cmpOperations_same_device (destroy_format destroy_device
    create_device create_format : Operation) (d : nat) :
  op_device destroy_format = d → op_device destroy_device = d →
  op_device create_device = d → op_device create_format = d →
  isDestroy destroy_format && isFormat destroy_format = true →
  isDestroy destroy_device && isDevice destroy_device = true →
  isCreate create_device && isDevice create_device = true →
  isCreate create_format && isFormat create_format = true →
  cmp destroy_format destroy_device = (-1)%Z
  ∧ cmp destroy_device destroy_format = 1%Z
  ∧ cmp create_device create_format = (-1)%Z
  ∧ cmp create_format create_device = 1%Z.
Proof.
  intros <- E2 E3 E4 H1 H2 H3 H4.
  apply andb_true_iff in H1 as [T1 O1], H2 as [T2 O2], H3 as [T3 O3], H4 as [T4 O4].
  unfold isDestroy, isCreate, isFormat, isDevice in *.
  apply bool_decide_eq_true in T1, T2, T3, T4, O1, O2, O3, O4.
  unfold cmpOperations, isDestroy, isResize, isCreate, isMigrate, isFormat.
  rewrite E2, E3, E4, T1, T2, T3, T4, O1, O2, O3, O4. simpl.
  rewrite !bool_decide_eq_true_2 by done. done.
Qed.

(** X6: two partitions of one disk, of distinct paths and with no
    dependency between them: the one of the higher partition number is
    destroyed first and created last. *)
Theorem cmpOperations_partition_numbers
    (destroy_lo destroy_hi create_lo create_hi : Operation) (lo hi : nat) :
  op_device destroy_lo = lo → op_device create_lo = lo →
  op_device destroy_hi = hi → op_device create_hi = hi →
  isDestroy destroy_lo = true → isDestroy destroy_hi = true →
  isCreate create_lo = true → isCreate create_hi = true →
  isPartition (deref h lo) = true → isPartition (deref h hi) = true →
  dev_disk (deref h lo) = dev_disk (deref h hi) →
  dev_path (deref h lo) ≠ dev_path (deref h hi) →
  dependsOn h lo hi = false → dependsOn h hi lo = false →
  (pp_number (dev_partedPartition (deref h lo))
   < pp_number (dev_partedPartition (deref h hi)))%Z →
  cmp destroy_hi destroy_lo = (-1)%Z
  ∧ cmp destroy_lo destroy_hi = 1%Z
  ∧ cmp create_lo create_hi = (-1)%Z
  ∧ cmp create_hi create_lo = 1%Z.
Proof.
  intros E1 E2 E3 E4 T1 T2 T3 T4 P1 P2 Hdisk Hpath D1 D2 Hlt.
  assert (Hpath' : dev_path (deref h hi) ≠ dev_path (deref h lo)) by congruence.
  unfold isDestroy, isCreate in *.
  apply bool_decide_eq_true in T1, T2, T3, T4.
  assert (C1 : cmp_int (pp_number (dev_partedPartition (deref h lo)))
                       (pp_number (dev_partedPartition (deref h hi))) = (-1)%Z).
  { unfold cmp_int. by rewrite (proj2 (Z.compare_lt_iff _ _) Hlt). }
  assert (C2 : cmp_int (pp_number (dev_partedPartition (deref h hi)))
                       (pp_number (dev_partedPartition (deref h lo))) = 1%Z).
  { rewrite cmp_int_antisym, C1. done. }
  unfold cmpOperations, isDestroy, isResize, isCreate, isMigrate.
  rewrite E1, E2, E3, E4, T1, T2, T3, T4. simpl.
  rewrite !(bool_decide_eq_false_2 _ Hpath), !(bool_decide_eq_false_2 _ Hpath'),
    D1, D2, P1, P2. simpl.
  rewrite !(bool_decide_eq_true_2 _ Hdisk), !(bool_decide_eq_true_2 _ (eq_sym Hdisk)).
  rewrite C1, C2. done.
Qed.

End ComparatorFacts.

Lemma cmpOperations_same_device_witness :
  cmpOperations no_dependency (heap data_tree) destroy_format_sda2 destroy_sda2 = (-1)%Z
  ∧ cmpOperations no_dependency (heap data_tree) destroy_sda2 destroy_format_sda2 = 1%Z
  ∧ cmpOperations no_dependency (heap data_tree) create_sda2 create_format_sda2 = (-1)%Z
  ∧ cmpOperations no_dependency (heap data_tree) create_format_sda2 create_sda2 = 1%Z.
Proof.
  exact (cmpOperations_same_device no_dependency (heap data_tree)
           destroy_format_sda2 destroy_sda2 create_sda2 create_format_sda2 3
           eq_refl eq_refl eq_refl eq_refl eq_refl eq_refl eq_refl eq_refl).
Defined.

Lemma cmpOperations_type_precedence_witness :
  op_type destroy_sda2 ≠ op_type create_sda1'
  ∧ cmpOperations no_dependency (heap data_tree) destroy_sda2 create_sda1' = (-1)%Z
  ∧ cmpOperations no_dependency (heap data_tree) create_sda1' destroy_sda2 = 1%Z.
Proof.
  assert (H : op_type destroy_sda2 ≠ op_type create_sda1') by discriminate.
  split; [exact H|].
  destruct (cmpOperations_type_precedence no_dependency (heap data_tree)
              destroy_sda2 create_sda1' H) as [E1 E2].
  split; [exact E1|]. rewrite E2, E1. reflexivity.
Defined.

Lemma cmpOperations_partition_numbers_witness :
  isPartition (deref (heap data_tree) 2) = true
  ∧ isPartition (deref (heap data_tree) 3) = true
  ∧ dev_disk (deref (heap data_tree) 2) = dev_disk (deref (heap data_tree) 3)
  ∧ dev_path (deref (heap data_tree) 2) ≠ dev_path (deref (heap data_tree) 3)
  ∧ (pp_number (dev_partedPartition (deref (heap data_tree) 2))
     < pp_number (dev_partedPartition (deref (heap data_tree) 3)))%Z
  ∧ cmpOperations no_dependency (heap data_tree) destroy_sda2 destroy_sda1' = (-1)%Z
  ∧ cmpOperations no_dependency (heap data_tree) destroy_sda1' destroy_sda2 = 1%Z
  ∧ cmpOperations no_dependency (heap data_tree) create_sda1' create_sda2 = (-1)%Z
  ∧ cmpOperations no_dependency (heap data_tree) create_sda2 create_sda1' = 1%Z.
Proof.
  assert (H1 : isPartition (deref (heap data_tree) 2) = true) by (vm_compute; reflexivity).
  assert (H2 : isPartition (deref (heap data_tree) 3) = true) by (vm_compute; reflexivity).
  assert (H3 : dev_disk (deref (heap data_tree) 2) = dev_disk (deref (heap data_tree) 3))
    by (vm_compute; reflexivity).
  assert (H4 : dev_path (deref (heap data_tree) 2) ≠ dev_path (deref (heap data_tree) 3))
    by (vm_compute; discriminate).
  assert (H5 : (pp_number (dev_partedPartition (deref (heap data_tree) 2))
                < pp_number (dev_partedPartition (deref (heap data_tree) 3)))%Z)
    by (vm_compute; reflexivity).
  split; [exact H1|]. split; [exact H2|]. split; [exact H3|]. split; [exact H4|].
  split; [exact H5|].
  exact (cmpOperations_partition_numbers no_dependency (heap data_tree)
           destroy_sda1' destroy_sda2 create_sda1' create_sda2 2 3
           eq_refl eq_refl eq_refl eq_refl eq_refl eq_refl eq_refl eq_refl
           H1 H2 H3 H4 eq_refl eq_refl H5).
Defined.

Section ComparatorAntisymmetry.

Variable dependsOn : gmap nat Device → nat → nat → bool.
Variable h : gmap nat Device.

Local Abbreviation cmp := (cmpOperations dependsOn h).

(** X7: apart from the pairs named in the hypotheses, the comparator
    answers a swapped pair with the opposite sign: for every two
    operations whose devices do not depend on each other mutually, that
    are not two format-creates on one path, and that, if both are resizes,
    go in the same direction. *)
Theorem cmpOperations_antisymmetric (a1 a2 : Operation) :
  dependsOn h (op_device a1) (op_device a2)
  && dependsOn h (op_device a2) (op_device a1) = false →
  isCreate a1 && isCreate a2 && isFormat a1 && isFormat a2
  && bool_decide (dev_path (deref h (op_device a1)) = dev_path (deref h (op_device a2)))
  = false →
  (isResize a1 && isResize a2 = true → isGrow a1 = isGrow a2) →
  cmp a2 a1 = (- cmp a1 a2)%Z.
Proof.
  intros Hdep Hfmt Hgrow.
  unfold cmpOperations, isDestroy, isResize, isCreate, isMigrate, isFormat, isGrow in *.
  destruct a1 as [i1 ty1 ob1 dv1 g1], a2 as [i2 ty2 ob2 dv2 g2]. simpl in *.
  rewrite (cmp_int_antisym (pp_number (dev_partedPartition (deref h dv1)))
                           (pp_number (dev_partedPartition (deref h dv2)))).
  rewrite (cmp_str_antisym (dev_name (deref h dv1)) (dev_name (deref h dv2))).
  generalize dependent (cmp_int (pp_number (dev_partedPartition (deref h dv1)))
                                (pp_number (dev_partedPartition (deref h dv2)))).
  generalize dependent (cmp_str (dev_name (deref h dv1)) (dev_name (deref h dv2))).
  intros cs ci.
  replace (bool_decide (dev_path (deref h dv2) = dev_path (deref h dv1)))
    with (bool_decide (dev_path (deref h dv1) = dev_path (deref h dv2)))
    by (apply bool_decide_ext; split; congruence).
  replace (bool_decide (dev_disk (deref h dv2) = dev_disk (deref h dv1)))
    with (bool_decide (dev_disk (deref h dv1) = dev_disk (deref h dv2)))
    by (apply bool_decide_ext; split; congruence).
  destruct (dependsOn h dv1 dv2), (dependsOn h dv2 dv1); try discriminate Hdep;
    destruct (bool_decide (dev_path (deref h dv1) = dev_path (deref h dv2)));
    destruct ty1, ty2, ob1, ob2; simpl in *; try discriminate Hfmt; try reflexivity;
    try (specialize (Hgrow eq_refl); subst g2);
    repeat match goal with
           | |- context [isPartition ?d] => destruct (isPartition d); simpl
           | |- context [dev_partitioned ?d] => destruct (dev_partitioned d); simpl
           | |- context [bool_decide (dev_disk ?d = dev_disk ?d')] =>
               destruct (bool_decide (dev_disk d = dev_disk d')); simpl
           | |- context [if ?b then _ else _] => is_var b; destruct b; simpl
           end;
    lia.
Qed.

End ComparatorAntisymmetry.

Lemma cmpOperations_antisymmetric_witness :
  cmpOperations no_dependency (heap data_tree) destroy_sda1' destroy_sda2
  = (- cmpOperations no_dependency (heap data_tree) destroy_sda2 destroy_sda1')%Z.
Proof.
  exact (cmpOperations_antisymmetric no_dependency (heap data_tree)
           destroy_sda2 destroy_sda1' eq_refl eq_refl (λ _, eq_refl)).
Defined.

(** ** The device list and its lookups *)

Lemma devices_loop_cases (h : gmap nat Device) (acc rest : list nat) :
  devices_loop h acc rest = Ok (acc ++ rest)
  ∨ devices_loop h acc rest
    = Raise (DeviceTreeError "duplicate paths in device tree").
Proof.
  revert acc. induction rest as [|d rest IH]; intros acc; simpl.
  - left. by rewrite app_nil_r.
  - destruct (_ && _); [by right|].
    rewrite (cons_middle d acc rest), app_assoc. apply IH.
Qed.

Lemma devices_loop_ok (h : gmap nat Device) (acc rest : list nat) :
  devices_loop h acc rest = Ok (acc ++ rest)
  ↔ ∀ l1 d l2, rest = l1 ++ d :: l2 →
      dev_path (deref h d) ∈ (λ e, dev_path (deref h e)) <$> (acc ++ l1) →
      dev_class (deref h d) = ClsNoDevice.
Proof.
  revert acc. induction rest as [|d rest IH]; intros acc; simpl.
  - rewrite app_nil_r. split; [|done]. intros _ [|??] ???; discriminate.
  - destruct (bool_decide (dev_path (deref h d) ∈ _)
              && negb (bool_decide (dev_class (deref h d) = ClsNoDevice))) eqn:E.
    + apply andb_true_iff in E as [Hin Hcls].
      apply bool_decide_eq_true in Hin.
      apply negb_true_iff, bool_decide_eq_false in Hcls.
      split; [discriminate|]. intros H. exfalso. apply Hcls.
      apply (H [] d rest eq_refl). by rewrite app_nil_r.
    + rewrite (cons_middle d acc rest), app_assoc, IH. split.
      * intros H [|x l1] d' l2 Heq Hin; simplify_eq/=.
        -- rewrite app_nil_r in Hin.
           apply andb_false_iff in E as [E|E].
           ++ apply bool_decide_eq_false in E. done.
           ++ by apply negb_false_iff, bool_decide_eq_true in E.
        -- apply (H l1 d' l2 eq_refl).
           by rewrite <- app_assoc.
      * intros H l1 d' l2 -> Hin.
        apply (H (d :: l1) d' l2 eq_refl).
        by rewrite <- app_assoc in Hin.
Qed.

(** X8: reading [devices] never changes the tree.  It returns the whole
    device list exactly when every device whose path is also the path of
    a device before it in the list is a [NoDevice]; otherwise it raises
    the duplicate-paths error. *)
Theorem devices_duplicate_paths (t : DeviceTree) :
  (devices t = (Ok (_devices t), t)
   ∨ devices t = (Raise (DeviceTreeError "duplicate paths in device tree"), t))
  ∧ (devices t = (Ok (_devices t), t)
     ↔ ∀ l1 d l2, _devices t = l1 ++ d :: l2 →
         dev_path (deref (heap t) d) ∈ (λ e, dev_path (deref (heap t) e)) <$> l1 →
         dev_class (deref (heap t) d) = ClsNoDevice).
Proof.
  unfold devices. split.
  - destruct (devices_loop_cases (heap t) [] (_devices t)) as [-> | ->]; auto.
  - rewrite <- (devices_loop_ok (heap t) [] (_devices t)). simpl.
    split; [by intros [= ->]|by intros ->].
Qed.

Lemma NoDup_paths_devices (t : DeviceTree) :
  NoDup (paths t) → devices t = (Ok (_devices t), t).
Proof.
  intros Hnd. unfold devices.
  rewrite (proj2 (devices_loop_ok (heap t) [] (_devices t))); [done|].
  intros l1 d l2 Heq Hin. exfalso. simpl in Hin.
  unfold paths in Hnd. rewrite Heq, fmap_app, fmap_cons in Hnd.
  apply NoDup_app in Hnd as (_ & Hdis & _).
  apply (Hdis _ Hin). left.
Qed.

(** X9: [_addDevice] keeps the paths of the tree distinct: when they
    are and [_addDevice] returns, they still are, the new device is the
    last of the list and [devices] lists the tree without an error. *)
Theorem _addDevice_keeps_paths_distinct (device : nat) (t t' : DeviceTree) :
  NoDup (paths t) →
  _addDevice device t = (Ok tt, t') →
  NoDup (paths t')
  ∧ devices t' = (Ok (_devices t ++ [device]), t').
Proof.
  intros Hnd Hadd.
  destruct (decide (dev_path (deref (heap t) device) ∈ paths t)) as [Hp|Hp].
  { rewrite (_addDevice_duplicate_path _ _ Hp) in Hadd. discriminate. }
  destruct (_addDevice_cases device t) as [E|[e E]]; rewrite E in Hadd; [|discriminate].
  injection Hadd as <-.
  assert (Hnd' : NoDup (paths (set_devices (_devices t ++ [device]) t))).
  { unfold paths. simpl. rewrite fmap_app. apply NoDup_app. split; [done|].
    split; [|apply NoDup_singleton].
    intros p Hin Hin'. apply list_elem_of_singleton in Hin'. by subst. }
  split; [done|]. by rewrite (NoDup_paths_devices _ Hnd').
Qed.

Lemma list_find_app_fresh {A} (P : A → Prop) `{∀ x, Decision (P x)} (l : list A) (x : A) :
  Forall (λ y, ¬ P y) l → P x → list_find P (l ++ [x]) = Some (length l, x).
Proof.
  intros Hl Hx. induction Hl as [|y l Hy Hl IH]; simpl.
  - by rewrite decide_True.
  - rewrite decide_False by done. by rewrite IH.
Qed.

Lemma list_find_app_other {A} (P : A → Prop) `{∀ x, Decision (P x)} (l : list A) (x : A) :
  ¬ P x → snd <$> list_find P (l ++ [x]) = snd <$> list_find P l.
Proof.
  intros Hx. induction l as [|y l IH]; simpl.
  - by rewrite decide_False.
  - destruct (decide (P y)); [done|].
    rewrite <- !option_fmap_compose. 
    destruct (list_find P (l ++ [x])) as [[??]|], (list_find P l) as [[??]|];
      simpl in *; congruence.
Qed.

(** X10: a device that [_addDevice] has added is found by its path, and
    the lookups of all other paths answer as before. *)
Theorem getDeviceByPath_after_addDevice (device : nat) (t t' : DeviceTree) :
  _addDevice device t = (Ok tt, t') →
  dev_path (deref (heap t) device) ≠ "" →
  getDeviceByPath (dev_path (deref (heap t') device)) t' = Some device
  ∧ ∀ path, path ≠ dev_path (deref (heap t) device) →
      getDeviceByPath path t' = getDeviceByPath path t.
Proof.
  intros Hadd Hne.
  destruct (decide (dev_path (deref (heap t) device) ∈ paths t)) as [Hp|Hp].
  { rewrite (_addDevice_duplicate_path _ _ Hp) in Hadd. discriminate. }
  destruct (_addDevice_cases device t) as [E|[e E]]; rewrite E in Hadd; [|discriminate].
  injection Hadd as <-. unfold getDeviceByPath. simpl. split.
  - rewrite (bool_decide_eq_false_2 _ Hne).
    rewrite list_find_app_fresh; [done| |done].
    apply Forall_forall. intros d Hd Heq. apply Hp.
    unfold paths. rewrite <- Heq. apply list_elem_of_fmap. eauto.
  - intros path Hpath. case_bool_decide; [done|].
    apply list_find_app_other. congruence.
Qed.

(** X11: [getDeviceByName] answers with the first device of the list
    that has the name; it finds nothing when the name is empty, even if a
    device of the tree has an empty name, or when no device has the
    name. *)
Theorem getDeviceByName_first (name : string) (t : DeviceTree) :
  match getDeviceByName name t with
  | Some device =>
      name ≠ ""
      ∧ ∃ l1 l2, _devices t = l1 ++ device :: l2
                 ∧ dev_name (deref (heap t) device) = name
                 ∧ ∀ d, d ∈ l1 → dev_name (deref (heap t) d) ≠ name
  | None =>
      name = "" ∨ ∀ d, d ∈ _devices t → dev_name (deref (heap t) d) ≠ name
  end.
Proof.
  unfold getDeviceByName. case_bool_decide as Hn; [by left|].
  destruct (list_find _ _) as [[i d]|] eqn:E; simpl.
  - split; [done|]. apply list_find_Some in E as (Hi & Hd & Hbefore).
    exists (take i (_devices t)), (drop (S i) (_devices t)).
    split; [symmetry; by apply take_drop_middle|]. split; [done|].
    intros e He. apply list_elem_of_lookup in He as [j Hj].
    pose proof (lookup_lt_Some _ _ _ Hj) as Hlt.
    rewrite length_take in Hlt.
    rewrite lookup_take_lt in Hj by lia. apply (Hbefore j e Hj). lia.
  - right. apply list_find_None in E. by apply Forall_forall.
Qed.

Lemma _addDevice_keeps_paths_distinct_witness :
  NoDup (paths proposal_tree)
  ∧ NoDup (paths (set_devices [1; 2; 9] proposal_tree))
  ∧ devices (set_devices [1; 2; 9] proposal_tree)
    = (Ok [1; 2; 9], set_devices [1; 2; 9] proposal_tree).
Proof.
  assert (H1 : NoDup (paths proposal_tree)) by (vm_compute; distinct_ops).
  assert (H2 : _addDevice 9 proposal_tree = (Ok tt, set_devices [1; 2; 9] proposal_tree))
    by (vm_compute; reflexivity).
  split; [exact H1|].
  exact (_addDevice_keeps_paths_distinct 9 proposal_tree
           (set_devices [1; 2; 9] proposal_tree) H1 H2).
Defined.

Lemma getDeviceByPath_after_addDevice_witness :
  getDeviceByPath "/dev/sda3" (set_devices [1; 2; 9] proposal_tree) = Some 9
  ∧ ∀ path, path ≠ "/dev/sda3" →
      getDeviceByPath path (set_devices [1; 2; 9] proposal_tree)
      = getDeviceByPath path proposal_tree.
Proof.
  assert (H1 : _addDevice 9 proposal_tree = (Ok tt, set_devices [1; 2; 9] proposal_tree))
    by (vm_compute; reflexivity).
  assert (H2 : dev_path (deref (heap proposal_tree) 9) ≠ "")
    by (vm_compute; discriminate).
  exact (getDeviceByPath_after_addDevice 9 proposal_tree
           (set_devices [1; 2; 9] proposal_tree) H1 H2).
Defined.

(** ** Adding and removing devices *)

(** The child counts after [for parent in device.parents:
    parent.removeChild()]. *)
Lemma removeChild_loop_run (parents : list nat) (t : DeviceTree) :
  for_each parents
    (λ parent, modify (λ t, set_heap (alter removeChild parent (heap t)) t)) t
  = (Ok tt, set_heap (foldl (λ h parent, alter removeChild parent h) (heap t) parents) t).
Proof.
  revert t. induction parents as [|p l IH]; intros t; simpl.
  - by destruct t.
  - unfold bind. simpl. rewrite IH. by destruct t.
Qed.

Lemma removeChild_deref (h : gmap nat Device) (parent x : nat) :
  dev_path (deref (alter removeChild parent h) x) = dev_path (deref h x)
  ∧ dev_parents (deref (alter removeChild parent h) x) = dev_parents (deref h x)
  ∧ dev_name (deref (alter removeChild parent h) x) = dev_name (deref h x).
Proof.
  unfold deref. rewrite lookup_total_alter.
  destruct (decide (parent = x)) as [->|]; [|done].
  rewrite lookup_total_alt. by destruct (h !! x).
Qed.

Lemma removeChild_loop_deref (parents : list nat) (h : gmap nat Device) (x : nat) :
  dev_path (deref (foldl (λ h parent, alter removeChild parent h) h parents) x)
  = dev_path (deref h x)
  ∧ dev_parents (deref (foldl (λ h parent, alter removeChild parent h) h parents) x)
    = dev_parents (deref h x)
  ∧ dev_name (deref (foldl (λ h parent, alter removeChild parent h) h parents) x)
    = dev_name (deref h x).
Proof.
  revert h. induction parents as [|p l IH]; intros h; simpl; [done|].
  destruct (IH (alter removeChild p h)) as (-> & -> & ->).
  apply removeChild_deref.
Qed.

Section TreeMore.

Variable removePartition : nat → nat → gmap nat Device → gmap nat Device.
Variable updateName : nat → gmap nat Device → gmap nat Device.
Variable logicalPartitions : gmap nat Device → nat → nat.
Variable cancel : Operation → gmap nat Device → gmap nat Device.

Local Abbreviation removeDev := (_removeDevice removePartition updateName logicalPartitions).
Local Abbreviation addOp := (addOperation removePartition updateName logicalPartitions).
Local Abbreviation removeOp :=
  (removeOperation removePartition updateName logicalPartitions cancel).
Local Abbreviation same_path_loop :=
  (remove_same_path removePartition updateName logicalPartitions).

(** [_removeDevice] on a device whose partition table is not involved:
    the device is not a partition that has a disk, or [moddisk] is off. *)
Lemma _removeDevice_plain (device : nat) (force moddisk : bool) (t : DeviceTree)
    (l : list nat) :
  list_remove_first device (_devices t) = Some l →
  isleaf (deref (heap t) device) || force = true →
  dev_disk (deref (heap t) device) = None
  ∨ moddisk && isPartition (deref (heap t) device) = false →
  removeDev device force moddisk t
  = (Ok tt, mkTree l (operations t)
              (foldl (λ h parent, alter removeChild parent h) (heap t)
                     (dev_parents (deref (heap t) device)))).
Proof.
  intros Hl Hleaf Hplain.
  assert (Hin : device ∈ _devices t).
  { destruct (decide (device ∈ _devices t)) as [|Hn]; [done|].
    by rewrite (list_remove_first_not_elem _ _ Hn) in Hl. }
  unfold _removeDevice. rewrite bind_run. simpl.
  rewrite (bool_decide_eq_true_2 _ Hin). simpl.
  replace (negb (isleaf (deref (heap t) device)) && negb force) with false
    by (destruct (isleaf _), force; done).
  rewrite bind_run.
  assert (Hpart : (match dev_disk (deref (heap t) device) with
                   | Some disk =>
                       if moddisk && isPartition (deref (heap t) device) then
                         if pp_extended (dev_partedPartition (deref (heap t) device))
                            && bool_decide (0 < logicalPartitions (heap t) disk)
                         then raise (ValueError "Cannot remove extended partition.  Logical partitions present.")
                         else
                           modify (λ t, set_heap (removePartition disk device (heap t)) t) ;;
                           for_each (_devices t)
                             (λ dev,
                                t ← get;
                                if isPartition (deref (heap t) dev)
                                   && bool_decide (dev_disk (deref (heap t) dev)
                                                   = dev_disk (deref (heap t) device))
                                then modify (λ t, set_heap (updateName dev (heap t)) t)
                                else mret tt)
                       else mret tt
                   | None => mret tt
                   end) t = (Ok tt, t)).
  { destruct Hplain as [-> | Hp]; [done|].
    destruct (dev_disk (deref (heap t) device)); [|done]. by rewrite Hp. }
  rewrite Hpart. simpl. rewrite bind_run. simpl. rewrite Hl.
  rewrite bind_run. simpl. rewrite removeChild_loop_run. reflexivity.
Qed.

(** X12: [_addDevice] either appends the device to the end of the list
    and changes nothing else, or raises and changes nothing at all; it
    appends exactly when the path of the device is not yet in the tree
    and all the parents of the device are. *)
Theorem _addDevice_succeeds_iff (device : nat) (t : DeviceTree) :
  (_addDevice device t = (Ok tt, set_devices (_devices t ++ [device]) t)
   ∨ ∃ e, _addDevice device t = (Raise e, t))
  ∧ (_addDevice device t = (Ok tt, set_devices (_devices t ++ [device]) t)
     ↔ (dev_path (deref (heap t) device) ∉ paths t)
       ∧ ∀ parent, parent ∈ dev_parents (deref (heap t) device) → parent ∈ _devices t).
Proof.
  split; [apply _addDevice_cases|]. split.
  - intros Hok.
    destruct (decide (dev_path (deref (heap t) device) ∈ paths t)) as [Hp|Hp].
    { rewrite (_addDevice_duplicate_path _ _ Hp) in Hok. discriminate. }
    split; [done|].
    destruct (decide (Forall (λ parent, parent ∈ _devices t)
                             (dev_parents (deref (heap t) device)))) as [Hall|Hall].
    { by apply Forall_forall. }
    rewrite (_addDevice_missing_parent device t Hp) in Hok; [discriminate|].
    intros H. by apply Hall, Forall_forall.
  - intros [Hp Hpar]. by apply _addDevice_ok.
Qed.

(** X13: [_removeDevice] either raises and leaves the tree as it was, or
    returns having taken the first occurrence of the device out of the
    list; the log is untouched either way. *)
Theorem _removeDevice_outcome (device : nat) (force moddisk : bool) (t : DeviceTree) :
  (∃ e, removeDev device force moddisk t = (Raise e, t))
  ∨ ∃ t', removeDev device force moddisk t = (Ok tt, t')
          ∧ list_remove_first device (_devices t) = Some (_devices t')
          ∧ operations t' = operations t.
Proof.
  destruct (_removeDevice_fields removePartition updateName logicalPartitions
              device force moddisk t) as [Hops Hdev].
  destruct (removeDev device force moddisk t) as [[[]|e] t'] eqn:E.
  - right. exists t'. simpl in *. auto.
  - left. exists e.
    by rewrite (_removeDevice_raise_unchanged removePartition updateName
                  logicalPartitions device force moddisk t t' e E).
Qed.

(** X14: a forced removal that leaves the partition table alone removes
    a device of the tree whether or not it has children.  The children
    stay in the tree and go on naming the removed device as their
    parent, and a device that was listed once is gone. *)
Theorem _removeDevice_forced_orphans (device : nat) (t : DeviceTree) :
  device ∈ _devices t →
  ∃ t', removeDev device true false t = (Ok tt, t')
        ∧ list_remove_first device (_devices t) = Some (_devices t')
        ∧ (∀ c, c ≠ device → c ∈ getChildren device t → c ∈ getChildren device t')
        ∧ (NoDup (_devices t) → device ∉ _devices t').
Proof.
  intros Hin.
  destruct (list_remove_first_elem device (_devices t) Hin) as [l Hl].
  eexists. split.
  { apply (_removeDevice_plain device true false t l Hl).
    - apply orb_true_r.
    - by right. }
  simpl. split; [done|]. split.
  - intros c Hc Hchild. unfold getChildren in *. simpl.
    apply list_elem_of_filter in Hchild as [Hpar Hcin].
    apply list_elem_of_filter. split.
    + by rewrite (proj1 (proj2 (removeChild_loop_deref _ _ _))).
    + clear -Hl Hc Hcin. revert l Hl. induction (_devices t) as [|y l' IH]; intros l Hl.
      { inversion Hcin. }
      simpl in Hl. destruct (decide (y = device)) as [->|Hy].
      * injection Hl as <-. apply elem_of_cons in Hcin as [?|?]; done.
      * destruct (list_remove_first device l') as [l''|] eqn:E; [|done].
        injection Hl as <-. apply elem_of_cons in Hcin as [->|Hcin]; [left|].
        right. by apply IH.
  - intros Hnd. rewrite (list_remove_first_NoDup _ _ Hnd Hin) in Hl.
    injection Hl as <-. intros Hx. by apply list_elem_of_filter in Hx as [? _].
Qed.

(** *** Registering and cancelling *)

Lemma remove_same_path_none (operation : Operation) (rounds i : nat) (t : DeviceTree) :
  dev_path (deref (heap t) (op_device operation)) ∉ paths t →
  same_path_loop rounds i operation t = (Ok tt, t).
Proof.
  intros Hp. revert i. induction rounds as [|rounds IH]; intros i; simpl; [done|].
  rewrite bind_run. simpl.
  destruct (_devices t !! i) as [d|] eqn:E; [|done].
  rewrite bind_run. rewrite bool_decide_eq_false_2; [apply IH|].
  intros Heq. apply Hp. rewrite <- Heq. unfold paths.
  apply list_elem_of_fmap. exists d. split; [done|].
  by apply list_elem_of_lookup_2 in E.
Qed.

Lemma _removeDevice_returns (device : nat) (force moddisk : bool) (t : DeviceTree) :
  device ∈ _devices t →
  isleaf (deref (heap t) device) || force = true →
  pp_extended (dev_partedPartition (deref (heap t) device)) = false →
  (removeDev device force moddisk t).1 = Ok tt.
Proof.
  intros Hin Hleaf Hext.
  unfold _removeDevice. rewrite bind_run. simpl.
  rewrite (bool_decide_eq_true_2 _ Hin). simpl.
  replace (negb (isleaf (deref (heap t) device)) && negb force) with false
    by (destruct (isleaf _), force; done).
  rewrite Hext. simpl.
  set (part := match dev_disk (deref (heap t) device) with
               | Some disk => _ | None => _ end).
  assert (Hpart : (part t).1 = Ok tt ∧ _devices (part t).2 = _devices t).
  { subst part. destruct (dev_disk (deref (heap t) device)) as [disk|]; [|done].
    destruct (moddisk && isPartition (deref (heap t) device)); [|done].
    rewrite bind_run. simpl.
    set (loop := for_each _ _).
    split.
    - apply for_each_returns. intros dev s. rewrite bind_run. simpl.
      by destruct (isPartition _ && _).
    - apply (for_each_preserves (λ s, _devices s = _devices t)); [|done].
      intros dev s Hs. rewrite bind_run. simpl.
      by destruct (isPartition _ && _). }
  rewrite bind_run. destruct Hpart as [Hok Hd].
  destruct (part t) as [[[]|e0] t1]; simpl in *; [|done].
  rewrite bind_run. simpl. rewrite Hd.
  destruct (list_remove_first_elem device (_devices t) Hin) as [l ->].
  rewrite bind_run. simpl. rewrite removeChild_loop_run. done.
Qed.

Lemma isCreate_isDevice_kind (operation : Operation) :
  isCreate operation && isDevice operation = true →
  isDestroy operation = false ∧ isResize operation = false
  ∧ isFormat operation = false ∧ isMigrate operation = false.
Proof.
  unfold isCreate, isDevice, isDestroy, isResize, isFormat, isMigrate.
  intros [Ht Ho]%andb_true_iff. apply bool_decide_eq_true in Ht, Ho.
  rewrite Ht, Ho. done.
Qed.

Lemma isDestroy_isDevice_kind (operation : Operation) :
  isDestroy operation && isDevice operation = true →
  isCreate operation = false ∧ isResize operation = false
  ∧ isFormat operation = false ∧ isMigrate operation = false.
Proof.
  unfold isCreate, isDevice, isDestroy, isResize, isFormat, isMigrate.
  intros [Ht Ho]%andb_true_iff. apply bool_decide_eq_true in Ht, Ho.
  rewrite Ht, Ho. done.
Qed.

(** Registering the create operation of a device that is new to the
    tree, path included. *)
Lemma addOperation_create_device_fresh (operation : Operation) (t : DeviceTree) :
  isCreate operation && isDevice operation = true →
  dev_path (deref (heap t) (op_device operation)) ∉ paths t →
  (∀ parent, parent ∈ dev_parents (deref (heap t) (op_device operation)) →
             parent ∈ _devices t) →
  addOp operation t
  = (Ok tt, mkTree (_devices t ++ [op_device operation])
                   (operations t ++ [operation]) (heap t)).
Proof.
  intros Hk Hp Hpar.
  assert (Hnin : op_device operation ∉ _devices t).
  { intros Hin. apply Hp. unfold paths. apply list_elem_of_fmap. eauto. }
  destruct (isCreate_isDevice_kind _ Hk) as (Hd & Hr & Hf & _).
  apply andb_true_iff in Hk as [Hc Hdev].
  unfold addOperation. rewrite bind_run. simpl.
  rewrite Hd, Hr, Hf, Hc, Hdev, (bool_decide_eq_false_2 _ Hnin). simpl.
  rewrite bind_run. rewrite bind_run. simpl. rewrite bind_run. simpl.
  rewrite (remove_same_path_none _ _ _ _ Hp).
  rewrite bind_run. rewrite (_addDevice_ok _ _ Hp Hpar). reflexivity.
Qed.

(** X15: registering the create operation of a device that is new to the
    tree and cancelling it again gives back the device list and the log
    as they were. *)
Theorem removeOperation_undoes_create (operation : Operation) (t : DeviceTree) :
  isCreate operation && isDevice operation = true →
  dev_path (deref (heap t) (op_device operation)) ∉ paths t →
  (∀ parent, parent ∈ dev_parents (deref (heap t) (op_device operation)) →
             parent ∈ _devices t) →
  isleaf (deref (heap t) (op_device operation)) = true →
  pp_extended (dev_partedPartition (deref (heap t) (op_device operation))) = false →
  operation ∉ operations t →
  ∃ t1 t2,
    addOp operation t = (Ok tt, t1)
    ∧ _devices t1 = _devices t ++ [op_device operation]
    ∧ operations t1 = operations t ++ [operation]
    ∧ removeOp operation t1 = (Ok tt, t2)
    ∧ _devices t2 = _devices t
    ∧ operations t2 = operations t.
Proof.
  intros Hk Hp Hpar Hleaf Hext Hnew.
  assert (Hnin : op_device operation ∉ _devices t).
  { intros Hin. apply Hp. unfold paths. apply list_elem_of_fmap. eauto. }
  pose proof (addOperation_create_device_fresh operation t Hk Hp Hpar) as Hadd.
  set (t1 := mkTree _ _ _) in Hadd.
  assert (Hin1 : op_device operation ∈ _devices t1).
  { simpl. apply elem_of_app. right. left. }
  pose proof (_removeDevice_returns (op_device operation) false true t1 Hin1) as Hret.
  destruct (_removeDevice_fields removePartition updateName logicalPartitions
              (op_device operation) false true t1) as [Hops Hdev].
  destruct (removeDev (op_device operation) false true t1) as [r t2] eqn:E.
  simpl in Hret, Hops, Hdev.
  rewrite Hret in * by (by rewrite ?Hleaf, ?Hext).
  specialize (Hdev eq_refl).
  rewrite (list_remove_first_app_fresh _ _ [] Hnin) in Hdev. simpl in Hdev.
  rewrite app_nil_r in Hdev. injection Hdev as Hdev.
  exists t1, (set_operations (operations t) t2).
  split; [exact Hadd|]. split; [done|]. split; [done|].
  unfold removeOperation. rewrite Hk. rewrite bind_run, E.
  unfold ops_remove. rewrite Hops.
  rewrite (list_remove_first_app_fresh _ _ [] Hnew). simpl. rewrite app_nil_r.
  done.
Qed.

Lemma NoDup_fmap_filter_ne {A B} `{EqDecision A} (f : A → B) (x : A) (l : list A) :
  NoDup (f <$> l) → x ∈ l → f x ∉ f <$> filter (λ y, y ≠ x) l.
Proof.
  induction l as [|y l IH]; intros Hnd Hin; [inversion Hin|].
  rewrite fmap_cons in Hnd. apply NoDup_cons in Hnd as [Hy Hnd].
  destruct (decide (y = x)) as [->|Hne].
  - rewrite filter_cons_False by (intros Hc; by apply Hc).
    intros Hc. apply Hy. apply list_elem_of_fmap in Hc as (z & Hz & Hzin).
    apply list_elem_of_filter in Hzin as [_ Hzin].
    apply list_elem_of_fmap. eauto.
  - apply elem_of_cons in Hin as [->|Hin]; [done|].
    rewrite filter_cons_True by done. rewrite fmap_cons.
    intros [Hc|Hc]%elem_of_cons.
    + apply Hy. rewrite <- Hc. apply list_elem_of_fmap. eauto.
    + by apply IH.
Qed.

(** X16: registering the destroy operation of a leaf whose partition
    table is not involved and cancelling it again gives back the log,
    but not the order of the device list: the device comes back as the
    last of the list. *)
Theorem removeOperation_readds_at_end (operation : Operation) (t : DeviceTree) :
  isDestroy operation && isDevice operation = true →
  op_device operation ∈ _devices t →
  NoDup (paths t) →
  isleaf (deref (heap t) (op_device operation)) = true →
  dev_disk (deref (heap t) (op_device operation)) = None
  ∨ isPartition (deref (heap t) (op_device operation)) = false →
  (∀ parent, parent ∈ dev_parents (deref (heap t) (op_device operation)) →
             parent ∈ _devices t ∧ parent ≠ op_device operation) →
  operation ∉ operations t →
  ∃ t1 t2,
    addOp operation t = (Ok tt, t1)
    ∧ _devices t1 = filter (λ d, d ≠ op_device operation) (_devices t)
    ∧ operations t1 = operations t ++ [operation]
    ∧ removeOp operation t1 = (Ok tt, t2)
    ∧ _devices t2
      = filter (λ d, d ≠ op_device operation) (_devices t) ++ [op_device operation]
    ∧ operations t2 = operations t.
Proof.
  intros Hk Hin Hnd Hleaf Hplain Hpar Hnew.
  destruct (isDestroy_isDevice_kind _ Hk) as (Hc & Hr & Hf & _).
  pose proof Hk as [Hd Hdev]%andb_true_iff.
  assert (Hndd : NoDup (_devices t)) by (by apply NoDup_fmap_1 in Hnd).
  pose proof (list_remove_first_NoDup _ _ Hndd Hin) as Hl.
  set (l := filter (λ d, d ≠ op_device operation) (_devices t)) in *.
  set (h' := foldl (λ h parent, alter removeChild parent h) (heap t)
               (dev_parents (deref (heap t) (op_device operation)))).
  assert (Hadd : addOp operation t
                 = (Ok tt, mkTree l (operations t ++ [operation]) h')).
  { unfold addOperation. rewrite bind_run. simpl.
    rewrite Hc, Hd, Hdev, (bool_decide_eq_true_2 _ Hin). simpl.
    rewrite bind_run. simpl. rewrite bind_run.
    rewrite (_removeDevice_plain (op_device operation) false true t l Hl).
    - reflexivity.
    - by rewrite Hleaf.
    - destruct Hplain as [?| ->]; auto. }
  exists (mkTree l (operations t ++ [operation]) h'). eexists.
  split; [exact Hadd|]. split; [done|]. split; [done|].
  unfold removeOperation. rewrite Hc, Hk. simpl. rewrite bind_run.
  rewrite _addDevice_ok.
  - simpl. unfold ops_remove. simpl.
    rewrite (list_remove_first_app_fresh _ _ [] Hnew). simpl. rewrite app_nil_r.
    split; [reflexivity|]. done.
  - simpl.
    assert (Hfm : (λ d, dev_path (deref h' d)) <$> l
                  = (λ d, dev_path (deref (heap t) d)) <$> l).
    { apply list_fmap_ext. intros i x _. apply removeChild_loop_deref. }
    rewrite Hfm. subst h'. rewrite (proj1 (removeChild_loop_deref _ _ _)).
    by apply (NoDup_fmap_filter_ne (λ d, dev_path (deref (heap t) d))).
  - simpl. subst h'. rewrite (proj1 (proj2 (removeChild_loop_deref _ _ _))).
    intros parent Hparent. destruct (Hpar parent Hparent) as [Hpin Hpne].
    apply list_elem_of_filter. done.
Qed.

(** X17: whatever the operation, [addOperation] puts it at the end of
    the log when it returns and leaves the log as it was when it
    raises. *)
Theorem addOperation_appends_or_keeps_log (operation : Operation) (t : DeviceTree) :
  (∃ t', addOp operation t = (Ok tt, t')
         ∧ operations t' = operations t ++ [operation])
  ∨ (∃ e t', addOp operation t = (Raise e, t')
             ∧ operations t' = operations t).
Proof.
  destruct (addOperation_log removePartition updateName logicalPartitions operation t)
    as [Hok Hraise].
  destruct (addOp operation t) as [[[]|e] t'] eqn:E; simpl in *.
  - left. eauto.
  - right. eauto.
Qed.

(** X18: for every operation other than the create or the destroy of a
    device, registration looks at one thing only, whether the device is
    in the tree, and not even at that for a migrate operation: the
    operation is appended to the log and nothing else changes, or the
    error is raised and nothing changes. *)
Theorem addOperation_format_or_resize (operation : Operation) (t : DeviceTree) :
  isDevice operation && (isCreate operation || isDestroy operation) = false →
  addOp operation t
  = if isMigrate operation || bool_decide (op_device operation ∈ _devices t)
    then (Ok tt, set_operations (operations t ++ [operation]) t)
    else (Raise (DeviceTreeError "device is not in the tree"), t).
Proof.
  intros Hk.
  destruct (bool_decide (op_device operation ∈ _devices t)) eqn:Hin.
  - rewrite orb_true_r.
    destruct (isCreate operation && isFormat operation) eqn:Hcf.
    { apply addOperation_create_format; [done|]. by apply bool_decide_eq_true in Hin. }
    unfold addOperation. rewrite bind_run. simpl. rewrite Hin, andb_false_r.
    revert Hk Hcf. unfold isDevice, isCreate, isDestroy, isFormat.
    destruct (op_type operation), (op_obj operation); simpl; try done.
  - rewrite orb_false_r.
    unfold addOperation. rewrite bind_run. simpl. rewrite Hin.
    revert Hk. unfold isDevice, isCreate, isDestroy, isFormat, isResize, isMigrate.
    destruct (op_type operation), (op_obj operation); simpl; try done.
Qed.

End TreeMore.

Lemma _removeDevice_forced_orphans_witness :
  ∃ t', _removeDevice no_removePartition no_updateName no_logicalPartitions
          1 true false data_tree = (Ok tt, t')
        ∧ list_remove_first 1 (_devices data_tree) = Some (_devices t')
        ∧ (∀ c, c ≠ 1 → c ∈ getChildren 1 data_tree → c ∈ getChildren 1 t')
        ∧ (NoDup (_devices data_tree) → 1 ∉ _devices t').
Proof.
  assert (H : 1 ∈ _devices data_tree) by left.
  exact (_removeDevice_forced_orphans no_removePartition no_updateName
           no_logicalPartitions 1 data_tree H).
Defined.

Lemma removeOperation_undoes_create_witness :
  ∃ t1 t2,
    addOperation no_removePartition no_updateName no_logicalPartitions
      create_proposed proposal_tree = (Ok tt, t1)
    ∧ _devices t1 = _devices proposal_tree ++ [op_device create_proposed]
    ∧ operations t1 = operations proposal_tree ++ [create_proposed]
    ∧ removeOperation no_removePartition no_updateName no_logicalPartitions no_cancel
        create_proposed t1 = (Ok tt, t2)
    ∧ _devices t2 = _devices proposal_tree
    ∧ operations t2 = operations proposal_tree.
Proof.
  assert (H1 : isCreate create_proposed && isDevice create_proposed = true)
    by reflexivity.
  assert (H2 : dev_path (deref (heap proposal_tree) (op_device create_proposed))
               ∉ paths proposal_tree).
  { vm_compute. intros H.
    repeat (apply elem_of_cons in H as [H|H]; [discriminate H|]). inversion H. }
  assert (H3 : ∀ parent,
             parent ∈ dev_parents (deref (heap proposal_tree) (op_device create_proposed)) →
             parent ∈ _devices proposal_tree).
  { intros parent H. vm_compute in H. apply list_elem_of_singleton in H as ->. left. }
  assert (H4 : isleaf (deref (heap proposal_tree) (op_device create_proposed)) = true)
    by (vm_compute; reflexivity).
  assert (H5 : pp_extended (dev_partedPartition
                 (deref (heap proposal_tree) (op_device create_proposed))) = false)
    by (vm_compute; reflexivity).
  assert (H6 : create_proposed ∉ operations proposal_tree).
  { intros H. vm_compute in H.
    repeat (apply elem_of_cons in H as [H|H]; [discriminate H|]). inversion H. }
  exact (removeOperation_undoes_create no_removePartition no_updateName
           no_logicalPartitions no_cancel create_proposed proposal_tree
           H1 H2 H3 H4 H5 H6).
Defined.

Lemma removeOperation_readds_at_end_witness :
  ∃ t1 t2,
    addOperation no_removePartition no_updateName no_logicalPartitions
      destroy_sda two_disks_tree = (Ok tt, t1)
    ∧ _devices t1 = [2]
    ∧ operations t1 = [destroy_sda]
    ∧ removeOperation no_removePartition no_updateName no_logicalPartitions no_cancel
        destroy_sda t1 = (Ok tt, t2)
    ∧ _devices t2 = [2; 1]
    ∧ operations t2 = [].
Proof.
  assert (H1 : isDestroy destroy_sda && isDevice destroy_sda = true) by reflexivity.
  assert (H2 : op_device destroy_sda ∈ _devices two_disks_tree) by left.
  assert (H3 : NoDup (paths two_disks_tree)) by (vm_compute; distinct_ops).
  assert (H4 : isleaf (deref (heap two_disks_tree) (op_device destroy_sda)) = true)
    by (vm_compute; reflexivity).
  assert (H5 : dev_disk (deref (heap two_disks_tree) (op_device destroy_sda)) = None
               ∨ isPartition (deref (heap two_disks_tree) (op_device destroy_sda)) = false)
    by (left; vm_compute; reflexivity).
  assert (H6 : ∀ parent,
             parent ∈ dev_parents (deref (heap two_disks_tree) (op_device destroy_sda)) →
             parent ∈ _devices two_disks_tree ∧ parent ≠ op_device destroy_sda).
  { intros parent H. vm_compute in H. inversion H. }
  assert (H7 : destroy_sda ∉ operations two_disks_tree).
  { intros H. inversion H. }
  exact (removeOperation_readds_at_end no_removePartition no_updateName
           no_logicalPartitions no_cancel destroy_sda two_disks_tree
           H1 H2 H3 H4 H5 H6 H7).
Defined.

Lemma addOperation_format_or_resize_witness :
  addOperation no_removePartition no_updateName no_logicalPartitions
    migrate_proposed proposal_tree
  = (Ok tt, set_operations (operations proposal_tree ++ [migrate_proposed]) proposal_tree)
  ∧ addOperation no_removePartition no_updateName no_logicalPartitions
      destroy_format_sda2 proposal_tree
    = (Raise (DeviceTreeError "device is not in the tree"), proposal_tree).
Proof.
  split.
  - exact (addOperation_format_or_resize no_removePartition no_updateName
             no_logicalPartitions migrate_proposed proposal_tree eq_refl).
  - exact (addOperation_format_or_resize no_removePartition no_updateName
             no_logicalPartitions destroy_format_sda2 proposal_tree eq_refl).
Defined.

(** ** More on pruning *)

(** X19: on a log of distinct operations pruning always returns.  It
    leaves the devices and their objects alone, and what it leaves of the
    log is a sub-list of it: nothing is added, nothing reordered. *)
Theorem pruneOperations_only_drops (t : DeviceTree) :
  NoDup (operations t) →
  ∃ t', pruneOperations t = (Ok tt, t')
        ∧ _devices t' = _devices t
        ∧ heap t' = heap t
        ∧ operations t' `sublist_of` operations t
        ∧ NoDup (operations t').
Proof.
  intros Hnd. destruct (pruneOperations_drops t Hnd) as [R HR].
  eexists. split; [exact HR|]. simpl. split; [done|]. split; [done|].
  split; [apply sublist_filter|by apply NoDup_filter].
Qed.

(** X20: on a device whose device and format no operation of the log
    creates or destroys, pruning leaves of the migrate operations of the
    format the last one only. *)
Theorem pruneOperations_keeps_last_migrate (X : nat) (r : Operation) (t : DeviceTree) :
  NoDup (operations t) →
  no_lifecycle X (operations t) →
  last (filter (of_kind Migrate ObjFormat X) (operations t)) = Some r →
  ∃ R : list Operation,
    pruneOperations t = (Ok tt, set_operations (filter (λ o, o ∉ R) (operations t)) t)
    ∧ filter (of_kind Migrate ObjFormat X) (filter (λ o, o ∉ R) (operations t)) = [r].
Proof.
  intros Hnd Hno Hlast.
  set (K := of_kind Migrate ObjFormat X).
  set (c := filter K (operations t)) in *.
  set (P0 := λ l, no_lifecycle X l ∧ filter K l = c).
  set (P1 := λ l, no_lifecycle X l ∧ filter K l = [r]).
  assert (HKX : ∀ o, K o → op_device o = X) by (by intros o (_ & _ & ?)).
  assert (Hsub : ∀ l (R : list Operation),
            no_lifecycle X l → no_lifecycle X (filter (λ o, o ∉ R) l))
    by apply no_lifecycle_sublog.
  assert (Hres : ∀ object, prunes P0
                  (prune_pass Resize object (prune_keep_last Resize object)) P0).
  { intros object. apply keep_last_pass_frame; [done|].
    intros o (Ho & _) (Ho' & _). congruence. }
  assert (Hall : prunes P0 pruneOperations P1).
  { unfold pruneOperations.
    apply (prunes_seq P0 P0).
    { apply lifecycle_pass_frame; [by right|done|].
      intros t' Hnd'. destruct (destroy_device_pass_ok t' Hnd') as (R & ? & Hw).
      exists R. split; [done|]. intros o Ho. destruct (Hw o Ho) as (a & ?). kinds. }
    apply (prunes_seq P0 P0).
    { apply lifecycle_pass_frame; [by left|done|].
      intros t' Hnd'. destruct (create_device_pass_ok t' Hnd') as (R & ? & Hw).
      exists R. split; [done|]. intros o Ho. destruct (Hw o Ho) as (a & ?). kinds. }
    apply (prunes_seq P0 P0); [apply Hres|].
    apply (prunes_seq P0 P0).
    { apply lifecycle_pass_frame; [by right|done|].
      intros t' Hnd'. destruct (destroy_format_pass_ok t' Hnd') as (R & ? & Hw).
      exists R. split; [done|]. intros o Ho. destruct (Hw o Ho) as (a & ?). kinds. }
    apply (prunes_seq P0 P0).
    { apply lifecycle_pass_frame; [by left|done|].
      intros t' Hnd'. destruct (create_format_pass_ok t' Hnd') as (R & ? & Hw).
      exists R. split; [done|]. intros o Ho. destruct (Hw o Ho) as (a & ?). kinds. }
    apply (prunes_seq P0 P0); [apply Hres|].
    by apply keep_last_pass_match. }
  destruct (Hall t Hnd) as (R & HR & _ & E); [done|].
  exists R. done.
Qed.

(** *** A single destroy of an existing device *)

(** The round of the device-destroy pass on the only destroy of a device
    that the log does not create: it drops the resizes of the device and
    the operations on its format other than destroys, wherever they are
    in the log. *)
Lemma prune_destroy_device_single (X : nat) (d : Operation) (t : DeviceTree) :
  NoDup (operations t) →
  filter (of_kind Destroy ObjDevice X) (operations t) = [d] →
  filter (of_kind Create ObjDevice X) (operations t) = [] →
  prune_destroy_device d t
  = drops (filter (λ o, isResize o || (isFormat o && negb (isDestroy o)))
             (filter (λ o, op_device o = X) (operations t))) t.
Proof.
  intros Hnd Hd Hc.
  assert (Hdin : d ∈ filter (of_kind Destroy ObjDevice X) (operations t))
    by (rewrite Hd; left).
  apply list_elem_of_filter in Hdin as [(Hty & Hob & HX) Hdin].
  unfold prune_destroy_device.
  rewrite (bind_ok _ _ _ _ _ (ops_contains_run d t)).
  rewrite (bool_decide_eq_true_2 _ Hdin). simpl.
  assert (Hrange : destroy_range ObjDevice d t = (Ok None, t)).
  { unfold destroy_range. rewrite HX.
    rewrite (bind_ok _ _ _ _ _ (findOperations_kind _ _ _ t)), filter_kind_of_kind, Hd.
    rewrite (bind_ok _ _ _ _ _ (findOperations_kind _ _ _ t)), filter_kind_of_kind, Hc.
    reflexivity. }
  rewrite (bind_ok _ _ _ _ _ Hrange). rewrite HX.
  rewrite (bind_ok _ _ _ _ _ (findOperations_device X t)).
  rewrite filter_device_of_kind.
  set (kept := filter _ (filter _ (operations t))).
  assert (Hsub : kept `sublist_of` operations t).
  { subst kept. etrans; apply sublist_filter. }
  destruct kept as [|o0 kept'] eqn:E; [apply drops_nil|].
  rewrite <- E in *.
  assert (Hsub' := Hsub). rewrite E in Hsub'.
  apply sublist_cons_l in Hsub' as (pre & L2 & Hops & Hsub2).
  assert (Ho0 : o0 ∉ pre).
  { rewrite Hops in Hnd. apply NoDup_app in Hnd as (_ & Hdis & _).
    intros Hin. apply (Hdis o0 Hin). left. }
  assert (Hi0 : ops_index o0 t = (Ok (length pre), t)).
  { unfold ops_index. by rewrite Hops, list_index_app_fresh. }
  rewrite (bind_ok _ _ _ _ _ Hi0).
  destruct (last_elem_of kept o0) as [ol Hol]; [rewrite E; left|].
  rewrite (bind_ok _ _ _ _ _ (list_last_run _ _ t Hol)).
  apply (remove_through_all kept pre (o0 :: L2)); try done.
  rewrite E. by apply sublist_skip.
Qed.

Lemma filter_nil_not_elem {A} (P : A → Prop) `{∀ y, Decision (P y)} (l : list A) (x : A) :
  filter P l = [] → x ∈ l → ¬ P x.
Proof.
  intros Hnil Hin HP.
  assert (Hx : x ∈ filter P l) by (by apply list_elem_of_filter).
  rewrite Hnil in Hx. inversion Hx.
Qed.

(** The device-destroy pass on a log that holds one destroy of the
    device [X] and does not create it. *)
Lemma destroy_device_pass_single (X : nat) (d : Operation) (t : DeviceTree) :
  NoDup (operations t) →
  filter (of_kind Destroy ObjDevice X) (operations t) = [d] →
  filter (of_kind Create ObjDevice X) (operations t) = [] →
  ∃ R : list Operation,
    prune_pass Destroy ObjDevice prune_destroy_device t = drops R t
    ∧ (∀ o, o ∈ R → op_device o = X →
            isResize o || (isFormat o && negb (isDestroy o)))
    ∧ (∀ o, o ∈ operations t → op_device o = X →
            isResize o || (isFormat o && negb (isDestroy o)) → o ∈ R).
Proof.
  intros Hnd Hd Hc.
  assert (Hdin : d ∈ filter (of_kind Destroy ObjDevice X) (operations t))
    by (rewrite Hd; left).
  apply list_elem_of_filter in Hdin as [(Hty & Hob & HX) Hdin].
  unfold prune_pass. rewrite (bind_ok _ _ _ _ _ (findOperations_all_of _ _ t)).
  set (visited := filter _ (operations t)).
  assert (Hvis : ∀ a, a ∈ visited ↔ (op_type a = Destroy ∧ op_obj a = ObjDevice)
                                     ∧ a ∈ operations t).
  { intros a. subst visited. rewrite list_elem_of_filter, op_matches_iff.
    unfold passes. tauto. }
  assert (Hndv : NoDup visited) by (by apply NoDup_filter).
  assert (Hdv : d ∈ visited) by (by apply Hvis).
  apply list_elem_of_split in Hdv as (l1 & l2 & Hsplit).
  rewrite Hsplit in Hndv.
  pose proof Hndv as (_ & Hdis & [Hd2 _]%NoDup_cons)%NoDup_app.
  assert (Hother : ∀ a, a ∈ l1 ++ l2 →
            (op_type a = Destroy ∧ op_obj a = ObjDevice) ∧ op_device a ≠ X).
  { intros a Ha.
    assert (Hav : a ∈ visited).
    { rewrite Hsplit. apply elem_of_app in Ha as [?|?];
        apply elem_of_app; [by left|right; by right]. }
    apply Hvis in Hav as [[? ?] Hain]. split; [done|]. intros HaX.
    assert (Had : a ∈ filter (of_kind Destroy ObjDevice X) (operations t))
      by (by apply list_elem_of_filter).
    rewrite Hd in Had. apply list_elem_of_singleton in Had as ->.
    apply elem_of_app in Ha as [Ha|Ha]; [|done]. apply (Hdis d Ha). left. }
  assert (Hloop : ∀ l s, NoDup (operations s) → (∀ a, a ∈ l → a ∈ l1 ++ l2) →
            ∃ R : list Operation,
              for_each l prune_destroy_device s = drops R s
              ∧ ∀ o, o ∈ R → op_device o ≠ X).
  { intros l s Hs Hl.
    destruct (for_each_drops prune_destroy_device
                (λ a, op_type a = Destroy ∧ op_obj a = ObjDevice)
                (λ a o, op_device o = op_device a)) with (l := l) (t := s)
      as (R & HR & Hsame); [| done | |].
    - intros a s' Hs' [? ?]. by apply prune_destroy_device_ok.
    - intros a Ha. by apply Hother, Hl.
    - exists R. split; [done|]. intros o Ho.
      destruct (Hsame o Ho) as (a & Ha & ->). by apply Hother, Hl. }
  rewrite Hsplit, for_each_app.
  destruct (Hloop l1 t Hnd) as (R1 & -> & HR1).
  { intros a Ha. apply elem_of_app. by left. }
  set (t1 := set_operations _ t). simpl for_each. unfold bind.
  assert (Hnd1 : NoDup (operations t1)) by (by apply NoDup_drops).
  assert (HX1 : filter (λ o, op_device o = X) (operations t1)
                = filter (λ o, op_device o = X) (operations t)).
  { apply (filter_filter_not_elem (λ o, op_device o = X)). intros y Hy. by apply HR1. }
  rewrite (prune_destroy_device_single X d t1 Hnd1).
  2:{ simpl. rewrite (filter_filter_not_elem (of_kind Destroy ObjDevice X)); [done|].
      intros y Hy (_ & _ & ?). by apply (HR1 y). }
  2:{ simpl. rewrite (filter_filter_not_elem (of_kind Create ObjDevice X)); [done|].
      intros y Hy (_ & _ & ?). by apply (HR1 y). }
  rewrite HX1. set (R2 := filter _ (filter _ (operations t))).
  set (t2 := set_operations _ t1).
  destruct (Hloop l2 t2) as (R3 & -> & HR3).
  { by apply NoDup_drops. }
  { intros a Ha. apply elem_of_app. by right. }
  exists (R1 ++ R2 ++ R3). split.
  { subst t2 t1. unfold set_operations. simpl. by rewrite !filter_not_elem_app. }
  split.
  - intros o [Ho|[Ho|Ho]%elem_of_app]%elem_of_app HoX.
    + by destruct (HR1 o Ho).
    + by apply list_elem_of_filter in Ho as [? _].
    + by destruct (HR3 o Ho).
  - intros o Ho HoX Hp. apply elem_of_app. right. apply elem_of_app. left.
    apply list_elem_of_filter. split; [done|]. by apply list_elem_of_filter.
Qed.

(** X21: a log that holds exactly one destroy of the device [X] and no
    create of it: pruning keeps the destroy and drops every resize of
    [X] and every operation on the format of [X] other than a destroy,
    those registered after the destroy as well as those before it. *)
Theorem pruneOperations_single_destroy (X : nat) (d : Operation) (t : DeviceTree) :
  NoDup (operations t) →
  filter (of_kind Destroy ObjDevice X) (operations t) = [d] →
  filter (of_kind Create ObjDevice X) (operations t) = [] →
  ∃ R : list Operation,
    pruneOperations t = (Ok tt, set_operations (filter (λ o, o ∉ R) (operations t)) t)
    ∧ (d ∉ R)
    ∧ ∀ o, o ∈ operations t → op_device o = X →
           isResize o || (isFormat o && negb (isDestroy o)) = true → o ∈ R.
Proof.
  intros Hnd Hd Hc.
  set (K := of_kind Destroy ObjDevice X).
  set (Psub := λ l : list Operation,
         filter (of_kind Create ObjDevice X) l = []
         ∧ ∀ o, o ∈ l → op_device o = X →
                ¬ (isResize o || (isFormat o && negb (isDestroy o)))).
  set (P0 := λ l : list Operation,
         filter K l = [d] ∧ filter (of_kind Create ObjDevice X) l = []).
  set (P1 := λ l : list Operation, Psub l ∧ filter K l = [d]).
  assert (HK : ∀ o, K o → ¬ (isResize o || (isFormat o && negb (isDestroy o)))).
  { intros o (Hty & Hob & _). unfold isResize, isFormat. rewrite Hty, Hob. simpl. tauto. }
  assert (Hsub : ∀ l (R : list Operation), Psub l → Psub (filter (λ o, o ∉ R) l)).
  { intros l R [H1 H2]. split.
    - rewrite filter_comm, H1. done.
    - intros o [_ Ho]%list_elem_of_filter. by apply H2. }
  assert (Hfirst : prunes P0 (prune_pass Destroy ObjDevice prune_destroy_device) P1).
  { intros s Hs [Hsd Hsc].
    destruct (destroy_device_pass_single X d s Hs Hsd Hsc) as (R & HR & Hin & Hall).
    exists R. split; [done|]. split; [split|].
    - rewrite filter_comm, Hsc. done.
    - intros o [Ho Hoin]%list_elem_of_filter HoX Hp. apply Ho. by apply Hall.
    - fold K. rewrite filter_filter_not_elem; [done|].
      intros y Hy Hky. apply (HK y Hky). apply Hin; [done|]. by destruct Hky as (_ & _ & ?). }
  assert (Hall : prunes P0 pruneOperations P1).
  { unfold pruneOperations.
    apply (prunes_seq P0 P1); [exact Hfirst|].
    apply (prunes_seq P1 P1).
    { apply prunes_frame; [done|]. intros s Hs [Hsc _].
      destruct (create_device_pass_ok s Hs) as (R & HR & Hw).
      exists R. split; [done|]. intros o Ho (_ & _ & HoX).
      destruct (Hw o Ho) as (a & Ha & Hta & Hoa & Hda).
      apply (filter_nil_not_elem _ _ a Hsc Ha). repeat split; congruence. }
    apply (prunes_seq P1 P1).
    { apply keep_last_pass_frame; [done|]. intros o (Ho & _) (Ho' & _). congruence. }
    apply (prunes_seq P1 P1).
    { apply prunes_frame; [done|]. intros s Hs _.
      destruct (destroy_format_pass_ok s Hs) as (R & HR & Hw).
      exists R. split; [done|]. intros o Ho (_ & Hob & _).
      destruct (Hw o Ho) as (a & _ & _ & _ & _ & Hof). congruence. }
    apply (prunes_seq P1 P1).
    { apply prunes_frame; [done|]. intros s Hs _.
      destruct (create_format_pass_ok s Hs) as (R & HR & Hw).
      exists R. split; [done|]. intros o Ho (_ & Hob & _).
      destruct (Hw o Ho) as (a & _ & _ & _ & _ & Hof). congruence. }
    apply (prunes_seq P1 P1).
    { apply keep_last_pass_frame; [done|]. intros o (Ho & _) (Ho' & _). congruence. }
    apply keep_last_pass_frame; [done|]. intros o (Ho & _) (Ho' & _). congruence. }
  destruct (Hall t Hnd) as (R & HR & [_ Hrest] & HKd); [done|].
  exists R. split; [done|]. split.
  - assert (Hdin : d ∈ filter K (filter (λ o, o ∉ R) (operations t)))
      by (rewrite HKd; left).
    apply list_elem_of_filter in Hdin as [_ Hdin].
    by apply list_elem_of_filter in Hdin as [? _].
  - intros o Ho HoX Hp. destruct (decide (o ∈ R)) as [|Hn]; [done|].
    exfalso. apply (Hrest o); [by apply list_elem_of_filter|done|].
    rewrite Hp. done.
Qed.

Lemma pruneOperations_only_drops_witness :
  ∃ t', pruneOperations three_resizes_tree = (Ok tt, t')
        ∧ _devices t' = _devices three_resizes_tree
        ∧ heap t' = heap three_resizes_tree
        ∧ operations t' `sublist_of` operations three_resizes_tree
        ∧ NoDup (operations t').
Proof.
  assert (H : NoDup (operations three_resizes_tree)) by distinct_ops.
  exact (pruneOperations_only_drops three_resizes_tree H).
Defined.

Lemma pruneOperations_keeps_last_migrate_witness :
  ∃ R : list Operation,
    pruneOperations two_migrates_tree
    = (Ok tt, set_operations (filter (λ o, o ∉ R) (operations two_migrates_tree))
                two_migrates_tree)
    ∧ filter (of_kind Migrate ObjFormat 2)
             (filter (λ o, o ∉ R) (operations two_migrates_tree))
      = [migrate_sda1_again].
Proof.
  assert (H1 : NoDup (operations two_migrates_tree)) by distinct_ops.
  assert (H2 : no_lifecycle 2 (operations two_migrates_tree)).
  { intros o Ho _.
    repeat (apply elem_of_cons in Ho as [->|Ho]; [split; discriminate|]).
    inversion Ho. }
  assert (H3 : last (filter (of_kind Migrate ObjFormat 2) (operations two_migrates_tree))
               = Some migrate_sda1_again) by (vm_compute; reflexivity).
  exact (pruneOperations_keeps_last_migrate 2 migrate_sda1_again two_migrates_tree
           H1 H2 H3).
Defined.

Lemma pruneOperations_single_destroy_witness :
  ∃ R : list Operation,
    pruneOperations single_destroy_tree
    = (Ok tt, set_operations (filter (λ o, o ∉ R) (operations single_destroy_tree))
                single_destroy_tree)
    ∧ (destroy_sda1 ∉ R)
    ∧ ∀ o, o ∈ operations single_destroy_tree → op_device o = 2 →
           isResize o || (isFormat o && negb (isDestroy o)) = true → o ∈ R.
Proof.
  assert (H1 : NoDup (operations single_destroy_tree)) by distinct_ops.
  assert (H2 : filter (of_kind Destroy ObjDevice 2) (operations single_destroy_tree)
               = [destroy_sda1]) by (vm_compute; reflexivity).
  assert (H3 : filter (of_kind Create ObjDevice 2) (operations single_destroy_tree)
               = []) by (vm_compute; reflexivity).
  exact (pruneOperations_single_destroy 2 destroy_sda1 single_destroy_tree H1 H2 H3).
Defined.

(** ** Ignored and exclusive disks *)

Section IgnoringFacts.

Variable re_match : string → string → bool.

Local Abbreviation ignored := (isIgnored re_match).

Lemma claim_exclusive_Some (pattern name : string) (exclusive exclusive' : list string) :
  claim_exclusive re_match pattern name exclusive = Some exclusive' →
  length exclusive' = length exclusive
  ∧ name ∈ exclusive'
  ∧ ∃ entry, entry ∈ exclusive ∧ re_match pattern entry = true.
Proof.
  revert exclusive'. induction exclusive as [|entry rest IH]; intros l' H; [done|].
  simpl in H. destruct (re_match pattern entry) eqn:E.
  - injection H as <-. split; [done|]. split; [left|]. exists entry. split; [left|done].
  - destruct (claim_exclusive re_match pattern name rest) as [rest'|]; [|done].
    injection H as <-. destruct (IH rest' eq_refl) as (Hlen & Hin & entry' & Hin' & Hm).
    split; [simpl; by rewrite Hlen|]. split; [by right|].
    exists entry'. split; [by right|done].
Qed.

(** X22: a device that [isIgnored] has answered [True] for is answered
    [True] for again, and the second question changes nothing. *)
Theorem isIgnored_sticky (info : UdevInfo) (f f' : DiskFilter) :
  ignored info f = (Ok IgnTrue, f') →
  ignored info f' = (Ok IgnTrue, f').
Proof.
  unfold isIgnored. rewrite !bind_run. simpl.
  destruct (truthy (info_sysfs_path info)); simpl; [|done].
  case_bool_decide as Hin; [by intros [= <-]; rewrite bool_decide_eq_true_2|].
  case_bool_decide as Hc; [done|].
  destruct (if truthy (info_md_container info) && truthy (info_md_name info)
            then _ else None) as [excl|] eqn:Hclaim; [done|].
  destruct (info_is_disk info && _ && _ && _ && _ && _) eqn:Hdisk.
  - intros [= <-]. simpl. rewrite bool_decide_eq_true_2; [done|].
    apply elem_of_app. right. left.
  - destruct (orb _ _) eqn:Hloop; [|done].
    intros [= <-]. rewrite (bool_decide_eq_false_2 _ Hin), Hclaim, Hdisk. done.
Qed.

(** X23: [isIgnored] answers [False] in two cases only: for an md
    container, and then nothing changes; and for a member of an md
    container with an md name, when an entry of the exclusive disks
    matches the pattern of that name: then the name of the device stands
    in the list of exclusive disks, which is as long as before, and the
    ignored disks are as before. *)
Theorem isIgnored_false_answers (info : UdevInfo) (f f' : DiskFilter) :
  ignored info f = (Ok IgnFalse, f') →
  (info_md_level info = Some "container" ∧ f' = f)
  ∨ (truthy (info_md_container info) && truthy (info_md_name info) = true
     ∧ _ignoredDisks f' = _ignoredDisks f
     ∧ length (exclusiveDisks f') = length (exclusiveDisks f)
     ∧ info_name info ∈ exclusiveDisks f'
     ∧ ∃ entry, entry ∈ exclusiveDisks f
                ∧ re_match ("isw_[a-z]*_" +:+ default "" (info_md_name info)) entry = true).
Proof.
  unfold isIgnored. rewrite !bind_run. simpl.
  destruct (truthy (info_sysfs_path info)); simpl; [|done].
  case_bool_decide as Hin; [done|].
  case_bool_decide as Hc; [intros [= <-]; by left|].
  destruct (truthy (info_md_container info) && truthy (info_md_name info)) eqn:Hmd.
  - destruct (claim_exclusive _ _ _ _) as [excl|] eqn:Hclaim.
    + intros [= <-]. right. simpl.
      destruct (claim_exclusive_Some _ _ _ _ Hclaim) as (? & ? & ?). done.
    + destruct (info_is_disk info && _ && _ && _ && _ && _); [done|].
      by destruct (orb _ _).
  - destruct (info_is_disk info && _ && _ && _ && _ && _); [done|].
    by destruct (orb _ _).
Qed.

(** X24: a plain disk (a disk that is neither md, dm, BIOS RAID nor a
    multipath member, with a sysfs path, outside any md container and
    not ignored so far) in front of a list of exclusive disks that is not
    empty: when its name is not in the list it is ignored and remembered
    as ignored; when its name is in the list nothing is recorded and the
    answer is [None], or [True] for a name that starts with [loop] or
    [ram]. *)
Theorem isIgnored_exclusive_disks (info : UdevInfo) (f : DiskFilter) :
  truthy (info_sysfs_path info) = true →
  info_name info ∉ _ignoredDisks f →
  info_md_level info ≠ Some "container" →
  truthy (info_md_container info) && truthy (info_md_name info) = false →
  info_is_disk info && negb (info_is_md info) && negb (info_is_dm info)
  && negb (info_is_biosraid info) && negb (info_is_multipath_member info) = true →
  exclusiveDisks f ≠ [] →
  ignored info f
  = if bool_decide (info_name info ∈ exclusiveDisks f)
    then (Ok (if String.prefix "loop" (info_name info)
                 || String.prefix "ram" (info_name info)
              then IgnTrue else IgnNone), f)
    else (Ok IgnTrue, mkFilter (_ignoredDisks f ++ [info_name info]) (exclusiveDisks f)).
Proof.
  intros Hsys Hign Hlevel Hmd Hdisk Hexcl.
  unfold isIgnored. rewrite !bind_run. simpl.
  rewrite Hsys, (bool_decide_eq_false_2 _ Hign), (bool_decide_eq_false_2 _ Hlevel),
    Hmd, Hdisk, (bool_decide_eq_false_2 _ Hexcl). simpl.
  case_bool_decide; simpl; [|done].
  by destruct (orb _ _).
Qed.

End IgnoringFacts.

Lemma isIgnored_sticky_witness :
  isIgnored isw_match (plain_disk "sdb") (mkFilter [] ["sda"])
  = (Ok IgnTrue, mkFilter ["sdb"] ["sda"])
  ∧ isIgnored isw_match (plain_disk "sdb") (mkFilter ["sdb"] ["sda"])
    = (Ok IgnTrue, mkFilter ["sdb"] ["sda"]).
Proof.
  assert (H : isIgnored isw_match (plain_disk "sdb") (mkFilter [] ["sda"])
              = (Ok IgnTrue, mkFilter ["sdb"] ["sda"])) by (vm_compute; reflexivity).
  split; [exact H|].
  exact (isIgnored_sticky isw_match (plain_disk "sdb") (mkFilter [] ["sda"])
           (mkFilter ["sdb"] ["sda"]) H).
Defined.

Lemma isIgnored_false_answers_witness :
  isIgnored isw_match (md_member "md126" "Volume0") (mkFilter [] ["sda"; "isw_cfgh_Volume0"])
  = (Ok IgnFalse, mkFilter [] ["sda"; "md126"])
  ∧ "md126" ∈ exclusiveDisks (mkFilter [] ["sda"; "md126"]).
Proof.
  assert (H : isIgnored isw_match (md_member "md126" "Volume0")
                (mkFilter [] ["sda"; "isw_cfgh_Volume0"])
              = (Ok IgnFalse, mkFilter [] ["sda"; "md126"])) by (vm_compute; reflexivity).
  split; [exact H|].
  destruct (isIgnored_false_answers isw_match (md_member "md126" "Volume0")
              (mkFilter [] ["sda"; "isw_cfgh_Volume0"]) (mkFilter [] ["sda"; "md126"]) H)
    as [[Hc _]|(_ & _ & _ & Hin & _)]; [discriminate Hc|exact Hin].
Defined.

Lemma isIgnored_exclusive_disks_witness :
  isIgnored isw_match (plain_disk "sdb") (mkFilter [] ["sda"])
  = (Ok IgnTrue, mkFilter ["sdb"] ["sda"])
  ∧ isIgnored isw_match (plain_disk "sda") (mkFilter [] ["sda"])
    = (Ok IgnNone, mkFilter [] ["sda"]).
Proof.
  assert (H1 : "sdb" ∉ @nil string) by (intros H; inversion H).
  assert (H2 : "sda" ∉ @nil string) by (intros H; inversion H).
  assert (H3 : @None string ≠ Some "container") by discriminate.
  assert (H4 : ["sda"] ≠ @nil string) by discriminate.
  split.
  - exact (isIgnored_exclusive_disks isw_match (plain_disk "sdb") (mkFilter [] ["sda"])
             eq_refl H1 H3 eq_refl eq_refl H4).
  - exact (isIgnored_exclusive_disks isw_match (plain_disk "sda") (mkFilter [] ["sda"])
             eq_refl H2 H3 eq_refl eq_refl H4).
Defined.

(** *** At most one resize and one migrate per target *)

Lemma filter_sublog_length (K : Operation → Prop) `{∀ o, Decision (K o)}
    (R l : list Operation) :
  length (filter K (filter (λ o, o ∉ R) l)) ≤ length (filter K l).
Proof.
  rewrite filter_comm. apply sublist_length, sublist_filter.
Qed.

(** After the keep-last pass of a kind no device has two operations of
    that kind. *)
Lemma keep_last_pass_all (type : OpType) (object : OpObj) (P : list Operation → Prop) :
  (∀ l (R : list Operation), P l → P (filter (λ o, o ∉ R) l)) →
  prunes P (prune_pass type object (prune_keep_last type object))
         (λ l, P l ∧ ∀ X, length (filter (of_kind type object X) l) ≤ 1).
Proof.
  intros Hsub t Hnd HP.
  destruct (keep_last_pass_ok type object t Hnd) as (R & HR & _).
  exists R. split; [done|]. split; [by apply Hsub|]. intros X.
  destruct (last (filter (of_kind type object X) (operations t))) as [r|] eqn:Hlast.
  - destruct (keep_last_pass_class type object X r t Hnd Hlast) as (R' & HR' & E).
    rewrite HR in HR'. injection HR' as HR'. rewrite HR', E. simpl. lia.
  - apply last_None in Hlast.
    etrans; [apply filter_sublog_length|]. rewrite Hlast. simpl. lia.
Qed.

(** The three kinds of operation of which pruning keeps the last. *)
Local Abbreviation one_of_each l :=
  ((∀ X, length (filter (of_kind Resize ObjDevice X) l) ≤ 1)
   ∧ (∀ X, length (filter (of_kind Resize ObjFormat X) l) ≤ 1)
   ∧ (∀ X, length (filter (of_kind Migrate ObjFormat X) l) ≤ 1)).

Lemma pruneOperations_one_of_each (P : list Operation → Prop) :
  (∀ l (R : list Operation), P l → P (filter (λ o, o ∉ R) l)) →
  prunes P pruneOperations (λ l, P l ∧ one_of_each l).
Proof.
  intros Hsub.
  set (Q1 := λ l : list Operation,
         P l ∧ ∀ X, length (filter (of_kind Resize ObjDevice X) l) ≤ 1).
  set (Q2 := λ l : list Operation,
         Q1 l ∧ ∀ X, length (filter (of_kind Resize ObjFormat X) l) ≤ 1).
  set (Q3 := λ l : list Operation,
         Q2 l ∧ ∀ X, length (filter (of_kind Migrate ObjFormat X) l) ≤ 1).
  assert (Hsub1 : ∀ l (R : list Operation), Q1 l → Q1 (filter (λ o, o ∉ R) l)).
  { intros l R [HP H1]. split; [by apply Hsub|].
    intros X. etrans; [apply filter_sublog_length|apply H1]. }
  assert (Hsub2 : ∀ l (R : list Operation), Q2 l → Q2 (filter (λ o, o ∉ R) l)).
  { intros l R [HQ H2]. split; [by apply Hsub1|].
    intros X. etrans; [apply filter_sublog_length|apply H2]. }
  assert (Hall : prunes P pruneOperations Q3).
  { unfold pruneOperations.
    apply (prunes_seq P P).
    { apply prunes_sublog; [done|]. intros t Hnd.
      destruct (destroy_device_pass_ok t Hnd) as (R & ? & _). eauto. }
    apply (prunes_seq P P).
    { apply prunes_sublog; [done|]. intros t Hnd.
      destruct (create_device_pass_ok t Hnd) as (R & ? & _). eauto. }
    apply (prunes_seq P Q1); [by apply keep_last_pass_all|].
    apply (prunes_seq Q1 Q1).
    { apply prunes_sublog; [done|]. intros t Hnd.
      destruct (destroy_format_pass_ok t Hnd) as (R & ? & _). eauto. }
    apply (prunes_seq Q1 Q1).
    { apply prunes_sublog; [done|]. intros t Hnd.
      destruct (create_format_pass_ok t Hnd) as (R & ? & _). eauto. }
    apply (prunes_seq Q1 Q2); [by apply keep_last_pass_all|].
    by apply keep_last_pass_all. }
  intros t Hnd HP. destruct (Hall t Hnd HP) as (R & HR & [[[? ?] ?] ?]).
  exists R. done.
Qed.

(** X25: whatever the log holds, after pruning no device has two resize
    operations, no format has two resize operations and no format has
    two migrate operations. *)
Theorem pruneOperations_at_most_one (t : DeviceTree) :
  NoDup (operations t) →
  ∃ t', pruneOperations t = (Ok tt, t')
        ∧ ∀ X, length (filter (of_kind Resize ObjDevice X) (operations t')) ≤ 1
               ∧ length (filter (of_kind Resize ObjFormat X) (operations t')) ≤ 1
               ∧ length (filter (of_kind Migrate ObjFormat X) (operations t')) ≤ 1.
Proof.
  intros Hnd.
  destruct (pruneOperations_one_of_each (λ _, True) (λ _ _ _, I) t Hnd I)
    as (R & HR & _ & H1 & H2 & H3).
  eexists. split; [exact HR|]. intros X. simpl. auto.
Qed.

(** A log of resize and migrate operations with at most one of each
    kind on a device is left as it is. *)
Lemma pruneOperations_fixed (t : DeviceTree) :
  (∀ o, o ∈ operations t → op_type o = Resize ∨ op_type o = Migrate) →
  one_of_each (operations t) →
  pruneOperations t = (Ok tt, t).
Proof.
  intros Hty (H1 & H2 & H3).
  assert (Hlife : ∀ type object body,
            type = Create ∨ type = Destroy →
            prune_pass type object body t = (Ok tt, t)).
  { intros type object body Hk. unfold prune_pass.
    rewrite (bind_ok _ _ _ _ _ (findOperations_all_of _ _ t)).
    rewrite filter_nil_elem_of; [done|].
    intros o Ho Hm%op_matches_iff. unfold passes in Hm.
    destruct Hm as (Hm & _). destruct (Hty o Ho), Hk; congruence. }
  assert (Hkeep : ∀ type object,
            (∀ X, length (filter (of_kind type object X) (operations t)) ≤ 1) →
            prune_pass type object (prune_keep_last type object) t = (Ok tt, t)).
  { intros type object Hone. unfold prune_pass.
    rewrite (bind_ok _ _ _ _ _ (findOperations_all_of _ _ t)).
    apply for_each_skip. intros a [Ha Hin]%list_elem_of_filter.
    apply op_matches_iff in Ha. unfold passes in Ha. destruct Ha as (Hta & Hoa & _).
    unfold prune_keep_last.
    rewrite (bind_ok _ _ _ _ _ (ops_contains_run a t)).
    rewrite (bool_decide_eq_true_2 _ Hin). simpl.
    rewrite (bind_ok _ _ t t (filter (λ o, op_matches (heap t) None (Some type) (Some object)
                                         None (Some (op_device a)) o) (operations t)))
      by reflexivity.
    rewrite filter_kind_of_kind.
    rewrite bool_decide_eq_true_2; [done|].
    specialize (Hone (op_device a)).
    assert (Hain : a ∈ filter (of_kind type object (op_device a)) (operations t)).
    { apply list_elem_of_filter. done. }
    destruct (filter _ (operations t)) as [|x [|y l]]; simpl in *; [inversion Hain|done|lia]. }
  unfold pruneOperations.
  rewrite (bind_ok _ _ _ _ _ (Hlife Destroy ObjDevice _ (or_intror eq_refl))).
  rewrite (bind_ok _ _ _ _ _ (Hlife Create ObjDevice _ (or_introl eq_refl))).
  rewrite (bind_ok _ _ _ _ _ (Hkeep Resize ObjDevice H1)).
  rewrite (bind_ok _ _ _ _ _ (Hlife Destroy ObjFormat _ (or_intror eq_refl))).
  rewrite (bind_ok _ _ _ _ _ (Hlife Create ObjFormat _ (or_introl eq_refl))).
  rewrite (bind_ok _ _ _ _ _ (Hkeep Resize ObjFormat H2)).
  by apply Hkeep.
Qed.

(** X26: on a log that holds resize and migrate operations only,
    pruning is idempotent: what the first pruning leaves, a second
    pruning leaves as it is. *)
Theorem pruneOperations_idempotent_on_resizes (t : DeviceTree) :
  NoDup (operations t) →
  (∀ o, o ∈ operations t → op_type o = Resize ∨ op_type o = Migrate) →
  ∃ t', pruneOperations t = (Ok tt, t')
        ∧ pruneOperations t' = (Ok tt, t').
Proof.
  intros Hnd Hty.
  destruct (pruneOperations_one_of_each
              (λ l, ∀ o, o ∈ l → op_type o = Resize ∨ op_type o = Migrate))
    with (t := t) as (R & HR & Hty' & Hone); [|done|done|].
  { intros l R H o [_ Ho]%list_elem_of_filter. by apply H. }
  eexists. split; [exact HR|]. by apply pruneOperations_fixed.
Qed.

Lemma pruneOperations_at_most_one_witness :
  ∃ t', pruneOperations three_resizes_tree = (Ok tt, t')
        ∧ ∀ X, length (filter (of_kind Resize ObjDevice X) (operations t')) ≤ 1
               ∧ length (filter (of_kind Resize ObjFormat X) (operations t')) ≤ 1
               ∧ length (filter (of_kind Migrate ObjFormat X) (operations t')) ≤ 1.
Proof.
  assert (H : NoDup (operations three_resizes_tree)) by distinct_ops.
  exact (pruneOperations_at_most_one three_resizes_tree H).
Defined.

Lemma pruneOperations_idempotent_on_resizes_witness :
  ∃ t', pruneOperations two_migrates_tree = (Ok tt, t')
        ∧ pruneOperations t' = (Ok tt, t').
Proof.
  assert (H1 : NoDup (operations two_migrates_tree)) by distinct_ops.
  assert (H2 : ∀ o, o ∈ operations two_migrates_tree →
                    op_type o = Resize ∨ op_type o = Migrate).
  { intros o Ho.
    repeat (apply elem_of_cons in Ho as [->|Ho]; [by (left + right)|]).
    inversion Ho. }
  exact (pruneOperations_idempotent_on_resizes two_migrates_tree H1 H2).
Defined.

(** *** Creating a device on an occupied path *)

Section Eviction.

Variable removePartition : nat → nat → gmap nat Device → gmap nat Device.
Variable updateName : nat → gmap nat Device → gmap nat Device.
Variable logicalPartitions : gmap nat Device → nat → nat.

Local Abbreviation removeDev := (_removeDevice removePartition updateName logicalPartitions).
Local Abbreviation addOp := (addOperation removePartition updateName logicalPartitions).
Local Abbreviation same_path_loop :=
  (remove_same_path removePartition updateName logicalPartitions).

(** The loop over the device list when one device of the tree, a leaf
    whose partition table is not involved, has the path of the device of
    the operation: the loop removes that device and nothing else. *)
Lemma remove_same_path_evicts (operation : Operation) (occupant : nat)
    (l1 l2 : list nat) (t : DeviceTree) :
  _devices t = l1 ++ occupant :: l2 →
  NoDup (paths t) →
  dev_path (deref (heap t) occupant) = dev_path (deref (heap t) (op_device operation)) →
  isleaf (deref (heap t) occupant) = true →
  dev_disk (deref (heap t) occupant) = None
  ∨ isPartition (deref (heap t) occupant) = false →
  ∀ n i rounds, i + n = length l1 → n < rounds →
    same_path_loop rounds i operation t
    = (Ok tt, mkTree (l1 ++ l2) (operations t)
                (foldl (λ h parent, alter removeChild parent h) (heap t)
                       (dev_parents (deref (heap t) occupant)))).
Proof.
  intros Hdev Hnd Hpath Hleaf Hplain.
  assert (Hndd : NoDup (_devices t)) by (by apply NoDup_fmap_1 in Hnd).
  rewrite Hdev in Hndd.
  pose proof Hndd as (_ & Hdis & [Hocc2 _]%NoDup_cons)%NoDup_app.
  assert (Hocc1 : occupant ∉ l1).
  { intros Hin. apply (Hdis _ Hin). left. }
  assert (Hothers : dev_path (deref (heap t) occupant)
                    ∉ (λ d, dev_path (deref (heap t) d)) <$> (l1 ++ l2)).
  { unfold paths in Hnd. rewrite Hdev, fmap_app, fmap_cons in Hnd.
    apply NoDup_app in Hnd as (_ & Hdisp & [Hp2 _]%NoDup_cons).
    rewrite fmap_app. intros [Hin|Hin]%elem_of_app; [|done].
    apply (Hdisp _ Hin). left. }
  induction n as [|n IH]; intros i rounds Hi Hr.
  - destruct rounds as [|rounds]; [lia|]. simpl. rewrite bind_run. simpl.
    assert (Hlook : _devices t !! i = Some occupant).
    { rewrite Hdev. apply list_lookup_middle. lia. }
    rewrite Hlook, bind_run, (bool_decide_eq_true_2 _ Hpath).
    rewrite (_removeDevice_plain removePartition updateName logicalPartitions
               occupant false true t (l1 ++ l2)).
    + apply (remove_same_path_none removePartition updateName logicalPartitions).
      unfold paths. simpl.
      rewrite (proj1 (removeChild_loop_deref _ _ _)), <- Hpath.
      erewrite list_fmap_ext; [exact Hothers|].
      intros k x _. simpl. apply removeChild_loop_deref.
    + rewrite Hdev. by apply list_remove_first_app_fresh.
    + by rewrite Hleaf.
    + destruct Hplain as [?| ->]; auto.
  - destruct rounds as [|rounds]; [lia|]. simpl. rewrite bind_run. simpl.
    assert (Hlt : i < length l1) by lia.
    destruct (lookup_lt_is_Some_2 l1 i Hlt) as [x Hx].
    assert (Hlook : _devices t !! i = Some x).
    { rewrite Hdev. by rewrite lookup_app_l. }
    rewrite Hlook, bind_run. rewrite bool_decide_eq_false_2.
    + apply IH; lia.
    + rewrite <- Hpath. intros Heq. apply Hothers. rewrite <- Heq.
      apply list_elem_of_fmap. exists x. split; [done|].
      apply elem_of_app. left. by apply list_elem_of_lookup_2 in Hx.
Qed.

(** X27: registering the create operation of a device whose path is held
    by a device of the tree, a leaf whose partition table is not
    involved: the occupant leaves the tree, its parents lose a child,
    and the new device is appended to the list and the operation to the
    log. *)
Theorem addOperation_create_evicts (operation : Operation) (occupant : nat)
    (t : DeviceTree) :
  isCreate operation && isDevice operation = true →
  op_device operation ∉ _devices t →
  occupant ∈ _devices t →
  NoDup (paths t) →
  dev_path (deref (heap t) occupant) = dev_path (deref (heap t) (op_device operation)) →
  isleaf (deref (heap t) occupant) = true →
  dev_disk (deref (heap t) occupant) = None
  ∨ isPartition (deref (heap t) occupant) = false →
  (∀ parent, parent ∈ dev_parents (deref (heap t) (op_device operation)) →
             parent ∈ _devices t ∧ parent ≠ occupant) →
  addOp operation t
  = (Ok tt, mkTree (filter (λ d, d ≠ occupant) (_devices t) ++ [op_device operation])
                   (operations t ++ [operation])
                   (foldl (λ h parent, alter removeChild parent h) (heap t)
                          (dev_parents (deref (heap t) occupant)))).
Proof.
  intros Hk Hnin Hocc Hnd Hpath Hleaf Hplain Hpar.
  destruct (isCreate_isDevice_kind _ Hk) as (Hd & Hr & Hf & _).
  pose proof Hk as [Hc Hdev]%andb_true_iff.
  assert (Hndd : NoDup (_devices t)) by (by apply NoDup_fmap_1 in Hnd).
  destruct (list_elem_of_split _ _ Hocc) as (l1 & l2 & Hsplit).
  assert (Hfilter : filter (λ d, d ≠ occupant) (_devices t) = l1 ++ l2).
  { pose proof (list_remove_first_NoDup _ _ Hndd Hocc) as H1.
    rewrite Hsplit in Hndd.
    pose proof Hndd as (_ & Hdis & _)%NoDup_app.
    rewrite Hsplit in H1 at 1. rewrite list_remove_first_app_fresh in H1.
    - by injection H1 as <-.
    - intros Hin. apply (Hdis _ Hin). left. }
  rewrite Hfilter.
  unfold addOperation. rewrite bind_run. simpl.
  rewrite Hd, Hr, Hf, Hc, Hdev, (bool_decide_eq_false_2 _ Hnin). simpl.
  rewrite bind_run. rewrite bind_run. simpl. rewrite bind_run. simpl.
  rewrite (remove_same_path_evicts operation occupant l1 l2 t Hsplit Hnd Hpath Hleaf
             Hplain (length l1) 0 (length (_devices t))).
  2:{ lia. }
  2:{ rewrite Hsplit, length_app. simpl. lia. }
  rewrite bind_run. rewrite _addDevice_ok; [reflexivity| |].
  - simpl. rewrite (proj1 (removeChild_loop_deref _ _ _)), <- Hpath.
    erewrite list_fmap_ext.
    + rewrite <- Hfilter.
      by apply (NoDup_fmap_filter_ne (λ d, dev_path (deref (heap t) d))).
    + intros k x _. simpl. apply removeChild_loop_deref.
  - simpl. rewrite (proj1 (proj2 (removeChild_loop_deref _ _ _))).
    intros parent Hparent. destruct (Hpar parent Hparent) as [Hin Hne].
    rewrite <- Hfilter. by apply list_elem_of_filter.
Qed.

End Eviction.

Lemma addOperation_create_evicts_witness :
  addOperation no_removePartition no_updateName no_logicalPartitions
    create_new_sda sda_tree
  = (Ok tt, mkTree [2] [create_new_sda] (heap sda_tree)).
Proof.
  assert (H1 : isCreate create_new_sda && isDevice create_new_sda = true) by reflexivity.
  assert (H2 : op_device create_new_sda ∉ _devices sda_tree).
  { intros H. apply list_elem_of_singleton in H. discriminate H. }
  assert (H3 : 1 ∈ _devices sda_tree) by left.
  assert (H4 : NoDup (paths sda_tree)) by (vm_compute; distinct_ops).
  assert (H5 : dev_path (deref (heap sda_tree) 1)
               = dev_path (deref (heap sda_tree) (op_device create_new_sda)))
    by (vm_compute; reflexivity).
  assert (H6 : isleaf (deref (heap sda_tree) 1) = true) by (vm_compute; reflexivity).
  assert (H7 : dev_disk (deref (heap sda_tree) 1) = None
               ∨ isPartition (deref (heap sda_tree) 1) = false)
    by (left; vm_compute; reflexivity).
  assert (H8 : ∀ parent,
             parent ∈ dev_parents (deref (heap sda_tree) (op_device create_new_sda)) →
             parent ∈ _devices sda_tree ∧ parent ≠ 1).
  { intros parent H. vm_compute in H. inversion H. }
  exact (addOperation_create_evicts no_removePartition no_updateName
           no_logicalPartitions create_new_sda 1 sda_tree H1 H2 H3 H4 H5 H6 H7 H8).
Defined.
